(** * jersi-drawer-tk: board layout, board state, notation reader, geometry

    A shallow embedding of [jersi_drawer_tk/jersi_gui.py], and of the
    loop of [create_conda_environment.py] that reads the requirements.

    Modelling conventions.
    - Python [float] values are idealised as real numbers ([R]); [math.pi],
      [math.cos], [math.sin], [math.tan] and [math.sqrt] are the functions
      of the same name of the real-number library.  Python [int] values
      are [Z].
    - A Python [dict] keyed by strings is a [gmap string _].  The
      iteration order of a dict is not modelled: the only loops over a dict
      that the development follows write to pairwise distinct keys.
    - A Python [str] is a [string]; each character stands for the code
      point of the same number (0..255).
    - Module-level mutable objects ([Hexagon.alls], [STATE]) are passed
      explicitly.  A computation that may raise is a function from the
      store to a [result] and the store left behind: an exception does not
      undo the writes made before it. *)

From Stdlib Require Import Reals Lra ZArith String Ascii.
From Stdlib Require HexadecimalString.
From stdpp Require Import gmap strings list fin_maps.

Local Open Scope string_scope.

(** ** Exceptions and the store-passing monad *)

(** The exceptions the modelled code can raise.  [JersiError] is the
    class of the program; the others are built-in exceptions raised by the
    interpreter: [KeyError] by a failed dict subscript, [IndexError] by a
    failed list subscript, [ValueError] by a failed tuple unpacking and
    [TypeError] by [raise] applied to an object that is not an exception. *)
Inductive exception : Type :=
| JersiError (message : string)
| KeyError (key : string)
| IndexError
| ValueError
| TypeError (message : string).

Inductive result (A : Type) : Type :=
| Ok (a : A)
| Raise (e : exception).
Arguments Ok {A} a.
Arguments Raise {A} e.

Definition M (S A : Type) : Type := S -> result A * S.

Definition ret {S A} (a : A) : M S A := fun s => (Ok a, s).

Definition raise {S A} (e : exception) : M S A := fun s => (Raise e, s).

Definition bind {S A B} (c : M S A) (k : A -> M S B) : M S B :=
  fun s =>
    match c s with
    | (Ok a, s') => k a s'
    | (Raise e, s') => (Raise e, s')
    end.

Definition get {S} : M S S := fun s => (Ok s, s).

Definition put {S} (s : S) : M S unit := fun _ => (Ok tt, s).

Declare Scope jersi_scope.
Delimit Scope jersi_scope with jersi.
Notation "x <- c ;; k" := (bind c (fun x => k))
  (at level 100, c at level 99, k at level 200, right associativity) : jersi_scope.
Notation "c ;; k" := (bind c (fun _ => k))
  (at level 100, k at level 200, right associativity) : jersi_scope.

Local Open Scope jersi_scope.

(** [for x in l: body x] *)
Fixpoint for_each {S A} (l : list A) (body : A -> M S unit) : M S unit :=
  match l with
  | [] => ret tt
  | x :: l' => body x ;; for_each l' body
  end.

(** [jersi_assert(condition, message)] *)
Definition jersi_assert {S} (condition : bool) (message : string) : M S unit :=
  if negb condition then raise (JersiError message) else ret tt.

(** ** TinyVector *)

Record TinyVector : Type := mkTinyVector { vx : R; vy : R }.

Module TinyVector.
Local Open Scope R_scope.

(** [__neg__] *)
Definition neg (a : TinyVector) : TinyVector :=
  mkTinyVector (- vx a) (- vy a).

(** [__add__] with a [TinyVector] operand *)
Definition add (a b : TinyVector) : TinyVector :=
  mkTinyVector (vx a + vx b) (vy a + vy b).

(** [__sub__] with a [TinyVector] operand *)
Definition sub (a b : TinyVector) : TinyVector :=
  mkTinyVector (vx a - vx b) (vy a - vy b).

(** [__mul__] with a number; [__rmul__] forwards to it, so
    [k*a] and [a*k] are the same call. *)
Definition mul (a : TinyVector) (other : R) : TinyVector :=
  mkTinyVector (vx a * other) (vy a * other).

Definition rmul (other : R) (a : TinyVector) : TinyVector := mul a other.

(** [TinyVector.inner] *)
Definition inner (that other : TinyVector) : R :=
  vx that * vx other + vy that * vy other.
End TinyVector.

Declare Scope vec_scope.
Delimit Scope vec_scope with vec.
Infix "+" := TinyVector.add : vec_scope.
Infix "-" := TinyVector.sub : vec_scope.
Notation "k *: a" := (TinyVector.rmul k a) : vec_scope.
Arguments TinyVector.rmul other%_R a%_vec.
Arguments TinyVector.mul a%_vec other%_R.
Arguments TinyVector.add (a b)%_vec.
Arguments TinyVector.sub (a b)%_vec.

(** ** Module constants *)

Definition CANVAS_RATIO : Z := 1.
Definition CANVAS_HEIGHT : Z := 600.
Definition CANVAS_WIDTH : Z := CANVAS_HEIGHT * CANVAS_RATIO.

Definition NX : Z := 9 + 2.
Definition NY : Z := 9.

Definition HEXA_VERTEX_COUNT : Z := 6.
Definition HEXA_SIDE_ANGLE : R := (2 * PI / IZR HEXA_VERTEX_COUNT)%R.
Definition HEXA_WIDTH : R :=
  (IZR (Z.min CANVAS_HEIGHT CANVAS_WIDTH) / IZR (Z.max NX NY))%R.
Definition HEXA_SIDE : R := (HEXA_WIDTH * tan (HEXA_SIDE_ANGLE / 2))%R.
Definition HEXA_DELTA_Y : R := sqrt (HEXA_SIDE ^ 2 - (HEXA_WIDTH / 2) ^ 2)%R.

Definition ORIGIN : TinyVector :=
  mkTinyVector (IZR CANVAS_WIDTH / 2) (IZR CANVAS_HEIGHT / 2).

(** Unit vectors of the orthonormal x-y frame *)
Definition UNIT_X : TinyVector := mkTinyVector 1 0.
Definition UNIT_Y : TinyVector := mkTinyVector 0 (-1).

(** Unit vectors of the oblic u-v frame *)
Definition UNIT_U : TinyVector := UNIT_X.
Definition UNIT_V : TinyVector :=
  (cos HEXA_SIDE_ANGLE *: UNIT_X + sin HEXA_SIDE_ANGLE *: UNIT_Y)%vec.

(** ** Enumerations *)

Inductive HexagonColor : Type := INNER | MAIN | OUTER | EXTRA.

Inductive CubeColor : Type := BLACK | WHITE.

Inductive CubeConfig : Type := BOTTOM | SINGLE | TOP.

Inductive CubeType : Type := KING | FOOL | PAPER | ROCK | SCISSORS | MOUNTAIN | WISE.

(** The [value] of a [CubeType] member *)
Definition CubeType_value (t : CubeType) : string :=
  match t with
  | KING => "K" | FOOL => "F" | PAPER => "P" | ROCK => "R"
  | SCISSORS => "S" | MOUNTAIN => "M" | WISE => "W"
  end.

#[global] Instance CubeColor_eq_dec : EqDecision CubeColor.
Proof. solve_decision. Defined.
#[global] Instance CubeType_eq_dec : EqDecision CubeType.
Proof. solve_decision. Defined.

(** A colored cube type, the pair stored in [CUBE_COLORED_TYPES] *)
Abbreviation ColoredType := (CubeType * CubeColor)%type.

Definition CUBE_COLORED_TYPES : gmap string ColoredType :=
  let d := ∅ in
  let d := <["K" := (KING, WHITE)]> d in
  let d := <["F" := (FOOL, WHITE)]> d in
  let d := <["R" := (ROCK, WHITE)]> d in
  let d := <["P" := (PAPER, WHITE)]> d in
  let d := <["S" := (SCISSORS, WHITE)]> d in
  let d := <["M" := (MOUNTAIN, WHITE)]> d in
  let d := <["W" := (WISE, WHITE)]> d in
  let d := <["k" := (KING, BLACK)]> d in
  let d := <["f" := (FOOL, BLACK)]> d in
  let d := <["r" := (ROCK, BLACK)]> d in
  let d := <["p" := (PAPER, BLACK)]> d in
  let d := <["s" := (SCISSORS, BLACK)]> d in
  let d := <["m" := (MOUNTAIN, BLACK)]> d in
  let d := <["w" := (WISE, BLACK)]> d in
  d.

(** ** Hexagon and its registry [Hexagon.alls] *)

(** The fields of a [Hexagon].  [color] holds the member of
    [HexagonColor] whose value, a color string, the source stores. *)
Record Hexagon : Type := mkHexagon {
  label : string;
  position_uv : Z * Z;
  color : HexagonColor;
  is_extra : bool;
  extra_shift : option TinyVector
}.

Definition is_not_None {A} (o : option A) : bool :=
  match o with Some _ => true | None => false end.

(** [Hexagon.__init__]: the consistency assertion, then the fields. *)
Definition Hexagon_init {S} (label : string) (position_uv : Z * Z)
    (color : HexagonColor) (is_extra : bool)
    (extra_shift : option TinyVector) : M S Hexagon :=
  jersi_assert (eqb is_extra (is_not_None extra_shift))
    ("is_extra and extra_shift not consisten for label '" ++ label ++ "'") ;;
  ret (mkHexagon label position_uv color is_extra extra_shift).

(** [label in d] for a dict [d] *)
Definition contains {A} (d : gmap string A) (key : string) : bool :=
  is_not_None (d !! key).

(** [Hexagon.add], on the registry [Hexagon.alls] *)
Definition Hexagon_add (label : string) (position_uv : Z * Z)
    (color : HexagonColor) (is_extra : bool)
    (extra_shift : option TinyVector) : M (gmap string Hexagon) unit :=
  alls <- get ;;
  jersi_assert (negb (contains alls label))
    ("no hexagon with label '" ++ label ++ "'") ;;
  hexagon <- Hexagon_init label position_uv color is_extra extra_shift ;;
  alls <- get ;;
  put (<[label := hexagon]> alls).

(** The calls to [Hexagon.add] made when the module is loaded, in the
    order of the source. *)
Definition Hexagon_alls_script : M (gmap string Hexagon) unit :=
  (* Row "a" *)
  Hexagon_add "a1" (-1, -4)%Z OUTER false None ;;
  Hexagon_add "a2" (0, -4)%Z OUTER false None ;;
  Hexagon_add "a3" (1, -4)%Z OUTER false None ;;
  Hexagon_add "a4" (2, -4)%Z OUTER false None ;;
  Hexagon_add "a5" (3, -4)%Z OUTER false None ;;
  Hexagon_add "a6" (4, -4)%Z OUTER false None ;;
  Hexagon_add "a7" (5, -4)%Z OUTER false None ;;
  Hexagon_add "a" (6, -4)%Z EXTRA true
    (Some ((0.75 * HEXA_WIDTH) *: UNIT_X - HEXA_DELTA_Y *: UNIT_Y)%vec) ;;
  (* Row "b" *)
  Hexagon_add "b1" (-2, -3)%Z OUTER false None ;;
  Hexagon_add "b2" (-1, -3)%Z MAIN false None ;;
  Hexagon_add "b3" (0, -3)%Z MAIN false None ;;
  Hexagon_add "b4" (1, -3)%Z MAIN false None ;;
  Hexagon_add "b5" (2, -3)%Z MAIN false None ;;
  Hexagon_add "b6" (3, -3)%Z MAIN false None ;;
  Hexagon_add "b7" (4, -3)%Z MAIN false None ;;
  Hexagon_add "b8" (5, -3)%Z OUTER false None ;;
  Hexagon_add "b" (6, -3)%Z EXTRA true
    (Some ((0.25 * HEXA_WIDTH) *: UNIT_X)%vec) ;;
  (* Row "c" *)
  Hexagon_add "c1" (-2, -2)%Z OUTER false None ;;
  Hexagon_add "c2" (-1, -2)%Z MAIN false None ;;
  Hexagon_add "c3" (0, -2)%Z INNER false None ;;
  Hexagon_add "c4" (1, -2)%Z INNER false None ;;
  Hexagon_add "c5" (2, -2)%Z INNER false None ;;
  Hexagon_add "c6" (3, -2)%Z MAIN false None ;;
  Hexagon_add "c7" (4, -2)%Z OUTER false None ;;
  Hexagon_add "c" (5, -2)%Z EXTRA true
    (Some ((0.75 * HEXA_WIDTH) *: UNIT_X + HEXA_DELTA_Y *: UNIT_Y)%vec) ;;
  (* Row "d" *)
  Hexagon_add "d1" (-3, -1)%Z OUTER false None ;;
  Hexagon_add "d2" (-2, -1)%Z MAIN false None ;;
  Hexagon_add "d3" (-1, -1)%Z INNER false None ;;
  Hexagon_add "d4" (0, -1)%Z MAIN false None ;;
  Hexagon_add "d5" (1, -1)%Z MAIN false None ;;
  Hexagon_add "d6" (2, -1)%Z INNER false None ;;
  Hexagon_add "d7" (3, -1)%Z MAIN false None ;;
  Hexagon_add "d8" (4, -1)%Z OUTER false None ;;
  (* Row "e" *)
  Hexagon_add "e1" (-4, 0)%Z OUTER false None ;;
  Hexagon_add "e2" (-3, 0)%Z MAIN false None ;;
  Hexagon_add "e3" (-2, 0)%Z INNER false None ;;
  Hexagon_add "e4" (-1, 0)%Z MAIN false None ;;
  Hexagon_add "e5" (0, 0)%Z INNER false None ;;
  Hexagon_add "e6" (1, 0)%Z MAIN false None ;;
  Hexagon_add "e7" (2, 0)%Z INNER false None ;;
  Hexagon_add "e8" (3, 0)%Z MAIN false None ;;
  Hexagon_add "e9" (4, 0)%Z OUTER false None ;;
  (* Row "f" *)
  Hexagon_add "f1" (-4, 1)%Z OUTER false None ;;
  Hexagon_add "f2" (-3, 1)%Z MAIN false None ;;
  Hexagon_add "f3" (-2, 1)%Z INNER false None ;;
  Hexagon_add "f4" (-1, 1)%Z MAIN false None ;;
  Hexagon_add "f5" (0, 1)%Z MAIN false None ;;
  Hexagon_add "f6" (1, 1)%Z INNER false None ;;
  Hexagon_add "f7" (2, 1)%Z MAIN false None ;;
  Hexagon_add "f8" (3, 1)%Z OUTER false None ;;
  (* Row "g" *)
  Hexagon_add "g" (-5, 2)%Z EXTRA true
    (Some ((- 0.75 * HEXA_WIDTH) *: UNIT_X - HEXA_DELTA_Y *: UNIT_Y)%vec) ;;
  Hexagon_add "g1" (-4, 2)%Z OUTER false None ;;
  Hexagon_add "g2" (-3, 2)%Z MAIN false None ;;
  Hexagon_add "g3" (-2, 2)%Z INNER false None ;;
  Hexagon_add "g4" (-1, 2)%Z INNER false None ;;
  Hexagon_add "g5" (0, 2)%Z INNER false None ;;
  Hexagon_add "g6" (1, 2)%Z MAIN false None ;;
  Hexagon_add "g7" (2, 2)%Z OUTER false None ;;
  (* Row "h" *)
  Hexagon_add "h" (-6, 3)%Z EXTRA true
    (Some ((- 0.25 * HEXA_WIDTH) *: UNIT_X)%vec) ;;
  Hexagon_add "h1" (-5, 3)%Z OUTER false None ;;
  Hexagon_add "h2" (-4, 3)%Z MAIN false None ;;
  Hexagon_add "h3" (-3, 3)%Z MAIN false None ;;
  Hexagon_add "h4" (-2, 3)%Z MAIN false None ;;
  Hexagon_add "h5" (-1, 3)%Z MAIN false None ;;
  Hexagon_add "h6" (0, 3)%Z MAIN false None ;;
  Hexagon_add "h7" (1, 3)%Z MAIN false None ;;
  Hexagon_add "h8" (2, 3)%Z OUTER false None ;;
  (* Row "i" *)
  Hexagon_add "i" (-6, 4)%Z EXTRA true
    (Some ((- 0.75 * HEXA_WIDTH) *: UNIT_X + HEXA_DELTA_Y *: UNIT_Y)%vec) ;;
  Hexagon_add "i1" (-5, 4)%Z OUTER false None ;;
  Hexagon_add "i2" (-4, 4)%Z OUTER false None ;;
  Hexagon_add "i3" (-3, 4)%Z OUTER false None ;;
  Hexagon_add "i4" (-2, 4)%Z OUTER false None ;;
  Hexagon_add "i5" (-1, 4)%Z OUTER false None ;;
  Hexagon_add "i6" (0, 4)%Z OUTER false None ;;
  Hexagon_add "i7" (1, 4)%Z OUTER false None.

(** [Hexagon.alls] once the module is loaded: the script run on the empty
    dict of the class body. *)
Definition Hexagon_alls : gmap string Hexagon := snd (Hexagon_alls_script ∅).

(** ** The abstract state of the board *)

(** The value stored at a label is the two-element list
    [[bottom, top]]; each element is [None] or a colored cube type. *)
Abbreviation Stack := (list (option ColoredType)).

(** [d[key]] for a dict [d] *)
Definition getitem {S A} (d : gmap string A) (key : string) : M S A :=
  match d !! key with
  | Some a => ret a
  | None => raise (KeyError key)
  end.

(** [l[i]] for a list [l] and an index [i >= 0] *)
Definition list_getitem {S A} (l : list A) (i : nat) : M S A :=
  match l !! i with
  | Some a => ret a
  | None => raise IndexError
  end.

(** [STATE[key][i] = value] *)
Definition setitem2 (key : string) (i : nat) (value : option ColoredType) :
    M (gmap string Stack) unit :=
  STATE <- get ;;
  stack <- getitem STATE key ;;
  _ <- list_getitem stack i ;;
  put (<[key := <[i := value]> stack]> STATE).

(** [reset_state] *)
Definition reset_state (alls : gmap string Hexagon) : M (gmap string Stack) unit :=
  fun STATE =>
    (Ok tt,
     map_fold (fun _ hexagon STATE => <[label hexagon := [None; None]]> STATE)
       STATE alls).

(** [set_cube_at_position] *)
Definition set_cube_at_position (alls : gmap string Hexagon)
    (position_label cube_label : string) : M (gmap string Stack) unit :=
  jersi_assert (contains alls position_label)
    ("no hexagon at label '" ++ position_label ++ "'") ;;
  jersi_assert (contains alls position_label)
    ("no cube colored type '" ++ cube_label ++ "'") ;;
  STATE <- get ;;
  stack <- getitem STATE position_label ;;
  bottom <- list_getitem stack 0 ;;
  if negb (is_not_None bottom) then
    cube <- getitem CUBE_COLORED_TYPES cube_label ;;
    setitem2 position_label 0 (Some cube)
  else
    top <- list_getitem stack 1 ;;
    if negb (is_not_None top) then
      cube <- getitem CUBE_COLORED_TYPES cube_label ;;
      setitem2 position_label 1 (Some cube)
    else
      raise (TypeError "exceptions must derive from BaseException").

(** [init_state] *)
Definition init_state (alls : gmap string Hexagon) : M (gmap string Stack) unit :=
  reset_state alls ;;
  (* whites *)
  set_cube_at_position alls "b1" "F" ;;
  set_cube_at_position alls "b8" "F" ;;
  set_cube_at_position alls "a4" "K" ;;
  set_cube_at_position alls "b2" "R" ;;
  set_cube_at_position alls "b3" "P" ;;
  set_cube_at_position alls "b4" "S" ;;
  set_cube_at_position alls "b5" "R" ;;
  set_cube_at_position alls "b6" "P" ;;
  set_cube_at_position alls "b7" "S" ;;
  set_cube_at_position alls "a3" "R" ;;
  set_cube_at_position alls "a2" "S" ;;
  set_cube_at_position alls "a1" "P" ;;
  set_cube_at_position alls "a5" "S" ;;
  set_cube_at_position alls "a6" "R" ;;
  set_cube_at_position alls "a7" "P" ;;
  (* blacks *)
  set_cube_at_position alls "h1" "f" ;;
  set_cube_at_position alls "h8" "f" ;;
  set_cube_at_position alls "i4" "k" ;;
  set_cube_at_position alls "h7" "r" ;;
  set_cube_at_position alls "h6" "p" ;;
  set_cube_at_position alls "h5" "s" ;;
  set_cube_at_position alls "h4" "r" ;;
  set_cube_at_position alls "h3" "p" ;;
  set_cube_at_position alls "h2" "s" ;;
  set_cube_at_position alls "i5" "r" ;;
  set_cube_at_position alls "i6" "s" ;;
  set_cube_at_position alls "i7" "p" ;;
  set_cube_at_position alls "i3" "s" ;;
  set_cube_at_position alls "i2" "r" ;;
  set_cube_at_position alls "i1" "p" ;;
  (* white reserve *)
  set_cube_at_position alls "c" "W" ;;
  set_cube_at_position alls "c" "W" ;;
  set_cube_at_position alls "b" "M" ;;
  set_cube_at_position alls "b" "M" ;;
  set_cube_at_position alls "a" "M" ;;
  set_cube_at_position alls "a" "M" ;;
  (* black reserve *)
  set_cube_at_position alls "i" "m" ;;
  set_cube_at_position alls "i" "m" ;;
  set_cube_at_position alls "h" "m" ;;
  set_cube_at_position alls "h" "m" ;;
  set_cube_at_position alls "g" "w" ;;
  set_cube_at_position alls "g" "w".

(** ** Regular expressions

    The patterns of [read_state_file] use character classes, sequence,
    alternation, [*] and [?] only, so [re.match] on an anchored pattern
    decides membership in a regular language.  The matcher below works by
    derivatives. *)

Inductive regex : Type :=
| Empty
| Eps
| Class (p : ascii -> bool)
| Seq (r1 r2 : regex)
| Alt (r1 r2 : regex)
| Star (r : regex).

Definition Opt (r : regex) : regex := Alt r Eps.

Fixpoint nullable (r : regex) : bool :=
  match r with
  | Empty => false
  | Eps => true
  | Class _ => false
  | Seq r1 r2 => nullable r1 && nullable r2
  | Alt r1 r2 => nullable r1 || nullable r2
  | Star _ => true
  end.

Fixpoint deriv (c : ascii) (r : regex) : regex :=
  match r with
  | Empty => Empty
  | Eps => Empty
  | Class p => if p c then Eps else Empty
  | Seq r1 r2 =>
      if nullable r1 then Alt (Seq (deriv c r1) r2) (deriv c r2)
      else Seq (deriv c r1) r2
  | Alt r1 r2 => Alt (deriv c r1) (deriv c r2)
  | Star r1 => Seq (deriv c r1) (Star r1)
  end.

(** The whole of [s] is a word of [r]. *)
Fixpoint matches (r : regex) (s : string) : bool :=
  match s with
  | EmptyString => nullable r
  | String c s' => matches (deriv c r) s'
  end.

Definition LF : ascii := "010"%char.

(** [s] without its last character when that is a newline *)
Fixpoint chop_newline (s : string) : option string :=
  match s with
  | EmptyString => None
  | String c EmptyString => if Ascii.eqb c LF then Some EmptyString else None
  | String c s' => String c <$> chop_newline s'
  end.

(** [re.match('^r$', s) is not None]: [$] stands at the end of the string
    or just before a newline that ends it. *)
Definition re_match (r : regex) (s : string) : bool :=
  matches r s ||
  match chop_newline s with
  | Some s' => matches r s'
  | None => false
  end.

(** Character classes *)

Definition char_in (chars : string) (c : ascii) : bool :=
  existsb (Ascii.eqb c) (list_ascii_of_string chars).

Definition char_between (lo hi : ascii) (c : ascii) : bool :=
  (N_of_ascii lo <=? N_of_ascii c)%N && (N_of_ascii c <=? N_of_ascii hi)%N.

(** [\s] on a [str] pattern: the characters [c] with [c.isspace()], here
    those below 256. *)
Definition is_space (c : ascii) : bool :=
  let n := N_of_ascii c in
  ((9 <=? n) && (n <=? 13) || (28 <=? n) && (n <=? 32)
   || (n =? 133) || (n =? 160))%N.

(** [.] : any character but a newline *)
Definition is_dot (c : ascii) : bool := negb (Ascii.eqb c LF).

(** [r'^\s*$'] *)
Definition BLANK_LINE : regex := Star (Class is_space).

(** [r'^\s*#.*$'] *)
Definition COMMENT_LINE : regex :=
  Seq (Star (Class is_space)) (Seq (Class (char_in "#")) (Star (Class is_dot))).

(** [r'^([KFRPSMW]|[kfrpsmw]):[a-i][1-9]?$'] *)
Definition ITEM : regex :=
  Seq (Alt (Class (char_in "KFRPSMW")) (Class (char_in "kfrpsmw")))
    (Seq (Class (char_in ":"))
       (Seq (Class (char_between "a" "i")) (Opt (Class (char_between "1" "9"))))).

(** [re.sub(r'\s', '', line)] *)
Fixpoint remove_spaces (line : string) : string :=
  match line with
  | EmptyString => EmptyString
  | String c line' =>
      if is_space c then remove_spaces line' else String c (remove_spaces line')
  end.

(** [re.split(sep, s)] for a pattern that is the single character [sep] *)
Fixpoint re_split (sep : ascii) (s : string) : list string :=
  match s with
  | EmptyString => [EmptyString]
  | String c s' =>
      if Ascii.eqb c sep then EmptyString :: re_split sep s'
      else
        match re_split sep s' with
        | [] => [String c EmptyString]
        | piece :: pieces => String c piece :: pieces
        end
  end.

(** The lines a text file yields when iterated: each keeps its newline;
    the last one has none when the text does not end with one.  The text is
    the one Python hands over, line ends already translated to a
    newline. *)
Fixpoint readlines (text : string) : list string :=
  match text with
  | EmptyString => []
  | String c text' =>
      if Ascii.eqb c LF then String c EmptyString :: readlines text'
      else
        match readlines text' with
        | [] => [String c EmptyString]
        | line :: lines => String c line :: lines
        end
  end.

(** ** Reading a state file *)

(** The inner loop of [read_state_file], over the items of one line:
    [line] is the line with its spaces removed. *)
Fixpoint read_items {S} (line : string) (items : list string)
    (instructions : list (list string)) : M S (list (list string)) :=
  match items with
  | [] => ret instructions
  | item :: items' =>
      if re_match ITEM item then
        read_items line items' (instructions ++ [re_split ":" item])%list
      else
        raise (JersiError ("wrong item '" ++ item ++ "' in line '" ++ line ++ "'"))
  end.

(** The outer loop of [read_state_file], over the lines of the file *)
Fixpoint read_lines {S} (lines : list string)
    (instructions : list (list string)) : M S (list (list string)) :=
  match lines with
  | [] => ret instructions
  | line :: lines' =>
      if re_match BLANK_LINE line then read_lines lines' instructions
      else if re_match COMMENT_LINE line then read_lines lines' instructions
      else
        let line := remove_spaces line in
        instructions <- read_items line (re_split "/" line) instructions ;;
        read_lines lines' instructions
  end.

(** [for (cube_label, position_label) in instructions: ...]: the
    unpacking of an element that has not two parts raises. *)
Definition apply_instruction (alls : gmap string Hexagon)
    (instruction : list string) : M (gmap string Stack) unit :=
  match instruction with
  | [cube_label; position_label] =>
      set_cube_at_position alls position_label cube_label
  | _ => raise ValueError
  end.

(** [read_state_file], on the text of the file.  [file_is_valid] is
    still [True] whenever the loop over the lines ends without raising. *)
Definition read_state_file (alls : gmap string Hexagon) (text : string) :
    M (gmap string Stack) unit :=
  reset_state alls ;;
  instructions <- read_lines (readlines text) [] ;;
  let file_is_valid := true in
  if file_is_valid then for_each instructions (apply_instruction alls)
  else ret tt.

(** ** Drawing: the centre of a hexagon and the cubes of a position *)

(** [hexagon_center] as [draw_hexagon] computes it from its arguments *)
Definition draw_hexagon_center (position_uv : Z * Z)
    (extra_shift : option TinyVector) : TinyVector :=
  let '(u, v) := position_uv in
  let hexagon_center :=
    (ORIGIN + HEXA_WIDTH *: (IZR u *: UNIT_U + IZR v *: UNIT_V))%vec in
  match extra_shift with
  | Some shift => (hexagon_center + shift)%vec
  | None => hexagon_center
  end.

(** [hexagon_center] as [draw_cube] computes it from the hexagon found at
    [key] *)
Definition draw_cube_center (hexagon : Hexagon) : TinyVector :=
  let '(u, v) := position_uv hexagon in
  let hexagon_center :=
    (ORIGIN + HEXA_WIDTH *: (IZR u *: UNIT_U + IZR v *: UNIT_V))%vec in
  match extra_shift hexagon with
  | Some shift => (hexagon_center + shift)%vec
  | None => hexagon_center
  end.

(** A call [draw_cube(canvas, key, config, color, cube_type)] *)
Record draw_cube_call : Type := mkDrawCube {
  dc_key : string;
  dc_config : CubeConfig;
  dc_color : CubeColor;
  dc_cube_type : CubeType
}.

(** [(cube_type, cube_color) = x]: unpacking [None] raises. *)
Definition unpack {S} (x : option ColoredType) : M S ColoredType :=
  match x with
  | Some cube => ret cube
  | None => raise (TypeError "cannot unpack non-iterable NoneType object")
  end.

(** The canvas, as far as the cubes go: the calls to [draw_cube] made
    since it was last cleared, oldest first.  The body of [draw_cube] (the
    rectangle and the face of the cube) is not followed: a call is
    recorded with its arguments. *)
Definition draw_cube (key : string) (config : CubeConfig) (color : CubeColor)
    (cube_type : CubeType) : M (list draw_cube_call) unit :=
  fun canvas => (Ok tt, (canvas ++ [mkDrawCube key config color cube_type])%list).

(** The body of the loop of [draw_state] for one entry of [STATE] *)
Definition draw_position (position_label : string) (position_state : Stack) :
    M (list draw_cube_call) unit :=
  top <- list_getitem position_state 1 ;;
  if is_not_None top then
    cube <- unpack top ;;
    draw_cube position_label TOP (snd cube) (fst cube) ;;
    bottom <- list_getitem position_state 0 ;;
    cube <- unpack bottom ;;
    draw_cube position_label BOTTOM (snd cube) (fst cube)
  else
    bottom <- list_getitem position_state 0 ;;
    if is_not_None bottom then
      cube <- unpack bottom ;;
      draw_cube position_label SINGLE (snd cube) (fst cube)
    else ret tt.

(** [draw_state]: the canvas is cleared, then every entry of [STATE] is
    drawn.  The hexagons drawn in between are left out of the canvas of
    the model, and the entries come in the order of [map_to_list]. *)
Definition draw_state (STATE : gmap string Stack) : M (list draw_cube_call) unit :=
  (fun _ => (Ok tt, [])) ;;
  for_each (map_to_list STATE)
    (fun '(position_label, position_state) =>
       draw_position position_label position_state).

(** What the window shows and holds: the state, the canvas and the text
    of the log line *)
Record Gui : Type := mkGui {
  STATE : gmap string Stack;
  canvas : list draw_cube_call;
  log_variable : string
}.

(** [read_file], on the text of [JERSI_STATE_FILE]: the handlers catch
    every exception, the first one the errors of the program. *)
Definition read_file (alls : gmap string Hexagon) (text : string) (gui : Gui) : Gui :=
  let gui := mkGui (STATE gui) (canvas gui) "Reading ..." in
  match read_state_file alls text (STATE gui) with
  | (Ok _, STATE') =>
      match draw_state STATE' (canvas gui) with
      | (Ok _, canvas') => mkGui STATE' canvas' "Read done"
      | (Raise (JersiError message), canvas') =>
          mkGui STATE' canvas' ("Read failed: " ++ message ++ " !!!")
      | (Raise _, canvas') => mkGui STATE' canvas' "Read failed !!!"
      end
  | (Raise (JersiError message), STATE') =>
      mkGui STATE' (canvas gui) ("Read failed: " ++ message ++ " !!!")
  | (Raise _, STATE') => mkGui STATE' (canvas gui) "Read failed !!!"
  end.

(** [str.lower] and [str.upper], on the unaccented letters *)
Definition char_lower (c : ascii) : ascii :=
  if char_between "A" "Z" c then ascii_of_N (N_of_ascii c + 32) else c.

Definition char_upper (c : ascii) : ascii :=
  if char_between "a" "z" c then ascii_of_N (N_of_ascii c - 32) else c.

Fixpoint str_map (f : ascii -> ascii) (s : string) : string :=
  match s with
  | EmptyString => EmptyString
  | String c s' => String (f c) (str_map f s')
  end.

(** The text [draw_cube] writes on a cube when faces are not drawn:
    [str_transformation(cube_type.value)] *)
Definition face_text (color : CubeColor) (cube_type : CubeType) : string :=
  match color with
  | BLACK => str_map char_lower (CubeType_value cube_type)
  | WHITE => str_map char_upper (CubeType_value cube_type)
  end.

(** ** Observations on a state, used to state the properties *)

(** The cubes of a stack, bottom first *)
Definition stack_cubes (stack : Stack) : list ColoredType :=
  omap (fun slot => slot) stack.

(** The cubes of a state with the label they stand on *)
Definition cubes_of (STATE : gmap string Stack) : list (string * ColoredType) :=
  '(position_label, stack) ← map_to_list STATE;
  cube ← stack_cubes stack;
  [(position_label, cube)].

(** The number of cubes in a stack *)
Definition stack_height (stack : Stack) : nat := length (stack_cubes stack).

(** The labels whose stack holds exactly [n] cubes *)
Definition labels_of_height (n : nat) (STATE : gmap string Stack) : list string :=
  (map_to_list (filter (fun '(_, stack) => stack_height stack = n) STATE)).*1.

(** Every hexagon is registered under its own label. *)
Definition labels_consistent (alls : gmap string Hexagon) : Prop :=
  map_Forall (fun key hexagon => label hexagon = key) alls.

(** A stack as [reset_state] and [set_cube_at_position] leave it: two
    slots, the top one free unless the bottom one is taken. *)
Definition stack_ok (stack : Stack) : Prop :=
  match stack with
  | [_; None] => True
  | [Some _; Some _] => True
  | _ => False
  end.

(** [placed alls STATE STATE']: successful calls of
    [set_cube_at_position] lead from [STATE] to [STATE']. *)
Inductive placed (alls : gmap string Hexagon) :
    gmap string Stack -> gmap string Stack -> Prop :=
| placed_refl STATE : placed alls STATE STATE
| placed_step STATE STATE' STATE'' position_label cube_label :
    placed alls STATE STATE' ->
    set_cube_at_position alls position_label cube_label STATE' = (Ok tt, STATE'') ->
    placed alls STATE STATE''.

(** The rotation of the plane by [angle], counter-clockwise when the
    second coordinate grows upwards *)
Definition rotate (angle : R) (a : TinyVector) : TinyVector :=
  mkTinyVector (cos angle * vx a - sin angle * vy a)
               (sin angle * vx a + cos angle * vy a).

(** The mirror image across the first axis *)
Definition flip_y (a : TinyVector) : TinyVector := mkTinyVector (vx a) (- vy a).

(** The text of a file from its lines, each followed by a newline *)
Definition text_of_lines (lines : list string) : string :=
  foldr (fun line text => line ++ String LF text) "" lines.

(** A line that is neither blank nor a comment, as [read_state_file]
    tells them apart *)
Definition is_significant (line : string) : bool :=
  negb (re_match BLANK_LINE line) && negb (re_match COMMENT_LINE line).

(** The items of a line: spaces removed, then split at the slashes *)
Definition items_of (line : string) : list string :=
  re_split "/" (remove_spaces line).

(** All the items of a line pass the pattern, or the line is skipped. *)
Definition line_ok (line : string) : bool :=
  negb (is_significant line) || forallb (re_match ITEM) (items_of line).

(** The instructions a well-formed line contributes *)
Definition line_instructions (line : string) : list (list string) :=
  if is_significant line then re_split ":" <$> items_of line else [].

(** The instructions of a text, or the exception of the first item that
    does not pass: the loop over the lines does not use the state. *)
Definition parse_instructions (text : string) : result (list (list string)) :=
  fst (read_lines (readlines text) [] tt).

(** Two white wise cubes pushed on the reserve ["c"] of the empty board *)
Definition two_on_c : M (gmap string Stack) unit :=
  reset_state Hexagon_alls ;;
  set_cube_at_position Hexagon_alls "c" "W" ;;
  set_cube_at_position Hexagon_alls "c" "W".

(** Whether the hexagon registered at a label is a reserve *)
Definition is_reserve (alls : gmap string Hexagon) (position_label : string) : bool :=
  match alls !! position_label with
  | Some hexagon => is_extra hexagon
  | None => false
  end.

(** The number of cubes of a color that stand on the reserves, or on the
    other hexagons *)
Definition count_cubes (alls : gmap string Hexagon) (reserve : bool)
    (color : CubeColor) (STATE : gmap string Stack) : nat :=
  length (filter (fun '(position_label, cube) =>
                    is_reserve alls position_label = reserve /\ snd cube = color)
                 (cubes_of STATE)).

(** The state once the text ["K:a4"] is loaded: the white king alone *)
Definition king_on_a4 : gmap string Stack :=
  snd (read_state_file Hexagon_alls (text_of_lines ["K:a4"]) ∅).

(** The state [init_state] leaves when the program starts *)
Definition initial_position : gmap string Stack :=
  snd (init_state Hexagon_alls ∅).

(** What the text of an error the caller reports is *)
Definition failure_log (e : exception) : string :=
  match e with
  | JersiError message => "Read failed: " ++ message ++ " !!!"
  | _ => "Read failed !!!"
  end.

(** The form of an item in the words of the grammar: a cube code, a
    colon, a row letter from [a] to [i], and at most one digit from [1] to
    [9] *)
Definition is_token (item : string) : Prop :=
  exists code row column,
    item = String code (String ":" (String row column)) /\
    In code (list_ascii_of_string "KFRPSMWkfrpsmw") /\
    In row (list_ascii_of_string "abcdefghi") /\
    (column = "" \/
     exists digit, column = String digit "" /\
                   In digit (list_ascii_of_string "123456789")).

(** A string without spaces, as the items of a line are *)
Definition no_space (s : string) : bool :=
  forallb (fun c => negb (is_space c)) (list_ascii_of_string s).

(** ** Further observations on texts and registries *)

(** The first character of a line that is not a space *)
Fixpoint first_non_space (line : string) : option ascii :=
  match line with
  | EmptyString => None
  | String c line' => if is_space c then first_non_space line' else Some c
  end.

(** The items of a text in file order: those of its lines that are
    neither blank nor comments *)
Definition tokens_of (text : string) : list string :=
  concat ((fun line => if is_significant line then items_of line else [])
            <$> readlines text).

(** The two parts of a token: the code before the colon and the position
    after it *)
Definition token_code (token : string) : string :=
  match token with
  | String c _ => String c ""
  | EmptyString => ""
  end.

Definition token_position (token : string) : string :=
  match token with
  | String _ (String _ position_label) => position_label
  | _ => ""
  end.

(** The cubes that the tokens of a list put on a label, in the order of
    the list *)
Definition cubes_at (position_label : string) (tokens : list string) :
    list ColoredType :=
  omap (fun token =>
          if String.eqb (token_position token) position_label
          then CUBE_COLORED_TYPES !! token_code token
          else None) tokens.

(** The two-slot list that holds the cubes of a stack, bottom first *)
Definition slots_of (cubes : list ColoredType) : Stack :=
  match cubes with
  | [] => [None; None]
  | [bottom] => [Some bottom; None]
  | bottom :: top :: _ => [Some bottom; Some top]
  end.

(** A sequence of calls of [Hexagon.add], one for each hexagon of a list,
    with the fields of the hexagon as arguments *)
Definition Hexagon_add_all (hexagons : list Hexagon) : M (gmap string Hexagon) unit :=
  for_each hexagons
    (fun hexagon =>
       Hexagon_add (label hexagon) (position_uv hexagon) (color hexagon)
         (is_extra hexagon) (extra_shift hexagon)).

(** A line of a text file: characters other than the newline, and at
    most one newline to end it *)
Definition one_line (line : string) : Prop :=
  exists body tail,
    line = body ++ tail /\
    forallb is_dot (list_ascii_of_string body) = true /\
    (tail = "" \/ tail = String LF "").

(** The state after the tokens [done] have been applied to the empty
    board: a registered label holds the cubes the tokens put on it. *)
Definition holds_cubes_of (alls : gmap string Hexagon) (done : list string)
    (STATE : gmap string Stack) : Prop :=
  forall position_label,
    contains alls position_label = true ->
    STATE !! position_label = Some (slots_of (cubes_at position_label done)) /\
    length (cubes_at position_label done) <= 2.

(** The states of the program: [STATE] is the empty dict when the module
    is loaded, and [reset_state] and [set_cube_at_position] are the only
    functions that write to it; a call that raises leaves what it had
    written. *)
Inductive program_state (alls : gmap string Hexagon) : gmap string Stack -> Prop :=
| program_start : program_state alls ∅
| program_reset STATE :
    program_state alls STATE ->
    program_state alls (snd (reset_state alls STATE))
| program_set STATE position_label cube_label :
    program_state alls STATE ->
    program_state alls (snd (set_cube_at_position alls position_label cube_label STATE)).

(** The part of the pattern of an item that follows the colon:
    [[a-i][1-9]?] *)
Definition POSITION : regex :=
  Seq (Class (char_between "a" "i")) (Opt (Class (char_between "1" "9"))).

(** The positions that the pattern of an item accepts and the layout of
    the program does not have *)
Definition positions_off_board : list string :=
  ["a8"; "a9"; "b9"; "c8"; "c9"; "d"; "d9"; "e"; "f"; "f9";
   "g8"; "g9"; "h9"; "i8"; "i9"].



(** ** The vertices of the hexagons and of the cubes *)

Definition CUBE_VERTEX_COUNT : Z := 4.
Definition CUBE_SIDE_ANGLE : R := (PI / 2)%R.

(** The vertex that the loop of [draw_hexagon] computes for
    [vertex_index], around [hexagon_center] *)
Definition hexagon_vertex (hexagon_center : TinyVector) (vertex_index : Z) :
    TinyVector :=
  let vertex_angle := ((1 / 2 + IZR vertex_index) * HEXA_SIDE_ANGLE)%R in
  let hexagon_vertex := hexagon_center in
  let hexagon_vertex :=
    (hexagon_vertex + (HEXA_SIDE * cos vertex_angle) *: UNIT_X)%vec in
  let hexagon_vertex :=
    (hexagon_vertex + (HEXA_SIDE * sin vertex_angle) *: UNIT_Y)%vec in
  hexagon_vertex.

(** [label_position], computed by [draw_hexagon] at the vertex of index 3 *)
Definition label_position (hexagon_center : TinyVector) : TinyVector :=
  (hexagon_vertex hexagon_center 3 +
   (0.25 * HEXA_SIDE) *: (UNIT_X + 0.75 *: UNIT_Y))%vec.

(** [cube_center] in [draw_cube], from the centre of the hexagon and the
    place of the cube in the stack *)
Definition cube_center (config : CubeConfig) (hexagon_center : TinyVector) :
    TinyVector :=
  match config with
  | SINGLE => hexagon_center
  | BOTTOM => (hexagon_center - (0.40 * HEXA_SIDE) *: UNIT_Y)%vec
  | TOP => (hexagon_center + (0.40 * HEXA_SIDE) *: UNIT_Y)%vec
  end.

(** The vertex that the loop of [draw_cube] appends to [cube_vertices] for
    [vertex_index] *)
Definition cube_vertex (cube_center : TinyVector) (vertex_index : Z) : TinyVector :=
  let vertex_angle := ((1 / 2 + IZR vertex_index) * CUBE_SIDE_ANGLE)%R in
  let cube_vertex := cube_center in
  let cube_vertex :=
    (cube_vertex + (0.5 * HEXA_SIDE * cos vertex_angle) *: UNIT_X)%vec in
  let cube_vertex :=
    (cube_vertex + (0.5 * HEXA_SIDE * sin vertex_angle) *: UNIT_Y)%vec in
  cube_vertex.

(** [cube_vertices] at the end of the loop of [draw_cube] *)
Definition cube_vertices (cube_center : TinyVector) : list TinyVector :=
  cube_vertex cube_center <$> [0; 1; 2; 3]%Z.

(** Half the side of the square of a cube *)
Definition cube_half_side : R := (0.5 * HEXA_SIDE * (1 / sqrt 2))%R.

(** The open hexagon of width [HEXA_WIDTH] and side [HEXA_SIDE] around a
    centre, two of its sides upright *)
Definition inside_hexagon (hexagon_center point : TinyVector) : Prop :=
  (Rabs (vx point - vx hexagon_center) < HEXA_WIDTH / 2 /\
   Rabs (vy point - vy hexagon_center) +
     Rabs (vx point - vx hexagon_center) / sqrt 3 < HEXA_SIDE)%R.

(** [TinyVector.norm] *)
Definition TinyVector_norm (that : TinyVector) : R :=
  sqrt (vx that * vx that + vy that * vy that)%R.

(** ** The faces of the cubes *)

(** [__truediv__] of a [TinyVector] by a number *)
Definition TinyVector_truediv (a : TinyVector) (other : R) : TinyVector :=
  mkTinyVector (vx a / other) (vy a / other).

(** [int(x)] of a float: its integer part, towards zero *)
Definition int_of_float (x : R) : Z :=
  if Rle_dec 0 x then Int_part x else (- Int_part (- x))%Z.

Definition FONT_LABEL_SIZE : Z := int_of_float (0.30 * HEXA_SIDE).
Definition FONT_FACE_SIZE : Z := int_of_float (0.50 * HEXA_SIDE).

Definition CUBE_LINE_WIDTH : Z := int_of_float (0.05 * HEXA_SIDE).
Definition HEXA_LINE_WIDTH : Z := int_of_float (0.02 * HEXA_SIDE).

(** [rotate_90_degrees], local to [draw_fool_face] *)
Definition rotate_90_degrees (vector : TinyVector) : TinyVector :=
  let projection_x := TinyVector.inner vector UNIT_X in
  let projection_y := TinyVector.inner vector UNIT_Y in
  let rotated_unit_x := UNIT_Y in
  let rotated_unit_y := TinyVector.neg UNIT_X in
  (projection_x *: rotated_unit_x + projection_y *: rotated_unit_y)%vec.

(** [square_for_circle_by_two_points], local to [draw_fool_face] *)
Definition square_for_circle_by_two_points (point_1 point_2 : TinyVector) :
    TinyVector * TinyVector :=
  let square_center := (0.5 *: (point_1 + point_2))%vec in
  let square_point_1 :=
    (point_1 + rotate_90_degrees (point_1 - square_center))%vec in
  let square_point_2 :=
    (point_2 + rotate_90_degrees (point_2 - square_center))%vec in
  (square_point_1, square_point_2).

(** [0.5*cube_center + 0.5*cube_vertices[k]], the point that every drawer
    of a face computes for k = 0 (NE), 1 (NW), 2 (SW) and 3 (SE); [None]
    stands for the IndexError of a list that is too short. *)
Definition face_vertex (cube_center : TinyVector)
    (cube_vertices : list TinyVector) (k : nat) : option TinyVector :=
  (fun cube_vertex => (0.5 *: cube_center + 0.5 *: cube_vertex)%vec)
    <$> cube_vertices !! k.

(** The pairs of points that [draw_fool_face] hands over to
    [square_for_circle_by_two_points], in the order of the calls: four
    arcs, then the two small discs at the ends of the spiral *)
Definition fool_face_circles (cube_center : TinyVector)
    (cube_vertices : list TinyVector) : option (list (TinyVector * TinyVector)) :=
  face_vertex_NE ← face_vertex cube_center cube_vertices 0;
  face_vertex_NW ← face_vertex cube_center cube_vertices 1;
  face_vertex_SW ← face_vertex cube_center cube_vertices 2;
  face_vertex_SE ← face_vertex cube_center cube_vertices 3;
  let face_vertex_N := (0.5 *: (face_vertex_NW + face_vertex_NE))%vec in
  let face_vertex_S := (0.5 *: (face_vertex_SW + face_vertex_SE))%vec in
  let face_vertex_NC := (0.5 *: (face_vertex_N + cube_center))%vec in
  let face_vertex_SC := (0.5 *: (face_vertex_S + cube_center))%vec in
  let cube_side := TinyVector_norm (face_vertex_NW - face_vertex_NE)%vec in
  let inner_edge_top :=
    (cube_center + (IZR CUBE_LINE_WIDTH * 0.5) *: UNIT_Y)%vec in
  let edge_edge_bottom :=
    (cube_center - (IZR CUBE_LINE_WIDTH * 0.5) *: UNIT_Y)%vec in
  let outer_edge_middle :=
    (cube_center +
     TinyVector_truediv ((cube_side / 2) *: (UNIT_Y - UNIT_X)) (sqrt 2))%vec in
  let outer_edge_top :=
    (outer_edge_middle + (IZR CUBE_LINE_WIDTH * 0.5) *: UNIT_Y)%vec in
  let outer_edge_bottom :=
    (outer_edge_middle - (IZR CUBE_LINE_WIDTH * 0.5) *: UNIT_Y)%vec in
  Some [ (cube_center, face_vertex_SC);
         (face_vertex_NC, face_vertex_SC);
         (face_vertex_NC, face_vertex_S);
         (face_vertex_N, face_vertex_S);
         (inner_edge_top, edge_edge_bottom);
         (outer_edge_top, outer_edge_bottom) ].

(** The two triangles of [draw_pure_mountain_face] *)
Definition pure_mountain_face_polygons (cube_center : TinyVector)
    (cube_vertices : list TinyVector) : option (list (list TinyVector)) :=
  face_vertex_NE ← face_vertex cube_center cube_vertices 0;
  face_vertex_NW ← face_vertex cube_center cube_vertices 1;
  face_vertex_SW ← face_vertex cube_center cube_vertices 2;
  face_vertex_SE ← face_vertex cube_center cube_vertices 3;
  let face_N := (0.5 *: (face_vertex_NW + face_vertex_NE))%vec in
  let face_S := (0.5 *: (face_vertex_SW + face_vertex_SE))%vec in
  let face_W := (0.5 *: (face_vertex_NW + face_vertex_SW))%vec in
  let face_E := (0.5 *: (face_vertex_NE + face_vertex_SE))%vec in
  Some [ [face_N; face_W; face_E]; [face_S; face_W; face_E] ].

(** The point that the loop of [draw_wise_face] appends to [wise_data]
    for [angle_index], as the pair of its coordinates *)
Definition wise_point (cube_center face_vertex_W : TinyVector)
    (angle_index : Z) : R * R :=
  let delta := (vx cube_center - vx face_vertex_W)%R in
  let angle_count := 20%Z in
  let angle_value := (IZR angle_index * 2 * PI / IZR angle_count)%R in
  let angle_sinus := sin angle_value in
  let angle_cosinus := cos angle_value in
  let x := (vx cube_center + delta * angle_cosinus / (1 + angle_sinus ^ 2))%R in
  let y := (vy cube_center +
            delta * angle_cosinus * angle_sinus / (1 + angle_sinus ^ 2))%R in
  (x, y).

(** [face_vertex_W] of [draw_wise_face] *)
Definition wise_face_vertex_W (cube_center : TinyVector)
    (cube_vertices : list TinyVector) : option TinyVector :=
  face_vertex_NE ← face_vertex cube_center cube_vertices 0;
  face_vertex_NW ← face_vertex cube_center cube_vertices 1;
  face_vertex_SW ← face_vertex cube_center cube_vertices 2;
  face_vertex_SE ← face_vertex cube_center cube_vertices 3;
  Some (0.5 *: (face_vertex_NW + face_vertex_SW))%vec.

(** ** The requirements of the conda environment *)

(** The pattern of the lines that [create_conda_environment] passes
    over: spaces, then possibly a hash sign and any characters of the line,
    up to the end *)
Definition SKIPPED_LINE : regex :=
  Seq (Star (Class is_space))
      (Opt (Seq (Class (char_in "#")) (Star (Class is_dot)))).

(** [str.lstrip()], [str.rstrip()] and [str.strip()] without argument *)
Fixpoint lstrip (s : string) : string :=
  match s with
  | EmptyString => EmptyString
  | String c s' => if is_space c then lstrip s' else s
  end.

Fixpoint rstrip (s : string) : string :=
  match s with
  | EmptyString => EmptyString
  | String c s' =>
      match rstrip s' with
      | EmptyString => if is_space c then EmptyString else String c EmptyString
      | String c' s'' => String c (String c' s'')
      end
  end.

Definition strip (s : string) : string := rstrip (lstrip s).

(** The loop of [create_conda_environment] over the lines of the
    requirements file, with [package_spec_list] passed along *)
Fixpoint read_package_specs (lines : list string) (package_spec_list : list string) :
    list string :=
  match lines with
  | [] => package_spec_list
  | line :: lines' =>
      if re_match SKIPPED_LINE line
      then read_package_specs lines' package_spec_list
      else read_package_specs lines' (package_spec_list ++ [strip line])%list
  end.

(** [package_spec_list] at the end of the loop, from the text of the
    file *)
Definition package_spec_list (text : string) : list string :=
  read_package_specs (readlines text) [].

(** A line whose first character that is not a space is not a hash
    sign *)
Definition names_a_package (line : string) : bool :=
  match first_non_space line with
  | None => false
  | Some c => negb (Ascii.eqb c "#")
  end.

(** The last character of a string *)
Fixpoint last_character (s : string) : option ascii :=
  match s with
  | EmptyString => None
  | String c EmptyString => Some c
  | String _ s' => last_character s'
  end.

(** ** The layout on the canvas *)

(** A point of the canvas, which is [CANVAS_WIDTH] wide and
    [CANVAS_HEIGHT] high *)
Definition inside_canvas (point : TinyVector) : Prop :=
  (0 <= vx point <= IZR CANVAS_WIDTH /\ 0 <= vy point <= IZR CANVAS_HEIGHT)%R.

(** The six vertices of the polygon of a registered hexagon *)
Definition hexagon_vertices (hexagon : Hexagon) : list TinyVector :=
  hexagon_vertex (draw_cube_center hexagon) <$> [0; 1; 2; 3; 4; 5]%Z.

(** A computation on the registry keeps a property of all its hexagons. *)
Definition keeps_all (P : Hexagon -> Prop) {A} (c : M (gmap string Hexagon) A) : Prop :=
  forall alls, map_Forall (fun _ => P) alls -> map_Forall (fun _ => P) (snd (c alls)).

(** Two registered hexagons of the board proper have different positions
    on the lattice unless they are the same entry. *)
Definition board_positions_differ (alls : gmap string Hexagon) : bool :=
  bool_decide
    (map_Forall (fun label_1 hexagon_1 =>
       map_Forall (fun label_2 hexagon_2 =>
         label_1 = label_2 \/
         is_extra hexagon_1 = true \/ is_extra hexagon_2 = true \/
         position_uv hexagon_1 <> position_uv hexagon_2) alls) alls).

(** ** The colors of the hexagons *)

(** The digits of ['%x' % n] for an integer that is not negative *)
Definition hex_digits (n : N) : string :=
  HexadecimalString.NilZero.string_of_uint (N.to_hex_uint n).

(** ['%02x' % n] for an integer: at least two characters, the sign of a
    negative integer counted, zeros put before the digits *)
Definition format_02x (n : Z) : string :=
  if (n <? 0)%Z then "-" ++ hex_digits (Z.abs_N n)
  else
    let digits := hex_digits (Z.to_N n) in
    if (String.length digits <? 2)%nat then "0" ++ digits else digits.

(** [rgb_color], on a triple of integers *)
Definition rgb_color (rgb : Z * Z * Z) : string :=
  let '(red, green, blue) := rgb in
  "#" ++ format_02x red ++ format_02x green ++ format_02x blue.

(** The integers from 0 to 255 *)
Definition byte_values : list Z := Z.of_nat <$> seq 0 256.

(** * Properties *)

(** ** The store-passing monad *)

Lemma bind_Ok {S A B} (c : M S A) (k : A -> M S B) s a s' :
  c s = (Ok a, s') -> bind c k s = k a s'.
Proof. unfold bind. intros ->. reflexivity. Qed.

Lemma bind_Raise {S A B} (c : M S A) (k : A -> M S B) s e s' :
  c s = (Raise e, s') -> bind c k s = (Raise e, s').
Proof. unfold bind. intros ->. reflexivity. Qed.

Lemma bind_inv_Ok {S A B} (c : M S A) (k : A -> M S B) s b s'' :
  bind c k s = (Ok b, s'') ->
  exists a s', c s = (Ok a, s') /\ k a s' = (Ok b, s'').
Proof.
  unfold bind. destruct (c s) as [[a|e] s'] eqn:Hc; intros H.
  - exists a, s'. split; [reflexivity | exact H].
  - discriminate H.
Qed.

Lemma for_each_app {S A} (l1 l2 : list A) (body : A -> M S unit) s s' :
  for_each l1 body s = (Ok tt, s') ->
  for_each (l1 ++ l2)%list body s = for_each l2 body s'.
Proof.
  revert s. induction l1 as [|x l1 IH]; intros s H; simpl in *.
  - unfold ret in H. congruence.
  - apply bind_inv_Ok in H as (a & s1 & Hx & Hrest).
    rewrite (bind_Ok _ _ _ _ _ Hx). apply IH. exact Hrest.
Qed.

(** A loop that raises has run a prefix of the list to the end and raised
    in the body of the next element. *)
Lemma for_each_Raise {S A} (l : list A) (body : A -> M S unit) s e s' :
  for_each l body s = (Raise e, s') ->
  exists done x rest s1,
    l = (done ++ x :: rest)%list /\
    for_each done body s = (Ok tt, s1) /\
    body x s1 = (Raise e, s').
Proof.
  revert s. induction l as [|x l IH]; intros s H; simpl in H.
  - discriminate H.
  - unfold bind in H. destruct (body x s) as [[[]|e1] s1] eqn:Hx.
    + destruct (IH _ H) as (done & y & rest & s2 & -> & Hdone & Hy).
      exists (x :: done), y, rest, s2. split; [reflexivity|]. split; [|exact Hy].
      simpl. rewrite (bind_Ok _ _ _ _ _ Hx). exact Hdone.
    + inversion H; subst. exists [], x, l, s. auto.
Qed.

(** ** The registry of hexagons *)

Lemma contains_true {A} (d : gmap string A) key :
  contains d key = true <-> is_Some (d !! key).
Proof.
  unfold contains. destruct (d !! key); simpl; split; intros H;
    try done; try (by eexists); by destruct H.
Qed.

Lemma contains_false {A} (d : gmap string A) key :
  contains d key = false <-> d !! key = None.
Proof. unfold contains. destruct (d !! key); simpl; split; done. Qed.

Lemma Hexagon_add_duplicate label position_uv color is_extra extra_shift alls :
  is_Some (alls !! label) ->
  Hexagon_add label position_uv color is_extra extra_shift alls =
    (Raise (JersiError ("no hexagon with label '" ++ label ++ "'")), alls).
Proof.
  intros H. apply contains_true in H.
  unfold Hexagon_add, bind, get, jersi_assert. rewrite H. reflexivity.
Qed.

Lemma Hexagon_add_fresh label position_uv color is_extra extra_shift alls :
  alls !! label = None ->
  is_extra = is_not_None extra_shift ->
  Hexagon_add label position_uv color is_extra extra_shift alls =
    (Ok tt, <[label := mkHexagon label position_uv color is_extra extra_shift]> alls).
Proof.
  intros H ->. apply contains_false in H.
  unfold Hexagon_add, Hexagon_init, bind, get, put, jersi_assert, ret.
  rewrite H. simpl. rewrite eqb_reflx. reflexivity.
Qed.

Lemma Hexagon_add_inconsistent label position_uv color is_extra extra_shift alls :
  alls !! label = None ->
  is_extra <> is_not_None extra_shift ->
  Hexagon_add label position_uv color is_extra extra_shift alls =
    (Raise (JersiError
       ("is_extra and extra_shift not consisten for label '" ++ label ++ "'")),
     alls).
Proof.
  intros H Hne. apply contains_false in H.
  unfold Hexagon_add, Hexagon_init, bind, get, put, jersi_assert, ret.
  rewrite H. simpl.
  destruct (eqb is_extra (is_not_None extra_shift)) eqn:E; [|reflexivity].
  apply eqb_prop in E. contradiction.
Qed.

(** A successful [Hexagon.add] keeps the registry consistent. *)
Lemma Hexagon_add_consistent label position_uv color is_extra extra_shift alls alls' :
  labels_consistent alls ->
  Hexagon_add label position_uv color is_extra extra_shift alls = (Ok tt, alls') ->
  labels_consistent alls'.
Proof.
  intros Hc Hadd.
  destruct (alls !! label) as [h|] eqn:Hl.
  - rewrite Hexagon_add_duplicate in Hadd by eauto. discriminate.
  - destruct (bool_decide (is_extra = is_not_None extra_shift)) eqn:E.
    + apply bool_decide_eq_true in E.
      rewrite Hexagon_add_fresh in Hadd by assumption.
      inversion Hadd; subst alls'.
      apply map_Forall_insert_2; [reflexivity | exact Hc].
    + apply bool_decide_eq_false in E.
      rewrite Hexagon_add_inconsistent in Hadd by assumption. discriminate.
Qed.

(** The registry of the program: every call of the script succeeds, 75
    hexagons are registered, each under its own label. *)
Lemma Hexagon_alls_loaded :
  Hexagon_alls_script ∅ = (Ok tt, Hexagon_alls) /\ size Hexagon_alls = 75.
Proof. split; vm_compute; reflexivity. Qed.

Lemma Hexagon_alls_consistent : labels_consistent Hexagon_alls.
Proof. apply (bool_decide_unpack _). vm_compute. reflexivity. Qed.

(** C4 (as amended).  [Hexagon.add] raises the duplicate-label error and
    leaves the registry as it is when the label is registered already.  For
    a label that is not registered, it succeeds when [is_extra] tells
    whether [extra_shift] is given: the hexagon is inserted under its label,
    nothing is returned, the registry grows by one and keeps every earlier
    entry, so that no registered label is ever taken twice.  When [is_extra]
    and [extra_shift] disagree, the consistency assertion of the constructor
    raises and the registry is left as it is. *)
Theorem Hexagon_add_registers label position_uv color is_extra extra_shift alls :
  let hexagon := mkHexagon label position_uv color is_extra extra_shift in
  let outcome := Hexagon_add label position_uv color is_extra extra_shift alls in
  match alls !! label with
  | Some _ =>
      outcome = (Raise (JersiError ("no hexagon with label '" ++ label ++ "'")), alls)
  | None =>
      if eqb is_extra (is_not_None extra_shift) then
        outcome = (Ok tt, <[label := hexagon]> alls)
        /\ size (<[label := hexagon]> alls) = S (size alls)
        /\ alls ⊆ <[label := hexagon]> alls
      else
        outcome =
          (Raise (JersiError
             ("is_extra and extra_shift not consisten for label '" ++ label ++ "'")),
           alls)
  end.
Proof.
  intros hexagon outcome. subst outcome.
  destruct (alls !! label) as [h|] eqn:Hl.
  - apply Hexagon_add_duplicate. rewrite Hl. eauto.
  - destruct (eqb is_extra (is_not_None extra_shift)) eqn:E.
    + apply eqb_prop in E. split; [|split].
      * apply Hexagon_add_fresh; assumption.
      * apply map_size_insert_None. exact Hl.
      * apply insert_subseteq. exact Hl.
    + apply Hexagon_add_inconsistent; [exact Hl|].
      intros Heq. rewrite Heq, eqb_reflx in E. discriminate.
Qed.

(** C4, the claim as it stands fails: the label ["d"] is not registered
    in the layout of the program, yet adding a reserve hexagon under it
    without a shift does not succeed. *)
Lemma Hexagon_add_fresh_label_raises :
  Hexagon_alls !! "d" = None /\
  Hexagon_add "d" (5, -1)%Z EXTRA true None Hexagon_alls =
    (Raise (JersiError "is_extra and extra_shift not consisten for label 'd'"),
     Hexagon_alls).
Proof.
  split; [vm_compute; reflexivity|].
  apply Hexagon_add_inconsistent; [vm_compute; reflexivity | discriminate].
Qed.

(** ** The state of the board *)

Lemma reset_state_lookup alls STATE0 key :
  labels_consistent alls ->
  snd (reset_state alls STATE0) !! key =
    if contains alls key then Some [None; None] else STATE0 !! key.
Proof.
  unfold reset_state, labels_consistent. simpl. revert key.
  apply (map_fold_weak_ind
    (fun STATE (m : gmap string Hexagon) =>
       forall key, map_Forall (fun k h => label h = k) m ->
         STATE !! key = if contains m key then Some [None; None] else STATE0 !! key)).
  - intros key _. unfold contains. rewrite lookup_empty. reflexivity.
  - intros i x m r Hi IH key Hc.
    apply map_Forall_insert in Hc as [Hx Hm]; [|exact Hi].
    simpl in Hx. rewrite Hx. unfold contains.
    destruct (decide (i = key)) as [->|Hne].
    + rewrite !lookup_insert_eq. reflexivity.
    + rewrite !lookup_insert_ne by exact Hne. apply IH. exact Hm.
Qed.

Lemma reset_state_Ok alls STATE0 :
  reset_state alls STATE0 = (Ok tt, snd (reset_state alls STATE0)).
Proof. reflexivity. Qed.

(** The three outcomes of [set_cube_at_position] at a registered label
    whose stack has two slots *)

Lemma set_cube_bottom alls STATE position_label cube_label cube top :
  contains alls position_label = true ->
  STATE !! position_label = Some [None; top] ->
  CUBE_COLORED_TYPES !! cube_label = Some cube ->
  set_cube_at_position alls position_label cube_label STATE =
    (Ok tt, <[position_label := [Some cube; top]]> STATE).
Proof.
  intros Hin Hst Hcube.
  unfold set_cube_at_position, setitem2, bind, jersi_assert, get, put, getitem,
    list_getitem, ret.
  rewrite Hin. simpl. rewrite Hst. simpl. rewrite Hcube. simpl.
  rewrite Hst. reflexivity.
Qed.

Lemma set_cube_top alls STATE position_label cube_label cube bottom :
  contains alls position_label = true ->
  STATE !! position_label = Some [Some bottom; None] ->
  CUBE_COLORED_TYPES !! cube_label = Some cube ->
  set_cube_at_position alls position_label cube_label STATE =
    (Ok tt, <[position_label := [Some bottom; Some cube]]> STATE).
Proof.
  intros Hin Hst Hcube.
  unfold set_cube_at_position, setitem2, bind, jersi_assert, get, put, getitem,
    list_getitem, ret.
  rewrite Hin. simpl. rewrite Hst. simpl. rewrite Hcube. simpl.
  rewrite Hst. reflexivity.
Qed.

Lemma set_cube_full alls STATE position_label cube_label bottom top :
  contains alls position_label = true ->
  STATE !! position_label = Some [Some bottom; Some top] ->
  set_cube_at_position alls position_label cube_label STATE =
    (Raise (TypeError "exceptions must derive from BaseException"), STATE).
Proof.
  intros Hin Hst.
  unfold set_cube_at_position, bind, jersi_assert, get, getitem, list_getitem,
    ret, raise.
  rewrite Hin. simpl. rewrite Hst. reflexivity.
Qed.

Lemma set_cube_unknown_label alls STATE position_label cube_label :
  contains alls position_label = false ->
  set_cube_at_position alls position_label cube_label STATE =
    (Raise (JersiError ("no hexagon at label '" ++ position_label ++ "'")), STATE).
Proof.
  intros Hin. unfold set_cube_at_position, bind, jersi_assert, raise.
  rewrite Hin. reflexivity.
Qed.

(** Whatever the outcome, [set_cube_at_position] changes the state at most
    at its label, and only on success. *)
Lemma set_cube_Raise_unchanged alls STATE position_label cube_label e STATE' :
  set_cube_at_position alls position_label cube_label STATE = (Raise e, STATE') ->
  STATE' = STATE.
Proof.
  unfold set_cube_at_position, setitem2, bind, jersi_assert, get, put, getitem,
    list_getitem, ret, raise.
  destruct (contains alls position_label); simpl; [|congruence].
  destruct (STATE !! position_label) as [stack|] eqn:Hst; [|congruence].
  destruct stack as [|bottom stack]; simpl; [congruence|].
  destruct bottom as [b|]; simpl.
  - destruct stack as [|top stack]; simpl; [congruence|].
    destruct top as [t|]; simpl; [congruence|].
    destruct (CUBE_COLORED_TYPES !! cube_label); simpl; [|congruence].
    rewrite Hst. simpl. congruence.
  - destruct (CUBE_COLORED_TYPES !! cube_label); simpl; [|congruence].
    rewrite Hst. simpl. congruence.
Qed.

Lemma set_cube_Ok_inv alls STATE position_label cube_label STATE' :
  set_cube_at_position alls position_label cube_label STATE = (Ok tt, STATE') ->
  contains alls position_label = true /\
  exists cube stack stack',
    CUBE_COLORED_TYPES !! cube_label = Some cube /\
    STATE !! position_label = Some stack /\
    STATE' = <[position_label := stack']> STATE /\
    ((exists rest, stack = None :: rest /\ stack' = Some cube :: rest) \/
     (exists bottom rest, stack = Some bottom :: None :: rest /\
                          stack' = Some bottom :: Some cube :: rest)).
Proof.
  unfold set_cube_at_position, setitem2, bind, jersi_assert, get, put, getitem,
    list_getitem, ret, raise.
  destruct (contains alls position_label); simpl; [|congruence].
  destruct (STATE !! position_label) as [stack|] eqn:Hst; [|congruence].
  destruct stack as [|bottom stack]; simpl; [congruence|].
  destruct bottom as [b|]; simpl.
  - destruct stack as [|top stack]; simpl; [congruence|].
    destruct top as [t|]; simpl; [congruence|].
    destruct (CUBE_COLORED_TYPES !! cube_label) as [cube|]; simpl; [|congruence].
    rewrite Hst. simpl. intros H. inversion H; subst STATE'.
    split; [reflexivity|]. exists cube. eauto 10.
  - destruct (CUBE_COLORED_TYPES !! cube_label) as [cube|]; simpl; [|congruence].
    rewrite Hst. simpl. intros H. inversion H; subst STATE'.
    split; [reflexivity|]. exists cube. eauto 10.
Qed.

(** C1.  The run of the program at the failing input: on the layout of
    the program, after a reset and two pushes of a white wise cube on the
    reserve ["c"], the stack there holds the two cubes; the third push does
    not raise an error of the program with the no-room message: the [raise]
    of the overflow branch is applied to a [str], so that the interpreter
    raises [TypeError].  The state is left as it was.  A file with the
    three pushes makes the caller report a failure without its cause. *)
Theorem third_push_raises_TypeError :
  exists STATE2,
    two_on_c ∅ = (Ok tt, STATE2) /\
    STATE2 !! "c" = Some [Some (WISE, WHITE); Some (WISE, WHITE)] /\
    set_cube_at_position Hexagon_alls "c" "W" STATE2 =
      (Raise (TypeError "exceptions must derive from BaseException"), STATE2) /\
    read_file Hexagon_alls (text_of_lines ["W:c"; "W:c"; "W:c"]) (mkGui ∅ [] "") =
      mkGui STATE2 [] "Read failed !!!".
Proof.
  exists (snd (two_on_c ∅)).
  assert (Hc : snd (two_on_c ∅) !! "c" = Some [Some (WISE, WHITE); Some (WISE, WHITE)])
    by (vm_compute; reflexivity).
  split; [vm_compute; reflexivity|]. split; [exact Hc|]. split.
  - eapply set_cube_full; [vm_compute; reflexivity | exact Hc].
  - vm_compute. reflexivity.
Qed.

(** At a registered label whose stack has a free slot, a push of a known
    cube succeeds and fills the lowest free slot. *)
Lemma set_cube_succeeds alls STATE position_label cube_label cube bottom :
  contains alls position_label = true ->
  STATE !! position_label = Some [bottom; None] ->
  CUBE_COLORED_TYPES !! cube_label = Some cube ->
  set_cube_at_position alls position_label cube_label STATE =
    (Ok tt,
     <[position_label :=
         match bottom with
         | None => [Some cube; None]
         | Some b => [Some b; Some cube]
         end]> STATE).
Proof.
  intros Hin Hst Hcube. destruct bottom as [b|].
  - eapply set_cube_top; eassumption.
  - eapply set_cube_bottom; eassumption.
Qed.

(** ** Stacks fill bottom first *)

Lemma stack_ok_inv stack :
  stack_ok stack ->
  exists bottom top,
    stack = [bottom; top] /\ (is_not_None top = true -> is_not_None bottom = true).
Proof.
  intros H.
  destruct stack as [|[b|] [|[t|] [|x rest]]]; simpl in H; try contradiction.
  all: eexists _, _; split; [reflexivity|]; simpl; intros E;
    try reflexivity; discriminate E.
Qed.

Lemma stack_ok_push (stack stack' : Stack) cube :
  stack_ok stack ->
  (exists rest, stack = None :: rest /\ stack' = Some cube :: rest) \/
  (exists bottom rest, stack = Some bottom :: None :: rest /\
                       stack' = Some bottom :: Some cube :: rest) ->
  stack_ok stack'.
Proof.
  intros Hok [(rest & -> & ->) | (bottom & rest & -> & ->)];
    destruct rest as [|[t|] [|x rest]]; simpl in *;
    try contradiction; exact I.
Qed.

Lemma set_cube_stack_ok alls STATE STATE' position_label cube_label :
  set_cube_at_position alls position_label cube_label STATE = (Ok tt, STATE') ->
  map_Forall (fun _ stack => stack_ok stack) STATE ->
  map_Forall (fun _ stack => stack_ok stack) STATE'.
Proof.
  intros Hset Hok.
  apply set_cube_Ok_inv in Hset
    as (_ & cube & stack & stack' & _ & Hst & -> & Hcases).
  apply map_Forall_insert_2; [|exact Hok].
  eapply stack_ok_push; [exact (Hok _ _ Hst) | exact Hcases].
Qed.

Lemma set_cube_dom alls STATE STATE' position_label cube_label key :
  set_cube_at_position alls position_label cube_label STATE = (Ok tt, STATE') ->
  is_Some (STATE !! key) -> is_Some (STATE' !! key).
Proof.
  intros Hset Hkey.
  apply set_cube_Ok_inv in Hset
    as (_ & cube & stack & stack' & _ & Hst & -> & _).
  destruct (decide (position_label = key)) as [->|Hne].
  - rewrite lookup_insert_eq. eauto.
  - rewrite lookup_insert_ne by exact Hne. exact Hkey.
Qed.

(** The part of the invariant that concerns the registered labels is
    established by [reset_state] and kept by every successful push. *)
Lemma placed_registered_ok alls STATE0 STATE :
  labels_consistent alls ->
  placed alls (snd (reset_state alls STATE0)) STATE ->
  forall position_label, contains alls position_label = true ->
    exists stack, STATE !! position_label = Some stack /\ stack_ok stack.
Proof.
  intros Hc Hplaced.
  remember (snd (reset_state alls STATE0)) as STATE_reset eqn:Hreset.
  induction Hplaced as [STATE|STATE STATE1 STATE2 p c Hp IH Hset].
  - intros position_label Hin. exists [None; None]. subst STATE.
    rewrite reset_state_lookup, Hin by exact Hc. split; [reflexivity | exact I].
  - intros position_label Hin.
    destruct (IH Hreset position_label Hin) as (stack & Hst & Hok).
    apply set_cube_Ok_inv in Hset
      as (_ & cube & stack1 & stack' & _ & Hst1 & -> & Hcases).
    destruct (decide (p = position_label)) as [->|Hne].
    + rewrite lookup_insert_eq. exists stack'. split; [reflexivity|].
      rewrite Hst in Hst1. inversion Hst1; subst stack1.
      eapply stack_ok_push; [exact Hok | exact Hcases].
    + rewrite lookup_insert_ne by exact Hne. eauto.
Qed.

(** On a stack that fills bottom first, the case analysis of
    [draw_state] never unpacks an empty slot. *)
Lemma draw_position_Ok position_label stack canvas :
  stack_ok stack -> fst (draw_position position_label stack canvas) = Ok tt.
Proof.
  intros Hok. apply stack_ok_inv in Hok as (bottom & top & -> & Himp).
  destruct top as [t|], bottom as [b|]; try reflexivity.
  specialize (Himp eq_refl). discriminate.
Qed.

(** C10.  In every state that a reset followed by successful calls of
    [set_cube_at_position] leads to, the stack of a registered label has
    its two slots, and its top slot is occupied only if its bottom slot is;
    hence the case analysis of [draw_state] on that stack goes through
    without unpacking an empty slot. *)
Theorem top_occupied_bottom_occupied alls STATE0 STATE position_label
    (Hconsistent : labels_consistent alls)
    (Hplaced : placed alls (snd (reset_state alls STATE0)) STATE)
    (Hregistered : contains alls position_label = true) :
  exists bottom top,
    STATE !! position_label = Some [bottom; top] /\
    (is_not_None top = true -> is_not_None bottom = true) /\
    forall canvas,
      fst (draw_position position_label [bottom; top] canvas) = Ok tt.
Proof.
  destruct (placed_registered_ok _ _ _ Hconsistent Hplaced _ Hregistered)
    as (stack & Hst & Hok).
  destruct (stack_ok_inv _ Hok) as (bottom & top & -> & Himp).
  exists bottom, top. split; [exact Hst|]. split; [exact Himp|].
  intros canvas. apply draw_position_Ok. exact Hok.
Qed.

Lemma top_occupied_bottom_occupied_witness :
  labels_consistent Hexagon_alls /\
  placed Hexagon_alls (snd (reset_state Hexagon_alls ∅)) (snd (two_on_c ∅)) /\
  contains Hexagon_alls "c" = true /\
  exists bottom top,
    snd (two_on_c ∅) !! "c" = Some [bottom; top] /\
    (is_not_None top = true -> is_not_None bottom = true) /\
    forall canvas, fst (draw_position "c" [bottom; top] canvas) = Ok tt.
Proof.
  assert (Hplaced :
    placed Hexagon_alls (snd (reset_state Hexagon_alls ∅)) (snd (two_on_c ∅))).
  { apply (placed_step _ _
      (snd (set_cube_at_position Hexagon_alls "c" "W"
              (snd (reset_state Hexagon_alls ∅)))) _ "c" "W").
    - apply (placed_step _ _ (snd (reset_state Hexagon_alls ∅)) _ "c" "W").
      + apply placed_refl.
      + vm_compute. reflexivity.
    - vm_compute. reflexivity. }
  split; [exact Hexagon_alls_consistent|].
  split; [exact Hplaced|].
  split; [vm_compute; reflexivity|].
  apply (top_occupied_bottom_occupied Hexagon_alls ∅ (snd (two_on_c ∅)) "c").
  - exact Hexagon_alls_consistent.
  - exact Hplaced.
  - vm_compute. reflexivity.
Defined.

(** ** Strings *)

Lemma append_nil_l (s : string) : "" ++ s = s.
Proof. reflexivity. Qed.

Lemma append_cons c (s1 s2 : string) : String c s1 ++ s2 = String c (s1 ++ s2).
Proof. reflexivity. Qed.

Lemma append_nil_inv (s1 s2 : string) : s1 ++ s2 = "" -> s1 = "" /\ s2 = "".
Proof.
  destruct s1; [rewrite append_nil_l; auto | rewrite append_cons; discriminate].
Qed.

Ltac str_simpl :=
  repeat match goal with
  | H : context [String.append EmptyString _] |- _ => rewrite append_nil_l in H
  | H : context [String.append (String _ _) _] |- _ => rewrite append_cons in H
  | |- context [String.append EmptyString _] => rewrite append_nil_l
  | |- context [String.append (String _ _) _] => rewrite append_cons
  end.

(** ** Regular expressions *)

Lemma matches_Empty s : matches Empty s = false.
Proof. induction s as [|c s IH]; [reflexivity | exact IH]. Qed.

Lemma matches_Eps s : matches Eps s = true <-> s = "".
Proof.
  destruct s as [|c s]; simpl.
  - split; reflexivity.
  - rewrite matches_Empty. split; discriminate.
Qed.

Lemma matches_Alt r1 r2 s :
  matches (Alt r1 r2) s = matches r1 s || matches r2 s.
Proof.
  revert r1 r2. induction s as [|c s IH]; intros r1 r2; simpl;
    [reflexivity | apply IH].
Qed.

Lemma matches_Class p s :
  matches (Class p) s = true <-> exists c, s = String c "" /\ p c = true.
Proof.
  destruct s as [|c s]; simpl.
  - split; [discriminate | intros (c & H & _); discriminate H].
  - destruct (p c) eqn:Hp.
    + rewrite matches_Eps. split.
      * intros ->. eauto.
      * intros (c' & H & _). inversion H. reflexivity.
    + rewrite matches_Empty. split; [discriminate|].
      intros (c' & H & Hp'). inversion H; subst. congruence.
Qed.

Lemma matches_Seq r1 r2 s :
  matches (Seq r1 r2) s = true <->
  exists s1 s2, s = s1 ++ s2 /\ matches r1 s1 = true /\ matches r2 s2 = true.
Proof.
  revert r1. induction s as [|c s IH]; intros r1; simpl.
  - rewrite andb_true_iff. split.
    + intros [H1 H2]. exists "", "". auto.
    + intros (s1 & s2 & H & H1 & H2).
      symmetry in H. apply append_nil_inv in H as [-> ->]. auto.
  - destruct (nullable r1) eqn:Hn.
    + rewrite matches_Alt, orb_true_iff, IH. split.
      * intros [(s1 & s2 & -> & H1 & H2) | H].
        -- exists (String c s1), s2. auto.
        -- exists "", (String c s). auto.
      * intros (s1 & s2 & H & H1 & H2). destruct s1 as [|c1 s1]; str_simpl.
        -- right. subst s2. exact H2.
        -- left. inversion H; subst. eauto.
    + rewrite IH. split.
      * intros (s1 & s2 & -> & H1 & H2). exists (String c s1), s2. auto.
      * intros (s1 & s2 & H & H1 & H2). destruct s1 as [|c1 s1]; str_simpl.
        -- simpl in H1. congruence.
        -- inversion H; subst. eauto.
Qed.

Lemma matches_Class_Seq p r s :
  matches (Seq (Class p) r) s = true <->
  exists c s', s = String c s' /\ p c = true /\ matches r s' = true.
Proof.
  rewrite matches_Seq. split.
  - intros (s1 & s2 & -> & H1 & H2).
    apply matches_Class in H1 as (c & -> & Hp). exists c, s2. auto.
  - intros (c & s' & -> & Hp & H). exists (String c ""), s'.
    split; [reflexivity|]. split; [|exact H].
    apply matches_Class. eauto.
Qed.

Lemma chop_newline_cons c c2 s :
  chop_newline (String c (String c2 s)) = String c <$> chop_newline (String c2 s).
Proof. reflexivity. Qed.

Lemma chop_newline_Some s s' :
  chop_newline s = Some s' <-> s = s' ++ String LF "".
Proof.
  revert s'. induction s as [|c s IH]; intros s'.
  - simpl. split; [discriminate|].
    intros H. symmetry in H. apply append_nil_inv in H as [_ H]. discriminate H.
  - destruct s as [|c2 s].
    + simpl. destruct s' as [|c' s']; str_simpl.
      * destruct (Ascii.eqb_spec c LF) as [->|Hne]; split; intros H;
          try reflexivity; try discriminate H.
        inversion H. contradiction.
      * split; intros H.
        -- destruct (Ascii.eqb c LF); discriminate H.
        -- inversion H as [[Hc Hs]]. symmetry in Hs.
           apply append_nil_inv in Hs as [_ Hs]. discriminate Hs.
    + rewrite chop_newline_cons.
      destruct s' as [|c' s']; str_simpl.
      * split; intros H.
        -- destruct (chop_newline (String c2 s)); discriminate H.
        -- discriminate H.
      * specialize (IH s').
        destruct (chop_newline (String c2 s)) as [t|]; simpl; split; intros H.
        -- inversion H; subst. f_equal. apply IH. reflexivity.
        -- inversion H; subst. f_equal. f_equal.
           apply IH in H2. congruence.
        -- discriminate H.
        -- inversion H. apply IH in H2. discriminate H2.
Qed.

(** What [re.match] accepts for an anchored pattern *)
Lemma re_match_true r s :
  re_match r s = true <->
  matches r s = true \/ exists s', s = s' ++ String LF "" /\ matches r s' = true.
Proof.
  unfold re_match. rewrite orb_true_iff. split.
  - intros [H|H]; [left; exact H|]. right.
    destruct (chop_newline s) as [s'|] eqn:Hs; [|discriminate].
    apply chop_newline_Some in Hs. eauto.
  - intros [H|(s' & Hs & H)]; [left; exact H|]. right.
    apply chop_newline_Some in Hs. rewrite Hs. exact H.
Qed.

(** ** Blank lines and comment lines *)

Lemma append_assoc (s1 s2 s3 : string) : (s1 ++ s2) ++ s3 = s1 ++ (s2 ++ s3).
Proof.
  induction s1 as [|c s1 IH]; str_simpl; [reflexivity | rewrite IH; reflexivity].
Qed.

Lemma list_ascii_of_string_append (s1 s2 : string) :
  list_ascii_of_string (s1 ++ s2) =
    (list_ascii_of_string s1 ++ list_ascii_of_string s2)%list.
Proof.
  induction s1 as [|c s1 IH]; str_simpl; simpl; [reflexivity | rewrite IH; reflexivity].
Qed.

Lemma matches_Star_Class p s :
  matches (Star (Class p)) s = forallb p (list_ascii_of_string s).
Proof.
  induction s as [|c s IH]; [reflexivity|]. simpl.
  apply eq_true_iff_eq. rewrite matches_Seq, andb_true_iff. split.
  - intros (s1 & s2 & -> & H1 & H2). destruct (p c).
    + apply matches_Eps in H1. subst s1. str_simpl.
      rewrite <- IH. auto.
    + rewrite matches_Empty in H1. discriminate H1.
  - intros [Hc Hs]. rewrite Hc. exists "", s. str_simpl.
    rewrite IH. auto.
Qed.

(** A line passes [r'^\s*$'] exactly when all its characters are
    spaces. *)
Lemma blank_line_spec line :
  re_match BLANK_LINE line = true <->
  forallb is_space (list_ascii_of_string line) = true.
Proof.
  unfold BLANK_LINE. rewrite re_match_true, matches_Star_Class. split.
  - intros [H | (s' & -> & H)]; [exact H|].
    rewrite matches_Star_Class in H.
    rewrite list_ascii_of_string_append, forallb_app, H. reflexivity.
  - auto.
Qed.

(** A line passes [r'^\s*#.*$'] exactly when it is made of spaces, a
    hash sign and characters other than the newline, with at most one
    newline to end it. *)
Lemma comment_line_spec line :
  re_match COMMENT_LINE line = true <->
  exists spaces rest tail,
    line = spaces ++ String "#" rest ++ tail /\
    forallb is_space (list_ascii_of_string spaces) = true /\
    forallb is_dot (list_ascii_of_string rest) = true /\
    (tail = "" \/ tail = String LF "").
Proof.
  assert (Hm : forall s, matches COMMENT_LINE s = true <->
            exists spaces rest, s = spaces ++ String "#" rest /\
              forallb is_space (list_ascii_of_string spaces) = true /\
              forallb is_dot (list_ascii_of_string rest) = true).
  { intros s. unfold COMMENT_LINE. rewrite matches_Seq. split.
    - intros (s1 & s2 & -> & H1 & H2). rewrite matches_Star_Class in H1.
      apply matches_Class_Seq in H2 as (c & rest & -> & Hc & Hrest).
      rewrite matches_Star_Class in Hrest.
      unfold char_in in Hc. simpl in Hc. rewrite orb_false_r in Hc.
      apply Ascii.eqb_eq in Hc. subst c. eauto.
    - intros (spaces & rest & -> & Hs & Hr). exists spaces, (String "#" rest).
      split; [reflexivity|]. rewrite matches_Star_Class. split; [exact Hs|].
      apply matches_Class_Seq. exists "#"%char, rest.
      rewrite matches_Star_Class. auto. }
  rewrite re_match_true. split.
  - intros [H | (s' & -> & H)].
    + apply Hm in H as (spaces & rest & -> & Hs & Hr).
      exists spaces, rest, "".
      split; [|auto]. f_equal. f_equal. clear.
      induction rest as [|c rest IH]; str_simpl; [reflexivity | congruence].
    + apply Hm in H as (spaces & rest & -> & Hs & Hr).
      exists spaces, rest, (String LF "").
      split; [|auto]. rewrite append_assoc. str_simpl. reflexivity.
  - intros (spaces & rest & tail & -> & Hs & Hr & [-> | ->]).
    + left. apply Hm. exists spaces, rest. split; [|auto]. f_equal. f_equal. clear.
      induction rest as [|c rest IH]; str_simpl; [reflexivity | congruence].
    + right. exists (spaces ++ String "#" rest).
      split; [rewrite append_assoc; str_simpl; reflexivity|].
      apply Hm. eauto.
Qed.

(** ** The pattern of an item *)

(** The characters that the pattern of an item accepts as a cube code *)
Lemma cube_code_cases c :
  char_in "KFRPSMW" c || char_in "kfrpsmw" c = true ->
  In c (list_ascii_of_string "KFRPSMWkfrpsmw").
Proof.
  unfold char_in. rewrite <- existsb_app. intros H.
  apply existsb_exists in H as (x & Hin & Heq).
  apply Ascii.eqb_eq in Heq. subst x. exact Hin.
Qed.

Lemma char_in_colon c : char_in ":" c = true -> c = ":"%char.
Proof.
  unfold char_in. simpl. rewrite orb_false_r. apply Ascii.eqb_eq.
Qed.

Lemma char_between_bounds lo hi c :
  char_between lo hi c = true ->
  (N_of_ascii lo <= N_of_ascii c <= N_of_ascii hi)%N.
Proof.
  unfold char_between. rewrite andb_true_iff, !N.leb_le. tauto.
Qed.

Lemma N_of_ascii_neq c1 c2 : N_of_ascii c1 <> N_of_ascii c2 -> Ascii.eqb c1 c2 = false.
Proof. intros H. apply Ascii.eqb_neq. congruence. Qed.

Lemma matches_ITEM s :
  matches ITEM s = true <->
  exists c l d,
    s = String c (String ":" (String l d)) /\
    char_in "KFRPSMW" c || char_in "kfrpsmw" c = true /\
    char_between "a" "i" l = true /\
    (d = "" \/ exists n, d = String n "" /\ char_between "1" "9" n = true).
Proof.
  unfold ITEM, Opt. rewrite matches_Seq. split.
  - intros (s1 & s2 & -> & H1 & H2).
    rewrite matches_Alt, orb_true_iff, !matches_Class in H1.
    apply matches_Class_Seq in H2 as (colon & s3 & -> & Hcolon & H3).
    apply char_in_colon in Hcolon. subst colon.
    apply matches_Class_Seq in H3 as (l & d & -> & Hl & Hd).
    rewrite matches_Alt, orb_true_iff, matches_Class, matches_Eps in Hd.
    assert (exists c, s1 = String c "" /\
              char_in "KFRPSMW" c || char_in "kfrpsmw" c = true) as (c & -> & Hc).
    { destruct H1 as [(c & -> & Hc) | (c & -> & Hc)]; exists c;
        rewrite Hc; auto using orb_true_r. }
    exists c, l, d. str_simpl. repeat split; try assumption.
    destruct Hd as [Hd | Hd]; [right | left]; assumption.
  - intros (c & l & d & -> & Hc & Hl & Hd).
    exists (String c ""), (String ":" (String l d)). str_simpl.
    split; [reflexivity|]. split.
    + rewrite matches_Alt, orb_true_iff, !matches_Class.
      apply orb_true_iff in Hc as [Hc|Hc]; [left | right]; eauto.
    + apply matches_Class_Seq. exists ":"%char, (String l d).
      split; [reflexivity|]. split; [reflexivity|].
      apply matches_Class_Seq. exists l, d.
      split; [reflexivity|]. split; [exact Hl|].
      rewrite matches_Alt, orb_true_iff, matches_Class, matches_Eps.
      destruct Hd as [Hd | Hd]; [right | left]; assumption.
Qed.

(** An accepted item is a code, a colon and a position without colon. *)
Lemma re_match_ITEM item :
  re_match ITEM item = true ->
  exists c position_label,
    item = String c (String ":" position_label) /\
    In c (list_ascii_of_string "KFRPSMWkfrpsmw") /\
    re_split ":" position_label = [position_label].
Proof.
  intros H. apply re_match_true in H.
  assert (exists s tail, item = s ++ tail /\ matches ITEM s = true /\
            (tail = "" \/ tail = String LF "")) as (s & tail & -> & Hs & Htail).
  { destruct H as [H | (s & -> & H)].
    - exists item, "". split; [|auto]. clear H.
      induction item as [|c item IH]; str_simpl; [reflexivity | congruence].
    - exists s, (String LF ""). auto. }
  apply matches_ITEM in Hs as (c & l & d & -> & Hc & Hl & Hd).
  exists c, (String l d ++ tail). str_simpl.
  split; [reflexivity|]. split; [apply cube_code_cases; exact Hc|].
  apply char_between_bounds in Hl.
  assert (Hl' : Ascii.eqb l ":" = false).
  { apply N_of_ascii_neq. change (N_of_ascii ":") with 58%N.
    change (N_of_ascii "a") with 97%N in Hl. lia. }
  assert (Htail' : re_split ":" tail = [tail]).
  { destruct Htail as [-> | ->]; reflexivity. }
  destruct Hd as [-> | (n & -> & Hn)]; str_simpl.
  - simpl. rewrite Hl', Htail'. reflexivity.
  - apply char_between_bounds in Hn.
    assert (Hn' : Ascii.eqb n ":" = false).
    { apply N_of_ascii_neq. change (N_of_ascii ":") with 58%N.
      change (N_of_ascii "9") with 57%N in Hn. lia. }
    simpl. rewrite Hl', Hn', Htail'. reflexivity.
Qed.

Lemma re_split_item c position_label :
  In c (list_ascii_of_string "KFRPSMWkfrpsmw") ->
  re_split ":" position_label = [position_label] ->
  re_split ":" (String c (String ":" position_label)) = [String c ""; position_label].
Proof.
  intros Hc Hpos.
  assert (Hne : Ascii.eqb c ":" = false).
  { simpl in Hc. intuition (subst; reflexivity). }
  simpl. rewrite Hne, Hpos. reflexivity.
Qed.

(** The keys of [CUBE_COLORED_TYPES] are the fourteen codes of the
    pattern. *)
Lemma CUBE_COLORED_TYPES_keys key :
  contains CUBE_COLORED_TYPES key = true <->
  exists c, key = String c "" /\
            char_in "KFRPSMW" c || char_in "kfrpsmw" c = true.
Proof.
  split.
  - intros H. apply contains_true, elem_of_dom in H.
    assert (Hdom : dom CUBE_COLORED_TYPES =
      list_to_set ["K"; "F"; "R"; "P"; "S"; "M"; "W";
                   "k"; "f"; "r"; "p"; "s"; "m"; "w"]) by (vm_compute; reflexivity).
    rewrite Hdom in H. apply elem_of_list_to_set in H.
    repeat (apply elem_of_cons in H as [-> | H]; [eexists; split; reflexivity|]).
    apply elem_of_nil in H. contradiction.
  - intros (c & -> & Hc). apply cube_code_cases in Hc. simpl in Hc.
    intuition (subst; reflexivity).
Qed.

(** The assertion meant for the cube code tests the position label a
    second time: the only error of the program that
    [set_cube_at_position] raises is the one about the label. *)
Lemma set_cube_JersiError alls position_label cube_label STATE message STATE' :
  set_cube_at_position alls position_label cube_label STATE =
    (Raise (JersiError message), STATE') ->
  contains alls position_label = false /\
  message = "no hexagon at label '" ++ position_label ++ "'".
Proof.
  destruct (contains alls position_label) eqn:Hin.
  - unfold set_cube_at_position, setitem2, bind, jersi_assert, get, put, getitem,
      list_getitem, ret, raise.
    rewrite Hin. simpl.
    destruct (STATE !! position_label) as [stack|] eqn:Hst; [|congruence].
    destruct stack as [|[b|] stack]; simpl; try congruence.
    + destruct stack as [|[t|] stack]; simpl; try congruence.
      destruct (CUBE_COLORED_TYPES !! cube_label); simpl; [|congruence].
      rewrite Hst. simpl. congruence.
    + destruct (CUBE_COLORED_TYPES !! cube_label); simpl; [|congruence].
      rewrite Hst. simpl. congruence.
  - rewrite set_cube_unknown_label by exact Hin. intros H. inversion H. auto.
Qed.

(** C9.  An item that passes the pattern splits at its colon into a cube
    code and a position, and the code is a key of [CUBE_COLORED_TYPES]: the
    lookup of the cube succeeds in any state, so that a push at a
    registered label with a free slot succeeds.  The keys of the table are
    the codes of the pattern, and the assertion written for the cube code
    never raises. *)
Theorem accepted_item_decodes item (Haccepted : re_match ITEM item = true) :
  (exists cube_label position_label cube,
     re_split ":" item = [cube_label; position_label] /\
     CUBE_COLORED_TYPES !! cube_label = Some cube /\
     (forall STATE : gmap string Stack,
        getitem CUBE_COLORED_TYPES cube_label STATE = (Ok cube, STATE)) /\
     (forall alls (STATE : gmap string Stack) bottom,
        contains alls position_label = true ->
        STATE !! position_label = Some [bottom; None] ->
        fst (set_cube_at_position alls position_label cube_label STATE) = Ok tt) /\
     (forall alls STATE message,
        fst (set_cube_at_position alls position_label cube_label STATE) =
          Raise (JersiError message) ->
        message = "no hexagon at label '" ++ position_label ++ "'")) /\
  (forall key,
     contains CUBE_COLORED_TYPES key = true <->
     exists c, key = String c "" /\
               char_in "KFRPSMW" c || char_in "kfrpsmw" c = true).
Proof.
  split; [|exact CUBE_COLORED_TYPES_keys].
  apply re_match_ITEM in Haccepted as (c & position_label & -> & Hc & Hpos).
  assert (exists cube, CUBE_COLORED_TYPES !! String c "" = Some cube) as [cube Hcube].
  { simpl in Hc. intuition (subst; eexists; vm_compute; reflexivity). }
  exists (String c ""), position_label, cube.
  split; [apply re_split_item; assumption|].
  split; [exact Hcube|]. split; [|split].
  - intros STATE. unfold getitem. rewrite Hcube. reflexivity.
  - intros alls STATE bottom Hin Hst.
    erewrite set_cube_succeeds by eassumption. reflexivity.
  - intros alls STATE message H.
    destruct (set_cube_at_position alls position_label (String c "") STATE)
      as [r STATE'] eqn:E.
    simpl in H. subst r. apply set_cube_JersiError in E as [_ E]. exact E.
Qed.

Lemma accepted_item_decodes_witness :
  re_match ITEM "K:a4" = true /\
  (exists cube_label position_label cube,
     re_split ":" "K:a4" = [cube_label; position_label] /\
     CUBE_COLORED_TYPES !! cube_label = Some cube /\
     (forall STATE : gmap string Stack,
        getitem CUBE_COLORED_TYPES cube_label STATE = (Ok cube, STATE)) /\
     (forall alls (STATE : gmap string Stack) bottom,
        contains alls position_label = true ->
        STATE !! position_label = Some [bottom; None] ->
        fst (set_cube_at_position alls position_label cube_label STATE) = Ok tt) /\
     (forall alls STATE message,
        fst (set_cube_at_position alls position_label cube_label STATE) =
          Raise (JersiError message) ->
        message = "no hexagon at label '" ++ position_label ++ "'")) /\
  (forall key,
     contains CUBE_COLORED_TYPES key = true <->
     exists c, key = String c "" /\
               char_in "KFRPSMW" c || char_in "kfrpsmw" c = true).
Proof.
  split; [vm_compute; reflexivity|].
  apply (accepted_item_decodes "K:a4"). vm_compute. reflexivity.
Defined.

(** ** The pattern of an item and the form of a token *)

Lemma row_letter_cases l :
  char_between "a" "i" l = true <-> In l (list_ascii_of_string "abcdefghi").
Proof.
  split.
  - intros H. apply char_between_bounds in H.
    change (N_of_ascii "a") with 97%N in H. change (N_of_ascii "i") with 105%N in H.
    rewrite <- (ascii_N_embedding l).
    assert (Hn : In (N_of_ascii l) [97; 98; 99; 100; 101; 102; 103; 104; 105]%N)
      by (simpl; lia).
    simpl in Hn.
    repeat (destruct Hn as [E|Hn]; [rewrite <- E; simpl; auto 12|]).
    contradiction.
  - simpl. intuition (subst; reflexivity).
Qed.

Lemma column_digit_cases n :
  char_between "1" "9" n = true <-> In n (list_ascii_of_string "123456789").
Proof.
  split.
  - intros H. apply char_between_bounds in H.
    change (N_of_ascii "1") with 49%N in H. change (N_of_ascii "9") with 57%N in H.
    rewrite <- (ascii_N_embedding n).
    assert (Hn : In (N_of_ascii n) [49; 50; 51; 52; 53; 54; 55; 56; 57]%N)
      by (simpl; lia).
    simpl in Hn.
    repeat (destruct Hn as [E|Hn]; [rewrite <- E; simpl; auto 12|]).
    contradiction.
  - simpl. intuition (subst; reflexivity).
Qed.

Lemma cube_code_cases_iff c :
  char_in "KFRPSMW" c || char_in "kfrpsmw" c = true <->
  In c (list_ascii_of_string "KFRPSMWkfrpsmw").
Proof.
  split; [apply cube_code_cases|]. simpl. intuition (subst; reflexivity).
Qed.

(** The pattern accepts the words of the grammar and no other. *)
Lemma matches_ITEM_is_token s : matches ITEM s = true <-> is_token s.
Proof.
  rewrite matches_ITEM. unfold is_token. split.
  - intros (c & l & d & -> & Hc & Hl & Hd). exists c, l, d.
    split; [reflexivity|]. split; [apply cube_code_cases_iff; exact Hc|].
    split; [apply row_letter_cases; exact Hl|].
    destruct Hd as [-> | (n & -> & Hn)]; [left; reflexivity|].
    right. exists n. split; [reflexivity | apply column_digit_cases; exact Hn].
  - intros (c & l & d & -> & Hc & Hl & Hd). exists c, l, d.
    split; [reflexivity|]. split; [apply cube_code_cases_iff; exact Hc|].
    split; [apply row_letter_cases; exact Hl|].
    destruct Hd as [-> | (n & -> & Hn)]; [left; reflexivity|].
    right. exists n. split; [reflexivity | apply column_digit_cases; exact Hn].
Qed.

Lemma remove_spaces_no_space line : no_space (remove_spaces line) = true.
Proof.
  induction line as [|c line IH]; [reflexivity|]. simpl.
  destruct (is_space c) eqn:Hc; [exact IH|].
  unfold no_space. simpl. rewrite Hc. exact IH.
Qed.

Lemma re_split_no_space sep s :
  no_space s = true -> Forall (fun piece => no_space piece = true) (re_split sep s).
Proof.
  induction s as [|c s IH]; intros H.
  - repeat constructor.
  - unfold no_space in H. simpl in H. apply andb_true_iff in H as [Hc Hs].
    specialize (IH Hs). simpl. destruct (Ascii.eqb c sep).
    + constructor; [reflexivity | exact IH].
    + destruct (re_split sep s) as [|piece pieces].
      * repeat constructor. unfold no_space. simpl. rewrite Hc. reflexivity.
      * inversion IH as [|? ? Hpiece Hpieces]; subst. constructor; [|exact Hpieces].
        unfold no_space. simpl. rewrite Hc. exact Hpiece.
Qed.

Lemma no_space_chop_newline s : no_space s = true -> chop_newline s = None.
Proof.
  induction s as [|c s IH]; [reflexivity|]. intros H.
  unfold no_space in H. simpl in H. apply andb_true_iff in H as [Hc Hs].
  destruct s as [|c2 s].
  - simpl. destruct (Ascii.eqb_spec c LF) as [->|_]; [discriminate Hc | reflexivity].
  - rewrite chop_newline_cons, (IH Hs). reflexivity.
Qed.

Lemma re_match_no_space r s : no_space s = true -> re_match r s = matches r s.
Proof.
  intros H. unfold re_match. rewrite (no_space_chop_newline _ H).
  apply orb_false_r.
Qed.

Lemma items_of_no_space line :
  Forall (fun item => no_space item = true) (items_of line).
Proof. apply re_split_no_space, remove_spaces_no_space. Qed.

(** On the items of a line, [re.match] with the pattern of an item decides
    the form of a token. *)
Lemma item_accepted_iff line item :
  item ∈ items_of line -> re_match ITEM item = true <-> is_token item.
Proof.
  intros Hin.
  pose proof (proj1 (Forall_forall _ _) (items_of_no_space line) _ Hin) as Hns.
  simpl in Hns. rewrite (re_match_no_space _ _ Hns). apply matches_ITEM_is_token.
Qed.

(** ** The two loops of [read_state_file] *)

(** The first element of a list on which a test fails *)
Lemma first_failure {A} (f : A -> bool) (l : list A) :
  forallb f l = false ->
  exists done x rest,
    l = (done ++ x :: rest)%list /\ forallb f done = true /\ f x = false.
Proof.
  induction l as [|y l IH]; simpl; [discriminate|].
  destruct (f y) eqn:Hy; simpl.
  - intros H. destruct (IH H) as (done & x & rest & -> & Hdone & Hx).
    exists (y :: done), x, rest. simpl. rewrite Hy. auto.
  - intros _. exists [], y, l. auto.
Qed.

Lemma forallb_elem_of {A} (f : A -> bool) (l : list A) x :
  x ∈ l -> f x = false -> forallb f l = false.
Proof.
  intros Hin Hx. destruct (forallb f l) eqn:E; [|reflexivity].
  rewrite forallb_forall in E. apply list_elem_of_In in Hin.
  rewrite (E _ Hin) in Hx. discriminate.
Qed.

Lemma read_items_Ok {S} line items instructions (s : S) :
  forallb (re_match ITEM) items = true ->
  read_items line items instructions s =
    (Ok (instructions ++ (re_split ":" <$> items))%list, s).
Proof.
  revert instructions. induction items as [|item items IH]; intros instructions.
  - intros _. simpl. rewrite app_nil_r. reflexivity.
  - simpl. intros H. apply andb_true_iff in H as [Hitem Hitems].
    rewrite Hitem, IH by exact Hitems. rewrite <- app_assoc. reflexivity.
Qed.

Lemma read_items_Raise {S} line done item rest instructions (s : S) :
  forallb (re_match ITEM) done = true ->
  re_match ITEM item = false ->
  read_items line (done ++ item :: rest)%list instructions s =
    (Raise (JersiError ("wrong item '" ++ item ++ "' in line '" ++ line ++ "'")), s).
Proof.
  revert instructions. induction done as [|x done IH]; intros instructions.
  - intros _ Hitem. simpl. rewrite Hitem. reflexivity.
  - simpl. intros H Hitem. apply andb_true_iff in H as [Hx Hdone].
    rewrite Hx. apply IH; assumption.
Qed.

Lemma read_lines_Ok {S} lines instructions (s : S) :
  forallb line_ok lines = true ->
  read_lines lines instructions s =
    (Ok (instructions ++ concat (line_instructions <$> lines))%list, s).
Proof.
  revert instructions. induction lines as [|line lines IH]; intros instructions.
  - intros _. simpl. rewrite app_nil_r. reflexivity.
  - simpl. intros H. apply andb_true_iff in H as [Hline Hlines].
    unfold line_ok, line_instructions, is_significant in *.
    destruct (re_match BLANK_LINE line); simpl in *; [apply IH; exact Hlines|].
    destruct (re_match COMMENT_LINE line); simpl in *; [apply IH; exact Hlines|].
    unfold bind. rewrite read_items_Ok by exact Hline.
    rewrite IH by exact Hlines. rewrite <- app_assoc. reflexivity.
Qed.

Lemma read_lines_Raise {S} before line after done item rest instructions (s : S) :
  forallb line_ok before = true ->
  is_significant line = true ->
  items_of line = (done ++ item :: rest)%list ->
  forallb (re_match ITEM) done = true ->
  re_match ITEM item = false ->
  read_lines (before ++ line :: after)%list instructions s =
    (Raise (JersiError
       ("wrong item '" ++ item ++ "' in line '" ++ remove_spaces line ++ "'")), s).
Proof.
  intros Hbefore Hsig Hitems Hdone Hitem. revert instructions.
  induction before as [|x before IH]; intros instructions.
  - simpl. unfold is_significant in Hsig.
    apply andb_true_iff in Hsig as [Hb Hc].
    apply negb_true_iff in Hb, Hc. rewrite Hb, Hc.
    unfold bind. fold (items_of line). rewrite Hitems.
    rewrite read_items_Raise by assumption. reflexivity.
  - simpl in Hbefore. apply andb_true_iff in Hbefore as [Hx Hbefore].
    specialize (IH Hbefore). simpl.
    unfold line_ok, is_significant in Hx.
    destruct (re_match BLANK_LINE x); simpl in *; [apply IH|].
    destruct (re_match COMMENT_LINE x); simpl in *; [apply IH|].
    unfold bind. rewrite read_items_Ok by exact Hx. apply IH.
Qed.

(** The loop over the lines leaves the state alone, whatever its type. *)
Lemma read_lines_pure {S} lines (s : S) :
  read_lines lines [] s = (fst (read_lines lines [] tt), s).
Proof.
  destruct (forallb line_ok lines) eqn:E.
  - rewrite !read_lines_Ok by exact E. reflexivity.
  - apply first_failure in E as (before & line & after & -> & Hbefore & Hline).
    unfold line_ok in Hline. apply orb_false_iff in Hline as [Hsig Hitems].
    apply negb_false_iff in Hsig.
    apply first_failure in Hitems as (done & item & rest & Hitems & Hdone & Hitem).
    rewrite !(read_lines_Raise before line after done item rest) by assumption.
    reflexivity.
Qed.

Lemma read_state_file_unfold alls text STATE0 :
  read_state_file alls text STATE0 =
    match parse_instructions text with
    | Ok instructions =>
        for_each instructions (apply_instruction alls) (snd (reset_state alls STATE0))
    | Raise e => (Raise e, snd (reset_state alls STATE0))
    end.
Proof.
  unfold read_state_file, parse_instructions.
  rewrite (bind_Ok _ _ _ _ _ (reset_state_Ok alls STATE0)).
  unfold bind at 1. rewrite read_lines_pure.
  destruct (fst (read_lines (readlines text) [] tt)); reflexivity.
Qed.

Lemma line_ok_spec line :
  line_ok line = true <->
  (is_significant line = true -> Forall is_token (items_of line)).
Proof.
  unfold line_ok. destruct (is_significant line); simpl.
  - rewrite forallb_forall, Forall_forall. split.
    + intros H. intros _ item Hin. apply (item_accepted_iff line); [exact Hin|].
      apply H, list_elem_of_In, Hin.
    + intros H item Hin. apply list_elem_of_In in Hin.
      apply (item_accepted_iff line); [exact Hin|]. exact (H eq_refl item Hin).
  - split; [discriminate | reflexivity].
Qed.

(** What the caller makes of a load that raises: the state is the one the
    load leaves, the canvas is not redrawn, the log line tells the failure. *)
Lemma read_file_Raise alls text STATE0 e STATE1 canvas0 log0 :
  read_state_file alls text STATE0 = (Raise e, STATE1) ->
  read_file alls text (mkGui STATE0 canvas0 log0) = mkGui STATE1 canvas0 (failure_log e).
Proof.
  intros H. unfold read_file. simpl. rewrite H. destruct e; reflexivity.
Qed.

(** C2.  When a line of the text that is neither blank nor a comment has,
    once its spaces are removed and it is split at the slashes, an item
    that has not the form of a token, [read_state_file] raises the error
    of the program that quotes the first such item of the file and the
    line it stands in, spaces removed.  No instruction has been applied:
    the state left behind is the one of the reset; the caller reports the
    error and draws nothing. *)
Theorem malformed_item_raises alls text STATE0 line item
    (Hline : line ∈ readlines text)
    (Hsignificant : is_significant line = true)
    (Hitem : item ∈ items_of line)
    (Hmalformed : ~ is_token item) :
  exists before line' after done item' rest,
    readlines text = (before ++ line' :: after)%list /\
    Forall (fun l => is_significant l = true -> Forall is_token (items_of l)) before /\
    is_significant line' = true /\
    items_of line' = (done ++ item' :: rest)%list /\
    Forall is_token done /\
    ~ is_token item' /\
    read_state_file alls text STATE0 =
      (Raise (JersiError
         ("wrong item '" ++ item' ++ "' in line '" ++ remove_spaces line' ++ "'")),
       snd (reset_state alls STATE0)) /\
    forall canvas0 log0,
      read_file alls text (mkGui STATE0 canvas0 log0) =
        mkGui (snd (reset_state alls STATE0)) canvas0
          ("Read failed: " ++
           ("wrong item '" ++ item' ++ "' in line '" ++ remove_spaces line' ++ "'") ++
           " !!!").
Proof.
  assert (Hre : re_match ITEM item = false).
  { destruct (re_match ITEM item) eqn:E; [|reflexivity].
    apply (item_accepted_iff line) in E; [contradiction | exact Hitem]. }
  assert (Hbad : forallb line_ok (readlines text) = false).
  { apply (forallb_elem_of _ _ line Hline). unfold line_ok.
    rewrite Hsignificant. simpl. exact (forallb_elem_of _ _ item Hitem Hre). }
  apply first_failure in Hbad as (before & line' & after & Hlines & Hbefore & Hline').
  unfold line_ok in Hline'. apply orb_false_iff in Hline' as [Hsig Hitems].
  apply negb_false_iff in Hsig.
  apply first_failure in Hitems as (done & item' & rest & Hitems & Hdone & Hitem').
  assert (Hraise : read_state_file alls text STATE0 =
            (Raise (JersiError
               ("wrong item '" ++ item' ++ "' in line '" ++ remove_spaces line' ++ "'")),
             snd (reset_state alls STATE0))).
  { rewrite read_state_file_unfold. unfold parse_instructions. rewrite Hlines.
    rewrite (read_lines_Raise before line' after done item' rest) by assumption.
    reflexivity. }
  exists before, line', after, done, item', rest.
  split; [exact Hlines|]. split.
  { apply Forall_forall. intros l Hl. apply line_ok_spec.
    rewrite forallb_forall in Hbefore. apply Hbefore, list_elem_of_In, Hl. }
  split; [exact Hsig|]. split; [exact Hitems|]. split.
  { apply Forall_forall. intros x Hx. apply (item_accepted_iff line').
    - rewrite Hitems. apply elem_of_app. left. exact Hx.
    - rewrite forallb_forall in Hdone. apply Hdone, list_elem_of_In, Hx. }
  split.
  { assert (Hin' : item' ∈ items_of line').
    { rewrite Hitems. apply elem_of_app. right. apply list_elem_of_here. }
    intros Htoken. apply (proj2 (item_accepted_iff line' item' Hin')) in Htoken.
    congruence. }
  split; [exact Hraise|].
  intros canvas0 log0. rewrite (read_file_Raise _ _ _ _ _ _ _ Hraise). reflexivity.
Qed.

Lemma malformed_item_raises_witness :
  String "X" (String ":" (String "a" (String "4" (String LF ""))))
    ∈ readlines (text_of_lines ["X:a4"]) /\
  is_significant
    (String "X" (String ":" (String "a" (String "4" (String LF ""))))) = true /\
  "X:a4" ∈ items_of
    (String "X" (String ":" (String "a" (String "4" (String LF ""))))) /\
  ~ is_token "X:a4" /\
  read_state_file Hexagon_alls (text_of_lines ["X:a4"]) ∅ =
    (Raise (JersiError "wrong item 'X:a4' in line 'X:a4'"),
     snd (reset_state Hexagon_alls ∅)) /\
  read_file Hexagon_alls (text_of_lines ["X:a4"]) (mkGui ∅ [] "") =
    mkGui (snd (reset_state Hexagon_alls ∅)) []
      "Read failed: wrong item 'X:a4' in line 'X:a4' !!!".
Proof.
  assert (H1 : String "X" (String ":" (String "a" (String "4" (String LF ""))))
                 ∈ readlines (text_of_lines ["X:a4"]))
    by (vm_compute; apply list_elem_of_here).
  assert (H3 : "X:a4" ∈ items_of
                 (String "X" (String ":" (String "a" (String "4" (String LF ""))))))
    by (vm_compute; apply list_elem_of_here).
  assert (H4 : ~ is_token "X:a4").
  { intros (code & row & column & H & Hcode & _).
    injection H as <- _. simpl in Hcode. intuition discriminate. }
  split; [exact H1|]. split; [vm_compute; reflexivity|].
  split; [exact H3|]. split; [exact H4|].
  destruct (malformed_item_raises Hexagon_alls (text_of_lines ["X:a4"]) ∅
              (String "X" (String ":" (String "a" (String "4" (String LF "")))))
              "X:a4" H1 eq_refl H3 H4)
    as (before & line' & after & done & item' & rest &
        Hlines & _ & _ & Hitems & _ & _ & Hraise & Hgui).
  change (readlines (text_of_lines ["X:a4"]))
    with [String "X" (String ":" (String "a" (String "4" (String LF ""))))]
    in Hlines.
  destruct before as [|x [|y before]]; [|discriminate Hlines..].
  injection Hlines as <- _.
  change (items_of (String "X" (String ":" (String "a" (String "4" (String LF ""))))))
    with ["X:a4"] in Hitems.
  destruct done as [|x [|y done]]; [|discriminate Hitems..].
  injection Hitems as <- _.
  split; [exact Hraise | exact (Hgui [] "")].
Defined.

(** ** A load that fails *)

(** C3 (as amended).  [read_state_file] resets the state before it reads
    the text, and nothing restores the state when the load fails.  The
    exception of the failing step reaches the caller, which reports it in
    the log line and does not redraw: the canvas keeps the picture it had,
    the state does not keep the position.  When the text has a malformed
    item, the state left behind is the one of the reset: every registered
    label has the empty stack.  When the text is well formed, the failure
    comes from an instruction: the state left behind is the one of the
    reset with the instructions before the failing one applied, and the
    failing instruction itself has changed nothing. *)
Theorem failed_load_keeps_applied_prefix alls text STATE0 e STATE1
    (Hconsistent : labels_consistent alls)
    (Hfailed : read_state_file alls text STATE0 = (Raise e, STATE1)) :
  (forall canvas0 log0,
     read_file alls text (mkGui STATE0 canvas0 log0) =
       mkGui STATE1 canvas0 (failure_log e)) /\
  match parse_instructions text with
  | Raise e' =>
      e = e' /\
      STATE1 = snd (reset_state alls STATE0) /\
      forall position_label,
        contains alls position_label = true ->
        STATE1 !! position_label = Some [None; None]
  | Ok instructions =>
      exists done instruction rest,
        instructions = (done ++ instruction :: rest)%list /\
        for_each done (apply_instruction alls) (snd (reset_state alls STATE0)) =
          (Ok tt, STATE1) /\
        apply_instruction alls instruction STATE1 = (Raise e, STATE1)
  end.
Proof.
  split; [intros canvas0 log0; apply read_file_Raise; exact Hfailed|].
  rewrite read_state_file_unfold in Hfailed.
  remember (snd (reset_state alls STATE0)) as STATE_reset eqn:Hreset.
  destruct (parse_instructions text) as [instructions|e'].
  - apply for_each_Raise in Hfailed
      as (done & instruction & rest & s1 & -> & Hdone & Hinstr).
    assert (STATE1 = s1) as ->.
    { destruct instruction as [|cube_label [|position_label [|x l]]];
        simpl in Hinstr; try (inversion Hinstr; reflexivity).
      eapply set_cube_Raise_unchanged. exact Hinstr. }
    exists done, instruction, rest. auto.
  - injection Hfailed as He Hs. split; [symmetry; exact He|].
    split; [symmetry; exact Hs|].
    intros position_label Hin. rewrite <- Hs, Hreset.
    rewrite reset_state_lookup, Hin by exact Hconsistent. reflexivity.
Qed.

Lemma failed_load_keeps_applied_prefix_witness :
  labels_consistent Hexagon_alls /\
  read_state_file Hexagon_alls (text_of_lines ["k:i4/K:a9"]) king_on_a4 =
    (Raise (JersiError "no hexagon at label 'a9'"),
     snd (read_state_file Hexagon_alls (text_of_lines ["k:i4/K:a9"]) king_on_a4)) /\
  (forall canvas0 log0,
     read_file Hexagon_alls (text_of_lines ["k:i4/K:a9"])
       (mkGui king_on_a4 canvas0 log0) =
       mkGui (snd (read_state_file Hexagon_alls (text_of_lines ["k:i4/K:a9"]) king_on_a4))
         canvas0 "Read failed: no hexagon at label 'a9' !!!") /\
  exists done instruction rest,
    [["k"; "i4"]; ["K"; "a9"]] = (done ++ instruction :: rest)%list /\
    for_each done (apply_instruction Hexagon_alls)
      (snd (reset_state Hexagon_alls king_on_a4)) =
      (Ok tt,
       snd (read_state_file Hexagon_alls (text_of_lines ["k:i4/K:a9"]) king_on_a4)) /\
    apply_instruction Hexagon_alls instruction
      (snd (read_state_file Hexagon_alls (text_of_lines ["k:i4/K:a9"]) king_on_a4)) =
      (Raise (JersiError "no hexagon at label 'a9'"),
       snd (read_state_file Hexagon_alls (text_of_lines ["k:i4/K:a9"]) king_on_a4)).
Proof.
  assert (Hfailed :
    read_state_file Hexagon_alls (text_of_lines ["k:i4/K:a9"]) king_on_a4 =
      (Raise (JersiError "no hexagon at label 'a9'"),
       snd (read_state_file Hexagon_alls (text_of_lines ["k:i4/K:a9"]) king_on_a4)))
    by (vm_compute; reflexivity).
  split; [exact Hexagon_alls_consistent|]. split; [exact Hfailed|].
  exact (failed_load_keeps_applied_prefix Hexagon_alls (text_of_lines ["k:i4/K:a9"])
           king_on_a4 _ _ Hexagon_alls_consistent Hfailed).
Defined.

(** C3, the claim as it stands fails.  With the white king on ["a4"]
    displayed, a load whose text has a malformed item leaves ["a4"] empty;
    a load whose second instruction names a label that is not registered
    leaves ["a4"] empty and the black king of its first instruction on
    ["i4"]. *)
Lemma failed_load_overwrites_state :
  king_on_a4 !! "a4" = Some [Some (KING, WHITE); None] /\
  king_on_a4 !! "i4" = Some [None; None] /\
  fst (read_state_file Hexagon_alls (text_of_lines ["X:a4"]) king_on_a4) =
    Raise (JersiError "wrong item 'X:a4' in line 'X:a4'") /\
  snd (read_state_file Hexagon_alls (text_of_lines ["X:a4"]) king_on_a4) !! "a4" =
    Some [None; None] /\
  snd (read_state_file Hexagon_alls (text_of_lines ["X:a4"]) king_on_a4) <> king_on_a4 /\
  fst (read_state_file Hexagon_alls (text_of_lines ["k:i4/K:a9"]) king_on_a4) =
    Raise (JersiError "no hexagon at label 'a9'") /\
  snd (read_state_file Hexagon_alls (text_of_lines ["k:i4/K:a9"]) king_on_a4) !! "a4" =
    Some [None; None] /\
  snd (read_state_file Hexagon_alls (text_of_lines ["k:i4/K:a9"]) king_on_a4) !! "i4" =
    Some [Some (KING, BLACK); None] /\
  snd (read_state_file Hexagon_alls (text_of_lines ["k:i4/K:a9"]) king_on_a4) <> king_on_a4.
Proof.
  assert (Hb : king_on_a4 !! "a4" = Some [Some (KING, WHITE); None])
    by (vm_compute; reflexivity).
  assert (Hm :
    snd (read_state_file Hexagon_alls (text_of_lines ["X:a4"]) king_on_a4) !! "a4" =
      Some [None; None]) by (vm_compute; reflexivity).
  assert (Hu :
    snd (read_state_file Hexagon_alls (text_of_lines ["k:i4/K:a9"]) king_on_a4) !! "a4" =
      Some [None; None]) by (vm_compute; reflexivity).
  repeat split; try (vm_compute; reflexivity).
  - intros E. rewrite E, Hb in Hm. discriminate Hm.
  - intros E. rewrite E, Hb in Hu. discriminate Hu.
Qed.

(** ** A load that succeeds *)

(** The codes of [CUBE_COLORED_TYPES] and the cubes correspond one to
    one: a code decodes to a cube exactly when it is the letter of the type
    of the cube, upper case for white, lower case for black. *)
Lemma CUBE_COLORED_TYPES_face_text cube_label cube_type color :
  CUBE_COLORED_TYPES !! cube_label = Some (cube_type, color) <->
  cube_label = face_text color cube_type.
Proof.
  split.
  - revert cube_label cube_type color.
    assert (H : map_Forall (fun code cube => code = face_text (snd cube) (fst cube))
                  CUBE_COLORED_TYPES).
    { apply (bool_decide_unpack _). vm_compute. reflexivity. }
    intros cube_label cube_type color Hl. exact (H _ _ Hl).
  - intros ->. destruct cube_type, color; vm_compute; reflexivity.
Qed.

(** C5.  Loading the two lines ["K:a4"] and ["k:i4"] succeeds from any
    state.  In the state it leaves, the stack of ["a4"] is the white king
    alone, the stack of ["i4"] is the black king alone, and the stack of
    every other registered label is empty.  The code of a cube decodes to
    the cube in a one-to-one way: a code is in the table with a type and a
    color exactly when it is the letter of the type, upper case for white
    and lower case for black. *)
Theorem two_kings_loaded STATE0 :
  fst (read_state_file Hexagon_alls (text_of_lines ["K:a4"; "k:i4"]) STATE0) = Ok tt /\
  (forall position_label,
     snd (read_state_file Hexagon_alls (text_of_lines ["K:a4"; "k:i4"]) STATE0)
       !! position_label =
     if decide (position_label = "a4") then Some [Some (KING, WHITE); None]
     else if decide (position_label = "i4") then Some [Some (KING, BLACK); None]
     else if contains Hexagon_alls position_label then Some [None; None]
     else STATE0 !! position_label) /\
  (forall cube_label cube_type color,
     CUBE_COLORED_TYPES !! cube_label = Some (cube_type, color) <->
     cube_label = face_text color cube_type) /\
  (forall color cube_type,
     face_text color cube_type =
     match color with
     | WHITE => CubeType_value cube_type
     | BLACK => str_map char_lower (CubeType_value cube_type)
     end).
Proof.
  assert (Hparse : parse_instructions (text_of_lines ["K:a4"; "k:i4"]) =
                     Ok [["K"; "a4"]; ["k"; "i4"]]) by (vm_compute; reflexivity).
  pose (R := snd (reset_state Hexagon_alls STATE0)).
  assert (HR : forall key, R !! key =
            if contains Hexagon_alls key then Some [None; None] else STATE0 !! key).
  { intros key. apply reset_state_lookup, Hexagon_alls_consistent. }
  assert (H1 : set_cube_at_position Hexagon_alls "a4" "K" R =
                 (Ok tt, <["a4" := [Some (KING, WHITE); None]]> R)).
  { apply set_cube_bottom; [vm_compute; reflexivity | | vm_compute; reflexivity].
    rewrite HR. reflexivity. }
  assert (H2 : set_cube_at_position Hexagon_alls "i4" "k"
                 (<["a4" := [Some (KING, WHITE); None]]> R) =
                 (Ok tt, <["i4" := [Some (KING, BLACK); None]]>
                           (<["a4" := [Some (KING, WHITE); None]]> R))).
  { apply set_cube_bottom; [vm_compute; reflexivity | | vm_compute; reflexivity].
    rewrite lookup_insert_ne by discriminate. rewrite HR. reflexivity. }
  assert (Hload : read_state_file Hexagon_alls (text_of_lines ["K:a4"; "k:i4"]) STATE0 =
                    (Ok tt, <["i4" := [Some (KING, BLACK); None]]>
                              (<["a4" := [Some (KING, WHITE); None]]> R))).
  { rewrite read_state_file_unfold, Hparse. fold R. simpl.
    rewrite (bind_Ok _ _ _ _ _ H1), (bind_Ok _ _ _ _ _ H2). reflexivity. }
  rewrite Hload. split; [reflexivity|]. split; [|split].
  - intros position_label. simpl.
    destruct (decide (position_label = "a4")) as [->|Ha].
    + rewrite lookup_insert_ne by discriminate. apply lookup_insert_eq.
    + destruct (decide (position_label = "i4")) as [->|Hi].
      * apply lookup_insert_eq.
      * rewrite !lookup_insert_ne by congruence. apply HR.
  - exact CUBE_COLORED_TYPES_face_text.
  - intros [] []; reflexivity.
Qed.

(** ** The initial position *)

(** C8 (as amended).  [init_state] succeeds and leaves 42 cubes: 15 white
    and 15 black cubes on 30 hexagons of the board, one cube each, and 6
    white and 6 black cubes on the six reserves, two cubes each.  The run
    is the same on the state a reset leaves. *)
Theorem init_state_cubes :
  fst (init_state Hexagon_alls ∅) = Ok tt /\
  init_state Hexagon_alls (snd (reset_state Hexagon_alls ∅)) =
    init_state Hexagon_alls ∅ /\
  length (cubes_of initial_position) = 42 /\
  count_cubes Hexagon_alls false WHITE initial_position = 15 /\
  count_cubes Hexagon_alls false BLACK initial_position = 15 /\
  count_cubes Hexagon_alls true WHITE initial_position = 6 /\
  count_cubes Hexagon_alls true BLACK initial_position = 6 /\
  length (labels_of_height 1 initial_position) = 30 /\
  Forall (fun position_label => is_reserve Hexagon_alls position_label = false)
    (labels_of_height 1 initial_position) /\
  (list_to_set (labels_of_height 2 initial_position) : gset string) =
    list_to_set ["a"; "b"; "c"; "g"; "h"; "i"] /\
  Forall (fun position_label => is_reserve Hexagon_alls position_label = true)
    (labels_of_height 2 initial_position) /\
  length (labels_of_height 0 initial_position) = 39.
Proof.
  repeat split; try (vm_compute; reflexivity).
  - apply (bool_decide_unpack _). vm_compute. reflexivity.
  - apply (bool_decide_unpack _). vm_compute. reflexivity.
Qed.

(** C8, the claim as it stands fails: the cubes are 42 and not 44, each
    color has 15 cubes on the board and not 16, and 12 of the cubes stand
    two by two. *)
Lemma init_state_not_44_cubes :
  length (cubes_of initial_position) <> 44 /\
  count_cubes Hexagon_alls false WHITE initial_position <> 16 /\
  count_cubes Hexagon_alls false BLACK initial_position <> 16 /\
  length (labels_of_height 1 initial_position) <> 44 /\
  initial_position !! "c" = Some [Some (WISE, WHITE); Some (WISE, WHITE)].
Proof. repeat split; vm_compute; congruence. Qed.

(** ** Geometry *)

Section Geometry.
Local Open Scope R_scope.

Lemma HEXA_SIDE_ANGLE_PI3 : HEXA_SIDE_ANGLE = PI / 3.
Proof. unfold HEXA_SIDE_ANGLE, HEXA_VERTEX_COUNT. field. Qed.

Lemma HEXA_WIDTH_value : HEXA_WIDTH = 600 / 11.
Proof. reflexivity. Qed.

Lemma sqrt3_pos : 0 < sqrt 3.
Proof. apply sqrt_lt_R0. lra. Qed.

Lemma UNIT_V_value : UNIT_V = mkTinyVector (1 / 2) (- (sqrt 3 / 2)).
Proof.
  unfold UNIT_V, UNIT_X, UNIT_Y, TinyVector.add, TinyVector.rmul, TinyVector.mul.
  rewrite HEXA_SIDE_ANGLE_PI3, cos_PI3, sin_PI3. simpl. f_equal; lra.
Qed.

Lemma TinyVector_eq (a b : TinyVector) : vx a = vx b -> vy a = vy b -> a = b.
Proof. destruct a, b. simpl. intros -> ->. reflexivity. Qed.

Lemma draw_hexagon_center_value u v :
  draw_hexagon_center (u, v) None =
    mkTinyVector (300 + 600 / 11 * (IZR u + IZR v / 2))
                 (300 - 600 / 11 * (IZR v * (sqrt 3 / 2))).
Proof.
  unfold draw_hexagon_center. rewrite UNIT_V_value.
  unfold UNIT_U, UNIT_X, ORIGIN, TinyVector.add, TinyVector.rmul, TinyVector.mul.
  rewrite HEXA_WIDTH_value. simpl.
  change (IZR CANVAS_WIDTH) with 600. change (IZR CANVAS_HEIGHT) with 600.
  f_equal; lra.
Qed.

(** C6 (as amended).  The transform gives canvas coordinates, where the
    second coordinate grows downwards: [UNIT_Y] is [(0, -1)], and [UNIT_V],
    built as [cos 60 * UNIT_X + sin 60 * UNIT_Y], is [(1/2, -sqrt 3/2)].
    It is [UNIT_U] turned by 60 degrees in the frame of [UNIT_X] and
    [UNIT_Y], and in the plane it is the mirror image of the rotation of
    [UNIT_U] by 60 degrees: the flip of the second axis is part of the
    transform, and a step of one along [v] lowers the second coordinate of
    the centre of a hexagon. *)
Theorem UNIT_V_has_the_flip_of_the_canvas :
  UNIT_Y = mkTinyVector 0 (-1) /\
  UNIT_V = (cos (PI / 3) *: UNIT_X + sin (PI / 3) *: UNIT_Y)%vec /\
  UNIT_V = mkTinyVector (1 / 2) (- (sqrt 3 / 2)) /\
  TinyVector.inner UNIT_V UNIT_X = cos (PI / 3) /\
  TinyVector.inner UNIT_V UNIT_Y = sin (PI / 3) /\
  UNIT_V = flip_y (rotate (PI / 3) UNIT_U) /\
  (forall u v,
     vy (draw_hexagon_center (u, (v + 1)%Z) None) <
     vy (draw_hexagon_center (u, v) None)).
Proof.
  split; [reflexivity|].
  split; [unfold UNIT_V; rewrite HEXA_SIDE_ANGLE_PI3; reflexivity|].
  split; [exact UNIT_V_value|].
  split; [rewrite UNIT_V_value, cos_PI3; unfold TinyVector.inner; simpl; lra|].
  split; [rewrite UNIT_V_value, sin_PI3; unfold TinyVector.inner; simpl; lra|].
  split.
  - rewrite UNIT_V_value. unfold flip_y, rotate, UNIT_U, UNIT_X. simpl.
    rewrite cos_PI3, sin_PI3. f_equal; lra.
  - intros u v. rewrite !draw_hexagon_center_value. simpl.
    rewrite plus_IZR. pose proof sqrt3_pos. lra.
Qed.

(** C6, the claim as it stands fails: [UNIT_V] is not [UNIT_U] turned by
    60 degrees where the second coordinate grows upwards; its second
    coordinate is negative, the one of the rotated vector is positive. *)
Lemma UNIT_V_is_not_the_rotation_of_UNIT_U :
  UNIT_V <> rotate (PI / 3) UNIT_U /\
  vy UNIT_V < 0 /\
  0 < vy (rotate (PI / 3) UNIT_U).
Proof.
  assert (Hv : vy UNIT_V = - (sqrt 3 / 2)) by (rewrite UNIT_V_value; reflexivity).
  assert (Hr : vy (rotate (PI / 3) UNIT_U) = sqrt 3 / 2).
  { unfold rotate, UNIT_U, UNIT_X. simpl. rewrite sin_PI3, cos_PI3. lra. }
  pose proof sqrt3_pos as Hpos.
  split; [|split].
  - intros E. rewrite E in Hv. rewrite Hr in Hv. lra.
  - rewrite Hv. lra.
  - rewrite Hr. lra.
Qed.

(** C7.  The centre of a hexagon is a function of the logical position
    and of the shift alone: it is [ORIGIN + HEXA_WIDTH * (u * UNIT_U + v *
    UNIT_V)], to which the shift is added when there is one, and
    [draw_hexagon] and [draw_cube] compute it alike.  Changing the shift
    alone moves the centre by the difference of the shifts; with the
    values of the constants, the centre without shift is
    [(300 + 600/11 * (u + v/2), 300 - 600/11 * v * sqrt 3/2)]. *)
Theorem hexagon_center_is_translated_by_the_shift
    (u v : Z) (shift shift' : TinyVector) (hexagon : Hexagon) :
  draw_hexagon_center (u, v) None =
    (ORIGIN + HEXA_WIDTH *: (IZR u *: UNIT_U + IZR v *: UNIT_V))%vec /\
  draw_hexagon_center (u, v) (Some shift) =
    (draw_hexagon_center (u, v) None + shift)%vec /\
  (draw_hexagon_center (u, v) (Some shift') -
   draw_hexagon_center (u, v) (Some shift))%vec = (shift' - shift)%vec /\
  draw_hexagon_center (u, v) (Some shift') =
    (draw_hexagon_center (u, v) (Some shift) + (shift' - shift))%vec /\
  draw_cube_center hexagon =
    draw_hexagon_center (position_uv hexagon) (extra_shift hexagon) /\
  draw_hexagon_center (u, v) None =
    mkTinyVector (300 + 600 / 11 * (IZR u + IZR v / 2))
                 (300 - 600 / 11 * (IZR v * (sqrt 3 / 2))).
Proof.
  split; [reflexivity|]. split; [reflexivity|].
  split; [|split; [|split]].
  - unfold draw_hexagon_center. apply TinyVector_eq; simpl; ring.
  - unfold draw_hexagon_center. apply TinyVector_eq; simpl; ring.
  - unfold draw_cube_center, draw_hexagon_center.
    destruct (position_uv hexagon). reflexivity.
  - apply draw_hexagon_center_value.
Qed.

End Geometry.

(** ** Lines of a text *)

Lemma one_line_tail c line :
  one_line (String c line) -> Ascii.eqb c LF = false -> one_line line.
Proof.
  intros (body & tail & H & Hbody & Htail) Hc.
  destruct body as [|b body]; str_simpl.
  - destruct Htail as [-> | ->]; [discriminate H|].
    injection H as -> _. discriminate Hc.
  - injection H as -> ->. simpl in Hbody. apply andb_true_iff in Hbody as [_ Hbody].
    exists body, tail. auto.
Qed.

Lemma one_line_cons c line :
  Ascii.eqb c LF = false -> one_line line -> one_line (String c line).
Proof.
  intros Hc (body & tail & -> & Hbody & Htail).
  exists (String c body), tail. str_simpl. split; [reflexivity|].
  split; [|exact Htail]. simpl. unfold is_dot at 1. rewrite Hc. exact Hbody.
Qed.

Lemma readlines_one_line text :
  Forall one_line (readlines text).
Proof.
  induction text as [|c text IH]; [constructor|]. simpl.
  destruct (Ascii.eqb c LF) eqn:Hc.
  - constructor; [|exact IH]. apply Ascii.eqb_eq in Hc. subst c.
    exists "", (String LF ""). auto.
  - destruct (readlines text) as [|line lines].
    + repeat constructor. exists (String c ""), "".
      split; [reflexivity|]. split; [|auto]. simpl. unfold is_dot. rewrite Hc. reflexivity.
    + inversion IH as [|? ? Hline Hlines]; subst. constructor; [|exact Hlines].
      apply one_line_cons; assumption.
Qed.

Lemma first_non_space_None line :
  first_non_space line = None ->
  forallb is_space (list_ascii_of_string line) = true.
Proof.
  induction line as [|c line IH]; [reflexivity|]. simpl.
  destruct (is_space c); [exact IH | discriminate].
Qed.

Lemma first_non_space_hash line :
  one_line line -> first_non_space line = Some "#"%char ->
  re_match COMMENT_LINE line = true.
Proof.
  induction line as [|c line IH]; intros Hone Hfirst; [discriminate Hfirst|].
  simpl in Hfirst. destruct (is_space c) eqn:Hspace.
  - destruct (Ascii.eqb c LF) eqn:Hc.
    + apply Ascii.eqb_eq in Hc. subst c.
      destruct Hone as (body & tail & H & Hbody & Htail).
      destruct body as [|b body]; str_simpl.
      * destruct Htail as [-> | ->]; [discriminate H|].
        injection H as ->. discriminate Hfirst.
      * injection H as <- _. discriminate Hbody.
    + specialize (IH (one_line_tail _ _ Hone Hc) Hfirst).
      apply comment_line_spec in IH as (spaces & rest & tail & -> & Hs & Hr & Ht).
      apply comment_line_spec. exists (String c spaces), rest, tail.
      str_simpl. split; [reflexivity|]. simpl. rewrite Hspace. auto.
  - injection Hfirst as ->.
    assert (Hc : Ascii.eqb "#" LF = false) by reflexivity.
    destruct (one_line_tail _ _ Hone Hc) as (body & tail & -> & Hbody & Htail).
    apply comment_line_spec. exists "", body, tail. str_simpl. auto.
Qed.

(** A line whose first character that is not a space, if there is one, is
    a hash sign is skipped by [read_state_file]. *)
Lemma skipped_line line :
  one_line line ->
  match first_non_space line with
  | None => True
  | Some c => c = "#"%char
  end ->
  is_significant line = false.
Proof.
  intros Hone H. unfold is_significant.
  destruct (first_non_space line) as [c|] eqn:Hfirst.
  - subst c. rewrite (first_non_space_hash _ Hone Hfirst).
    apply andb_false_r.
  - apply first_non_space_None, blank_line_spec in Hfirst. rewrite Hfirst. reflexivity.
Qed.

(** X1.  A text whose lines are all blank or comments -- the first
    character of each that is not a space, if any, is a hash sign -- loads
    without error, and the state it leaves is the one of the reset: every
    registered label has the empty stack. *)
Theorem blank_and_comment_lines_load_the_empty_board alls text STATE0
    (Hconsistent : labels_consistent alls)
    (Hlines : Forall (fun line => match first_non_space line with
                                  | None => True
                                  | Some c => c = "#"%char
                                  end) (readlines text)) :
  read_state_file alls text STATE0 = (Ok tt, snd (reset_state alls STATE0)) /\
  forall position_label,
    contains alls position_label = true ->
    snd (read_state_file alls text STATE0) !! position_label = Some [None; None].
Proof.
  assert (Hskip : Forall (fun line => is_significant line = false) (readlines text)).
  { pose proof (readlines_one_line text) as Hone.
    induction Hlines as [|line lines Hline Hlines IH]; [constructor|].
    inversion Hone; subst. constructor; [apply skipped_line; assumption | auto]. }
  assert (Hok : forallb line_ok (readlines text) = true).
  { apply forallb_forall. intros line Hin. apply list_elem_of_In in Hin.
    unfold line_ok. rewrite (proj1 (Forall_forall _ _) Hskip line Hin). reflexivity. }
  assert (Hnone : concat (line_instructions <$> readlines text) = []).
  { clear Hok Hlines. induction Hskip as [|line lines Hline _ IH]; [reflexivity|].
    simpl. unfold line_instructions at 1. rewrite Hline. exact IH. }
  assert (Hload : read_state_file alls text STATE0 =
                    (Ok tt, snd (reset_state alls STATE0))).
  { rewrite read_state_file_unfold. unfold parse_instructions.
    rewrite read_lines_Ok by exact Hok. simpl. rewrite Hnone. reflexivity. }
  split; [exact Hload|]. intros position_label Hin. rewrite Hload.
  change (snd (Ok tt, snd (reset_state alls STATE0))) with (snd (reset_state alls STATE0)).
  rewrite reset_state_lookup, Hin by exact Hconsistent. reflexivity.
Qed.

Lemma blank_and_comment_lines_load_the_empty_board_witness :
  labels_consistent Hexagon_alls /\
  Forall (fun line => match first_non_space line with
                      | None => True
                      | Some c => c = "#"%char
                      end)
    (readlines (text_of_lines ["  # white king"; ""; "#K:a4"])) /\
  read_state_file Hexagon_alls (text_of_lines ["  # white king"; ""; "#K:a4"]) king_on_a4 =
    (Ok tt, snd (reset_state Hexagon_alls king_on_a4)) /\
  forall position_label,
    contains Hexagon_alls position_label = true ->
    snd (read_state_file Hexagon_alls
           (text_of_lines ["  # white king"; ""; "#K:a4"]) king_on_a4)
      !! position_label = Some [None; None].
Proof.
  assert (H : Forall (fun line => match first_non_space line with
                                  | None => True
                                  | Some c => c = "#"%char
                                  end)
                (readlines (text_of_lines ["  # white king"; ""; "#K:a4"]))).
  { vm_compute. repeat constructor. }
  split; [exact Hexagon_alls_consistent|]. split; [exact H|].
  exact (blank_and_comment_lines_load_the_empty_board Hexagon_alls _ king_on_a4
           Hexagon_alls_consistent H).
Defined.

(** ** The tokens of a text and the stacks they build *)

Lemma for_each_fmap {S A B} (f : A -> B) (l : list A) (body : B -> M S unit) s :
  for_each (f <$> l) body s = for_each l (fun x => body (f x)) s.
Proof.
  revert s. induction l as [|x l IH]; intros s; [reflexivity|].
  simpl. unfold bind. destruct (body (f x) s) as [[a|e] s']; [apply IH | reflexivity].
Qed.

Lemma for_each_ext {S A} (l : list A) (body1 body2 : A -> M S unit) s :
  Forall (fun x => forall s', body1 x s' = body2 x s') l ->
  for_each l body1 s = for_each l body2 s.
Proof.
  intros H. revert s. induction H as [|x l Hx _ IH]; intros s; [reflexivity|].
  simpl. unfold bind. rewrite Hx.
  destruct (body2 x s) as [[a|e] s']; [apply IH | reflexivity].
Qed.

Lemma is_token_matches token : is_token token -> re_match ITEM token = true.
Proof.
  intros H. apply re_match_true. left. apply matches_ITEM_is_token. exact H.
Qed.

(** A token splits at its colon into its code and its position, and its
    code is a key of [CUBE_COLORED_TYPES]. *)
Lemma is_token_split token :
  is_token token ->
  re_split ":" token = [token_code token; token_position token] /\
  is_Some (CUBE_COLORED_TYPES !! token_code token).
Proof.
  intros H. apply is_token_matches, re_match_ITEM in H
    as (c & position_label & -> & Hc & Hpos).
  split; [apply re_split_item; assumption|].
  apply contains_true, CUBE_COLORED_TYPES_keys. exists c.
  split; [reflexivity | apply cube_code_cases_iff; exact Hc].
Qed.

Lemma tokens_instructions text :
  concat (line_instructions <$> readlines text) = re_split ":" <$> tokens_of text.
Proof.
  unfold tokens_of. induction (readlines text) as [|line lines IH]; [reflexivity|].
  rewrite !fmap_cons. cbn [concat]. rewrite fmap_app, <- IH. f_equal.
  unfold line_instructions. destruct (is_significant line); reflexivity.
Qed.

Lemma tokens_line_ok text :
  forallb line_ok (readlines text) = true <-> Forall is_token (tokens_of text).
Proof.
  unfold tokens_of. induction (readlines text) as [|line lines IH].
  - split; [constructor | reflexivity].
  - rewrite fmap_cons. cbn [concat forallb].
    rewrite andb_true_iff, Forall_app, IH, line_ok_spec.
    destruct (is_significant line); split; intros [H1 H2]; split; auto;
      try constructor; intros E; discriminate E.
Qed.

Lemma parse_instructions_Ok text :
  Forall is_token (tokens_of text) ->
  parse_instructions text = Ok (re_split ":" <$> tokens_of text).
Proof.
  intros H. apply tokens_line_ok in H. unfold parse_instructions.
  rewrite read_lines_Ok by exact H. simpl. rewrite tokens_instructions. reflexivity.
Qed.

Lemma parse_instructions_Raise text :
  ~ Forall is_token (tokens_of text) ->
  exists item line,
    parse_instructions text =
      Raise (JersiError ("wrong item '" ++ item ++ "' in line '" ++ line ++ "'")).
Proof.
  intros H. destruct (forallb line_ok (readlines text)) eqn:E.
  - apply tokens_line_ok in E. contradiction.
  - apply first_failure in E as (before & line & after & Hlines & Hbefore & Hline).
    unfold line_ok in Hline. apply orb_false_iff in Hline as [Hsig Hitems].
    apply negb_false_iff in Hsig.
    apply first_failure in Hitems as (done & item & rest & Hitems & Hdone & Hitem).
    unfold parse_instructions. rewrite Hlines.
    rewrite (read_lines_Raise before line after done item rest) by assumption.
    eexists _, _. reflexivity.
Qed.

(** Either all the items of a text are tokens, or one is not. *)
Lemma tokens_of_cases text :
  Forall is_token (tokens_of text) \/ ~ Forall is_token (tokens_of text).
Proof.
  destruct (forallb line_ok (readlines text)) eqn:E.
  - left. apply tokens_line_ok. exact E.
  - right. intros H. apply tokens_line_ok in H. congruence.
Qed.

(** A text made of tokens is loaded by pushing the cube of each token on
    its position, in the order of the file, onto the empty board. *)
Lemma read_state_file_tokens alls text STATE0 :
  Forall is_token (tokens_of text) ->
  read_state_file alls text STATE0 =
    for_each (tokens_of text)
      (fun token =>
         set_cube_at_position alls (token_position token) (token_code token))
      (snd (reset_state alls STATE0)).
Proof.
  intros H. rewrite read_state_file_unfold, (parse_instructions_Ok _ H).
  rewrite for_each_fmap. apply for_each_ext.
  eapply Forall_impl; [exact H|]. intros token Htoken s. simpl.
  destruct (is_token_split _ Htoken) as [-> _]. reflexivity.
Qed.

Lemma cubes_at_snoc position_label tokens token cube :
  CUBE_COLORED_TYPES !! token_code token = Some cube ->
  cubes_at position_label (tokens ++ [token]) =
    (cubes_at position_label tokens ++
     if String.eqb (token_position token) position_label then [cube] else [])%list.
Proof.
  intros Hcube. unfold cubes_at. rewrite omap_app. f_equal. simpl.
  destruct (String.eqb (token_position token) position_label);
    [rewrite Hcube|]; reflexivity.
Qed.

Lemma apply_token_step alls done STATE token :
  holds_cubes_of alls done STATE ->
  is_token token ->
  contains alls (token_position token) = true ->
  if decide (length (cubes_at (token_position token) done) < 2) then
    exists STATE',
      set_cube_at_position alls (token_position token) (token_code token) STATE =
        (Ok tt, STATE') /\
      holds_cubes_of alls (done ++ [token]) STATE' /\
      forall key, contains alls key = false -> STATE' !! key = STATE !! key
  else
    set_cube_at_position alls (token_position token) (token_code token) STATE =
      (Raise (TypeError "exceptions must derive from BaseException"), STATE).
Proof.
  intros Hinv Htoken Hin.
  destruct (is_token_split _ Htoken) as [_ [cube Hcube]].
  destruct (Hinv _ Hin) as [Hst Hlen].
  assert (Hother : forall stack',
            slots_of (cubes_at (token_position token) done ++ [cube]) = stack' ->
            length (cubes_at (token_position token) done) < 2 ->
            holds_cubes_of alls (done ++ [token])
              (<[token_position token := stack']> STATE)).
  { intros stack' <- Hlt position_label Hp.
    rewrite (cubes_at_snoc _ _ _ _ Hcube).
    destruct (String.eqb_spec (token_position token) position_label) as [<-|Hne].
    - rewrite lookup_insert_eq, length_app. simpl. split; [reflexivity | lia].
    - rewrite lookup_insert_ne, app_nil_r by exact Hne. apply Hinv, Hp. }
  assert (Hframe : forall stack' key,
            contains alls key = false ->
            <[token_position token := stack']> STATE !! key = STATE !! key).
  { intros stack' key Hkey. apply lookup_insert_ne. intros <-. congruence. }
  destruct (cubes_at (token_position token) done) as [|bottom [|top rest]] eqn:Hcubes;
    simpl in Hst, Hlen.
  - rewrite decide_True by (simpl; lia).
    eexists. split; [eapply set_cube_bottom; eassumption|].
    split; [apply Hother; [reflexivity | simpl; lia] | apply Hframe].
  - rewrite decide_True by (simpl; lia).
    eexists. split; [eapply set_cube_top; eassumption|].
    split; [apply Hother; [reflexivity | simpl; lia] | apply Hframe].
  - rewrite decide_False by (simpl; lia).
    eapply set_cube_full; eassumption.
Qed.

Lemma apply_tokens_Ok_inv alls tokens : forall done STATE STATE',
  holds_cubes_of alls done STATE ->
  Forall is_token tokens ->
  for_each tokens
    (fun token => set_cube_at_position alls (token_position token) (token_code token))
    STATE = (Ok tt, STATE') ->
  Forall (fun token => contains alls (token_position token) = true) tokens /\
  holds_cubes_of alls (done ++ tokens) STATE' /\
  forall key, contains alls key = false -> STATE' !! key = STATE !! key.
Proof.
  induction tokens as [|token tokens IH]; intros done STATE STATE' Hinv Htokens Hrun.
  - simpl in Hrun. injection Hrun as <-. rewrite app_nil_r. auto.
  - inversion Htokens as [|? ? Htoken Htokens']; subst.
    simpl in Hrun. apply bind_inv_Ok in Hrun as ([] & STATE1 & Hstep & Hrest).
    destruct (contains alls (token_position token)) eqn:Hin.
    + pose proof (apply_token_step _ _ _ _ Hinv Htoken Hin) as Hcase.
      destruct (decide (length (cubes_at (token_position token) done) < 2)).
      * destruct Hcase as (STATE1' & Hstep' & Hinv' & Hframe).
        rewrite Hstep in Hstep'. injection Hstep' as <-.
        destruct (IH _ _ _ Hinv' Htokens' Hrest) as (Hreg & Hfinal & Hframe').
        rewrite <- app_assoc in Hfinal. split; [constructor; assumption|].
        split; [exact Hfinal|]. intros key Hkey.
        rewrite Hframe', Hframe by exact Hkey. reflexivity.
      * rewrite Hstep in Hcase. discriminate Hcase.
    + rewrite set_cube_unknown_label in Hstep by exact Hin. discriminate Hstep.
Qed.

Lemma apply_tokens_Ok alls tokens : forall done STATE,
  holds_cubes_of alls done STATE ->
  Forall is_token tokens ->
  Forall (fun token => contains alls (token_position token) = true) tokens ->
  (forall position_label, length (cubes_at position_label (done ++ tokens)) <= 2) ->
  exists STATE',
    for_each tokens
      (fun token => set_cube_at_position alls (token_position token) (token_code token))
      STATE = (Ok tt, STATE').
Proof.
  induction tokens as [|token tokens IH]; intros done STATE Hinv Htokens Hreg Hbound.
  - eexists. reflexivity.
  - inversion Htokens as [|? ? Htoken Htokens']; subst.
    inversion Hreg as [|? ? Hin Hreg']; subst.
    pose proof (apply_token_step _ _ _ _ Hinv Htoken Hin) as Hcase.
    destruct (is_token_split _ Htoken) as [_ [cube Hcube]].
    destruct (decide (length (cubes_at (token_position token) done) < 2)) as [Hlt|Hge].
    + destruct Hcase as (STATE1 & Hstep & Hinv' & _).
      destruct (IH (done ++ [token])%list STATE1 Hinv' Htokens' Hreg') as [STATE' Hrun].
      { intros p. rewrite <- app_assoc. apply Hbound. }
      exists STATE'. simpl. rewrite (bind_Ok _ _ _ _ _ Hstep). exact Hrun.
    + exfalso. specialize (Hbound (token_position token)).
      unfold cubes_at in Hbound, Hge.
      rewrite omap_app in Hbound. simpl in Hbound.
      rewrite String.eqb_refl, Hcube in Hbound.
      rewrite length_app in Hbound. simpl in Hbound. lia.
Qed.

Lemma reset_holds_no_cubes alls STATE0 :
  labels_consistent alls ->
  holds_cubes_of alls [] (snd (reset_state alls STATE0)).
Proof.
  intros Hc position_label Hin.
  rewrite reset_state_lookup, Hin by exact Hc. simpl. split; [reflexivity | lia].
Qed.

(** X2.  A load succeeds exactly when every item of the text is a token,
    every token names a registered label, and no label is named by more
    than two tokens. *)
Theorem load_succeeds_iff alls text STATE0
    (Hconsistent : labels_consistent alls) :
  (exists STATE1, read_state_file alls text STATE0 = (Ok tt, STATE1)) <->
  Forall is_token (tokens_of text) /\
  Forall (fun token => contains alls (token_position token) = true) (tokens_of text) /\
  forall position_label, length (cubes_at position_label (tokens_of text)) <= 2.
Proof.
  pose proof (reset_holds_no_cubes alls STATE0 Hconsistent) as Hreset.
  split.
  - intros [STATE1 Hload].
    assert (Htokens : Forall is_token (tokens_of text)).
    { destruct (tokens_of_cases text) as [H|H]; [exact H|].
      apply parse_instructions_Raise in H as (item & line & H).
      rewrite read_state_file_unfold, H in Hload. discriminate Hload. }
    rewrite (read_state_file_tokens _ _ _ Htokens) in Hload.
    destruct (apply_tokens_Ok_inv _ _ _ _ _ Hreset Htokens Hload) as (Hreg & Hinv & _).
    split; [exact Htokens|]. split; [exact Hreg|].
    intros position_label. destruct (contains alls position_label) eqn:Hin.
    + apply Hinv, Hin.
    + assert (Hnone : cubes_at position_label (tokens_of text) = []).
      { clear -Hreg Hin. unfold cubes_at.
        induction Hreg as [|token tokens Htoken _ IH]; [reflexivity|]. simpl.
        destruct (String.eqb_spec (token_position token) position_label) as [E|_];
          [congruence | exact IH]. }
      rewrite Hnone. simpl. lia.
  - intros (Htokens & Hreg & Hbound).
    rewrite (read_state_file_tokens _ _ _ Htokens).
    exact (apply_tokens_Ok _ _ [] _ Hreset Htokens Hreg Hbound).
Qed.

Lemma load_succeeds_iff_witness :
  labels_consistent Hexagon_alls /\
  ((exists STATE1,
      read_state_file Hexagon_alls (text_of_lines ["W:c / w:g"; "W:c"]) ∅ =
        (Ok tt, STATE1)) <->
   Forall is_token (tokens_of (text_of_lines ["W:c / w:g"; "W:c"])) /\
   Forall (fun token => contains Hexagon_alls (token_position token) = true)
     (tokens_of (text_of_lines ["W:c / w:g"; "W:c"])) /\
   forall position_label,
     length (cubes_at position_label (tokens_of (text_of_lines ["W:c / w:g"; "W:c"])))
       <= 2).
Proof.
  split; [exact Hexagon_alls_consistent|].
  exact (load_succeeds_iff Hexagon_alls (text_of_lines ["W:c / w:g"; "W:c"]) ∅
           Hexagon_alls_consistent).
Defined.

(** X3.  After a load that succeeds, the stack of a registered label
    holds the cubes of the tokens that name the label, in the order of the
    file, bottom first; an entry whose key is not a registered label is as
    it was before the load. *)
Theorem loaded_stacks_follow_file_order alls text STATE0 STATE1
    (Hconsistent : labels_consistent alls)
    (Hload : read_state_file alls text STATE0 = (Ok tt, STATE1)) :
  forall position_label,
    STATE1 !! position_label =
      if contains alls position_label
      then Some (slots_of (cubes_at position_label (tokens_of text)))
      else STATE0 !! position_label.
Proof.
  pose proof (reset_holds_no_cubes alls STATE0 Hconsistent) as Hreset.
  assert (Htokens : Forall is_token (tokens_of text)).
  { destruct (tokens_of_cases text) as [H|H]; [exact H|].
    apply parse_instructions_Raise in H as (item & line & H).
    rewrite read_state_file_unfold, H in Hload. discriminate Hload. }
  rewrite (read_state_file_tokens _ _ _ Htokens) in Hload.
  destruct (apply_tokens_Ok_inv _ _ _ _ _ Hreset Htokens Hload) as (_ & Hinv & Hframe).
  intros position_label. destruct (contains alls position_label) eqn:Hin.
  - apply Hinv, Hin.
  - rewrite Hframe by exact Hin.
    rewrite reset_state_lookup, Hin by exact Hconsistent. reflexivity.
Qed.

Lemma loaded_stacks_follow_file_order_witness :
  labels_consistent Hexagon_alls /\
  read_state_file Hexagon_alls (text_of_lines ["W:c / w:g"; "M:c"]) ∅ =
    (Ok tt, snd (read_state_file Hexagon_alls (text_of_lines ["W:c / w:g"; "M:c"]) ∅)) /\
  snd (read_state_file Hexagon_alls (text_of_lines ["W:c / w:g"; "M:c"]) ∅) !! "c" =
    Some [Some (WISE, WHITE); Some (MOUNTAIN, WHITE)].
Proof.
  assert (Hload :
    read_state_file Hexagon_alls (text_of_lines ["W:c / w:g"; "M:c"]) ∅ =
      (Ok tt, snd (read_state_file Hexagon_alls (text_of_lines ["W:c / w:g"; "M:c"]) ∅))).
  { destruct (read_state_file Hexagon_alls (text_of_lines ["W:c / w:g"; "M:c"]) ∅)
      as [r STATE1] eqn:E.
    assert (Hr : r = fst (read_state_file Hexagon_alls
                            (text_of_lines ["W:c / w:g"; "M:c"]) ∅))
      by (rewrite E; reflexivity).
    rewrite Hr. vm_compute. reflexivity. }
  split; [exact Hexagon_alls_consistent|]. split; [exact Hload|].
  rewrite (loaded_stacks_follow_file_order Hexagon_alls _ ∅ _
             Hexagon_alls_consistent Hload "c").
  vm_compute. reflexivity.
Defined.

(** ** What a load rejects *)

Lemma In_tokens_of text line item :
  line ∈ readlines text -> is_significant line = true -> item ∈ items_of line ->
  item ∈ tokens_of text.
Proof.
  intros Hline Hsig Hitem. unfold tokens_of.
  induction (readlines text) as [|l lines IH]; [inversion Hline|].
  rewrite fmap_cons. cbn [concat]. apply elem_of_app.
  apply elem_of_cons in Hline as [<- | Hline].
  - left. rewrite Hsig. exact Hitem.
  - right. apply IH, Hline.
Qed.

(** An item that is not a token, on a line that is neither blank nor a
    comment, makes the load raise an error of the program about some
    item, with the state of the reset left behind. *)
Lemma malformed_line_raises alls text STATE0 line item :
  line ∈ readlines text -> is_significant line = true -> item ∈ items_of line ->
  ~ is_token item ->
  exists item' line',
    read_state_file alls text STATE0 =
      (Raise (JersiError ("wrong item '" ++ item' ++ "' in line '" ++ line' ++ "'")),
       snd (reset_state alls STATE0)).
Proof.
  intros Hline Hsig Hitem Hbad.
  assert (H : ~ Forall is_token (tokens_of text)).
  { intros H. apply Hbad. apply (proj1 (Forall_forall _ _) H).
    eapply In_tokens_of; eassumption. }
  apply parse_instructions_Raise in H as (item' & line' & H).
  exists item', line'. rewrite read_state_file_unfold, H. reflexivity.
Qed.

Lemma In_remove_spaces c line :
  In c (list_ascii_of_string line) -> is_space c = false ->
  In c (list_ascii_of_string (remove_spaces line)).
Proof.
  intros Hin Hc. induction line as [|x line IH]; [contradiction|].
  simpl in Hin. simpl. destruct Hin as [-> | Hin].
  - rewrite Hc. left. reflexivity.
  - destruct (is_space x); [|right]; apply IH, Hin.
Qed.

Lemma re_split_not_nil sep s : re_split sep s <> [].
Proof.
  destruct s as [|c s]; simpl; [discriminate|].
  destruct (Ascii.eqb c sep); [discriminate|].
  destruct (re_split sep s); discriminate.
Qed.

Lemma In_re_split sep s c :
  In c (list_ascii_of_string s) -> Ascii.eqb c sep = false ->
  exists piece, piece ∈ re_split sep s /\ In c (list_ascii_of_string piece).
Proof.
  intros Hin Hc. induction s as [|x s IH]; [contradiction|].
  simpl in Hin. simpl. destruct (Ascii.eqb x sep) eqn:Hx.
  - destruct Hin as [-> | Hin]; [congruence|].
    destruct (IH Hin) as (piece & Hpiece & Hcp).
    exists piece. split; [apply list_elem_of_further, Hpiece | exact Hcp].
  - destruct (re_split sep s) as [|p ps] eqn:Hs.
    + exfalso. exact (re_split_not_nil _ _ Hs).
    + destruct Hin as [-> | Hin].
      * exists (String c p). split; [apply list_elem_of_here | left; reflexivity].
      * destruct (IH Hin) as (piece & Hpiece & Hcp).
        apply elem_of_cons in Hpiece as [-> | Hpiece].
        -- exists (String x p). split; [apply list_elem_of_here | right; exact Hcp].
        -- exists piece. split; [apply list_elem_of_further, Hpiece | exact Hcp].
Qed.

Lemma token_characters token c :
  is_token token -> In c (list_ascii_of_string token) ->
  In c (list_ascii_of_string "KFRPSMWkfrpsmw:abcdefghi123456789").
Proof.
  intros (code & row & column & -> & Hcode & Hrow & Hcolumn) Hin.
  change (list_ascii_of_string "KFRPSMWkfrpsmw:abcdefghi123456789")
    with (list_ascii_of_string "KFRPSMWkfrpsmw" ++ [":"%char] ++
          list_ascii_of_string "abcdefghi" ++ list_ascii_of_string "123456789")%list.
  rewrite !in_app_iff. simpl in Hin.
  destruct Hin as [<- | [<- | [<- | Hin]]]; auto.
  - right. left. left. reflexivity.
  - destruct Hcolumn as [-> | (digit & -> & Hdigit)]; [contradiction|].
    simpl in Hin. destruct Hin as [<- | []]. auto.
Qed.

(** X4.  On a line that is neither blank nor a comment, a character that
    is not a space and is none of the characters of the tokens and the
    slash makes the load raise the error of the program about an item; the
    state left behind is the one of the reset.  A comment after an item is
    such a case. *)
Theorem foreign_character_raises alls text STATE0 line c
    (Hline : line ∈ readlines text)
    (Hsignificant : is_significant line = true)
    (Hc : In c (list_ascii_of_string line))
    (Hspace : is_space c = false)
    (Hforeign : ~ In c (list_ascii_of_string "KFRPSMWkfrpsmw:abcdefghi123456789/")) :
  exists item' line',
    read_state_file alls text STATE0 =
      (Raise (JersiError ("wrong item '" ++ item' ++ "' in line '" ++ line' ++ "'")),
       snd (reset_state alls STATE0)).
Proof.
  assert (Hsep : Ascii.eqb c "/" = false).
  { apply Ascii.eqb_neq. intros ->. apply Hforeign. simpl. tauto. }
  destruct (In_re_split "/" _ c (In_remove_spaces _ _ Hc Hspace) Hsep)
    as (item & Hitem & Hcitem).
  apply (malformed_line_raises alls text STATE0 line item Hline Hsignificant Hitem).
  intros Htoken. apply Hforeign.
  pose proof (token_characters _ _ Htoken Hcitem) as H.
  change (list_ascii_of_string "KFRPSMWkfrpsmw:abcdefghi123456789/")
    with (list_ascii_of_string "KFRPSMWkfrpsmw:abcdefghi123456789" ++ ["/"%char])%list.
  apply in_app_iff. left. exact H.
Qed.

Lemma foreign_character_raises_witness :
  String "K" (String ":" (String "a" (String "4" (String "#" (String LF "")))))
    ∈ readlines (text_of_lines ["K:a4#"]) /\
  is_significant
    (String "K" (String ":" (String "a" (String "4" (String "#" (String LF ""))))))
    = true /\
  In "#"%char (list_ascii_of_string
    (String "K" (String ":" (String "a" (String "4" (String "#" (String LF ""))))))) /\
  is_space "#" = false /\
  ~ In "#"%char (list_ascii_of_string "KFRPSMWkfrpsmw:abcdefghi123456789/") /\
  exists item' line',
    read_state_file Hexagon_alls (text_of_lines ["K:a4#"]) ∅ =
      (Raise (JersiError ("wrong item '" ++ item' ++ "' in line '" ++ line' ++ "'")),
       snd (reset_state Hexagon_alls ∅)).
Proof.
  assert (H1 : String "K" (String ":" (String "a" (String "4" (String "#" (String LF "")))))
                 ∈ readlines (text_of_lines ["K:a4#"]))
    by (vm_compute; apply list_elem_of_here).
  assert (H3 : In "#"%char (list_ascii_of_string
    (String "K" (String ":" (String "a" (String "4" (String "#" (String LF "")))))))).
  { simpl. tauto. }
  assert (H5 : ~ In "#"%char (list_ascii_of_string "KFRPSMWkfrpsmw:abcdefghi123456789/")).
  { simpl. intuition discriminate. }
  split; [exact H1|]. split; [vm_compute; reflexivity|]. split; [exact H3|].
  split; [reflexivity|]. split; [exact H5|].
  exact (foreign_character_raises Hexagon_alls (text_of_lines ["K:a4#"]) ∅ _ "#"%char
           H1 eq_refl H3 eq_refl H5).
Defined.

Lemma re_split_app_sep sep s1 s2 :
  re_split sep (s1 ++ String sep s2) = (re_split sep s1 ++ re_split sep s2)%list.
Proof.
  induction s1 as [|c s1 IH]; str_simpl.
  - simpl. rewrite Ascii.eqb_refl. reflexivity.
  - simpl. rewrite IH. destruct (Ascii.eqb c sep); [reflexivity|].
    destruct (re_split sep s1) as [|p ps] eqn:Hs; [|reflexivity].
    exfalso. exact (re_split_not_nil _ _ Hs).
Qed.

Lemma re_split_head sep s : exists piece pieces, re_split sep s = piece :: pieces.
Proof.
  destruct (re_split sep s) as [|p ps] eqn:Hs; [|eauto].
  exfalso. exact (re_split_not_nil _ _ Hs).
Qed.

(** X5.  A slash that begins or ends a line, or follows another slash,
    leaves an empty item: on a line that is neither blank nor a comment the
    load raises the error of the program about an item, and the state left
    behind is the one of the reset. *)
Theorem empty_item_raises alls text STATE0 line
    (Hline : line ∈ readlines text)
    (Hsignificant : is_significant line = true)
    (Hslash : (exists s, remove_spaces line = String "/" s) \/
              (exists s, remove_spaces line = s ++ "/") \/
              (exists s1 s2, remove_spaces line = s1 ++ "//" ++ s2)) :
  exists item' line',
    read_state_file alls text STATE0 =
      (Raise (JersiError ("wrong item '" ++ item' ++ "' in line '" ++ line' ++ "'")),
       snd (reset_state alls STATE0)).
Proof.
  apply (malformed_line_raises alls text STATE0 line "" Hline Hsignificant).
  - unfold items_of.
    destruct Hslash as [(s & ->) | [(s & ->) | (s1 & s2 & ->)]].
    + simpl. apply list_elem_of_here.
    + rewrite re_split_app_sep. apply elem_of_app. right. apply list_elem_of_here.
    + change ("//" ++ s2) with (String "/" (String "/" s2)).
      rewrite re_split_app_sep. apply elem_of_app. right.
      simpl. apply list_elem_of_here.
  - intros (code & row & column & H & _). discriminate H.
Qed.

Lemma empty_item_raises_witness :
  String "K" (String ":" (String "a" (String "4" (String "/" (String LF "")))))
    ∈ readlines (text_of_lines ["K:a4/"]) /\
  is_significant
    (String "K" (String ":" (String "a" (String "4" (String "/" (String LF ""))))))
    = true /\
  ((exists s, remove_spaces
      (String "K" (String ":" (String "a" (String "4" (String "/" (String LF ""))))))
      = String "/" s) \/
   (exists s, remove_spaces
      (String "K" (String ":" (String "a" (String "4" (String "/" (String LF ""))))))
      = s ++ "/") \/
   (exists s1 s2, remove_spaces
      (String "K" (String ":" (String "a" (String "4" (String "/" (String LF ""))))))
      = s1 ++ "//" ++ s2)) /\
  exists item' line',
    read_state_file Hexagon_alls (text_of_lines ["K:a4/"]) ∅ =
      (Raise (JersiError ("wrong item '" ++ item' ++ "' in line '" ++ line' ++ "'")),
       snd (reset_state Hexagon_alls ∅)).
Proof.
  assert (H1 : String "K" (String ":" (String "a" (String "4" (String "/" (String LF "")))))
                 ∈ readlines (text_of_lines ["K:a4/"]))
    by (vm_compute; apply list_elem_of_here).
  assert (H3 : (exists s, remove_spaces
      (String "K" (String ":" (String "a" (String "4" (String "/" (String LF ""))))))
      = String "/" s) \/
   (exists s, remove_spaces
      (String "K" (String ":" (String "a" (String "4" (String "/" (String LF ""))))))
      = s ++ "/") \/
   (exists s1 s2, remove_spaces
      (String "K" (String ":" (String "a" (String "4" (String "/" (String LF ""))))))
      = s1 ++ "//" ++ s2)).
  { right. left. exists "K:a4". reflexivity. }
  split; [exact H1|]. split; [vm_compute; reflexivity|]. split; [exact H3|].
  exact (empty_item_raises Hexagon_alls (text_of_lines ["K:a4/"]) ∅ _ H1 eq_refl H3).
Defined.

(** ** How pushes compose *)

Lemma set_cube_Ok_intro alls STATE position_label cube_label cube stack stack' :
  contains alls position_label = true ->
  CUBE_COLORED_TYPES !! cube_label = Some cube ->
  STATE !! position_label = Some stack ->
  (exists rest, stack = None :: rest /\ stack' = Some cube :: rest) \/
  (exists bottom rest, stack = Some bottom :: None :: rest /\
                       stack' = Some bottom :: Some cube :: rest) ->
  set_cube_at_position alls position_label cube_label STATE =
    (Ok tt, <[position_label := stack']> STATE).
Proof.
  intros Hin Hcube Hst Hcases.
  unfold set_cube_at_position, setitem2, bind, jersi_assert, get, put, getitem,
    list_getitem, ret.
  rewrite Hin. cbn [negb]. rewrite Hst.
  destruct Hcases as [(rest & -> & ->) | (bottom & rest & -> & ->)]; cbn;
    rewrite Hcube; cbn; rewrite Hst; reflexivity.
Qed.

(** X6.  Two pushes on different labels that succeed in one order
    succeed in the other order as well and give the same state. *)
Theorem pushes_on_different_labels_commute alls STATE STATE'
    position_label1 cube_label1 position_label2 cube_label2
    (Hdifferent : position_label1 <> position_label2)
    (Hrun : (set_cube_at_position alls position_label1 cube_label1 ;;
             set_cube_at_position alls position_label2 cube_label2) STATE =
            (Ok tt, STATE')) :
  (set_cube_at_position alls position_label2 cube_label2 ;;
   set_cube_at_position alls position_label1 cube_label1) STATE = (Ok tt, STATE').
Proof.
  apply bind_inv_Ok in Hrun as ([] & STATE1 & H1 & H2).
  apply set_cube_Ok_inv in H1
    as (Hin1 & cube1 & stack1 & stack1' & Hcube1 & Hst1 & -> & Hcases1).
  apply set_cube_Ok_inv in H2
    as (Hin2 & cube2 & stack2 & stack2' & Hcube2 & Hst2 & -> & Hcases2).
  rewrite lookup_insert_ne in Hst2 by exact Hdifferent.
  rewrite (bind_Ok _ _ _ _ _
             (set_cube_Ok_intro _ _ _ _ _ _ _ Hin2 Hcube2 Hst2 Hcases2)).
  rewrite (set_cube_Ok_intro alls _ position_label1 cube_label1 cube1 stack1 stack1'
             Hin1 Hcube1); [|rewrite lookup_insert_ne by congruence; exact Hst1
                            |exact Hcases1].
  rewrite insert_insert_ne by exact Hdifferent. reflexivity.
Qed.

Lemma pushes_on_different_labels_commute_witness :
  "a4" <> "i4" /\
  (set_cube_at_position Hexagon_alls "a4" "K" ;;
   set_cube_at_position Hexagon_alls "i4" "k") (snd (reset_state Hexagon_alls ∅)) =
    (Ok tt, snd (read_state_file Hexagon_alls (text_of_lines ["K:a4"; "k:i4"]) ∅)) /\
  (set_cube_at_position Hexagon_alls "i4" "k" ;;
   set_cube_at_position Hexagon_alls "a4" "K") (snd (reset_state Hexagon_alls ∅)) =
    (Ok tt, snd (read_state_file Hexagon_alls (text_of_lines ["K:a4"; "k:i4"]) ∅)).
Proof.
  assert (Hne : "a4" <> "i4") by discriminate.
  assert (Hrun :
    (set_cube_at_position Hexagon_alls "a4" "K" ;;
     set_cube_at_position Hexagon_alls "i4" "k") (snd (reset_state Hexagon_alls ∅)) =
      (Ok tt, snd (read_state_file Hexagon_alls (text_of_lines ["K:a4"; "k:i4"]) ∅)))
    by (vm_compute; reflexivity).
  split; [exact Hne|]. split; [exact Hrun|].
  exact (pushes_on_different_labels_commute Hexagon_alls _ _ "a4" "K" "i4" "k" Hne Hrun).
Defined.

(** ** What a reset leaves *)

Lemma cubes_of_empty_stacks (l : list (string * Stack)) :
  Forall (fun entry => snd entry = [None; None]) l ->
  (l ≫= fun '(position_label, stack) =>
          stack_cubes stack ≫= fun cube => [(position_label, cube)]) = [].
Proof.
  induction 1 as [|[position_label stack] l Hx _ IH]; [reflexivity|].
  simpl in Hx. subst stack. cbn. exact IH.
Qed.

(** X7.  A reset forgets the position it finds: when the keys of the
    state are registered labels, the state it leaves is the one that gives
    every registered label the empty stack, whatever the stacks were; it
    holds no cube, and a second reset changes nothing. *)
Theorem reset_state_forgets alls STATE0
    (Hconsistent : labels_consistent alls)
    (Hkeys : dom STATE0 ⊆ dom alls) :
  snd (reset_state alls STATE0) = (fun _ => [None; None]) <$> alls /\
  cubes_of (snd (reset_state alls STATE0)) = [] /\
  reset_state alls (snd (reset_state alls STATE0)) = reset_state alls STATE0.
Proof.
  assert (Hreset : snd (reset_state alls STATE0) = (fun _ => [None; None]) <$> alls).
  { apply map_eq. intros key.
    rewrite reset_state_lookup, lookup_fmap by exact Hconsistent. unfold contains.
    destruct (alls !! key) as [hexagon|] eqn:Hkey; [reflexivity|]. simpl.
    apply not_elem_of_dom. intros Hin. apply Hkeys in Hin.
    apply elem_of_dom in Hin. rewrite Hkey in Hin. destruct Hin; discriminate. }
  split; [exact Hreset|]. split.
  - rewrite Hreset. unfold cubes_of. apply cubes_of_empty_stacks.
    apply Forall_forall. intros [key stack] Hin.
    apply elem_of_map_to_list in Hin. rewrite lookup_fmap in Hin.
    destruct (alls !! key); simpl in Hin; [|discriminate]. simpl. congruence.
  - set (STATE_reset := snd (reset_state alls STATE0)).
    rewrite (reset_state_Ok alls STATE_reset), (reset_state_Ok alls STATE0).
    fold STATE_reset. f_equal. apply map_eq. intros key. subst STATE_reset.
    rewrite !reset_state_lookup by exact Hconsistent.
    destruct (contains alls key); reflexivity.
Qed.

Lemma reset_state_forgets_witness :
  labels_consistent Hexagon_alls /\
  dom initial_position ⊆ dom Hexagon_alls /\
  snd (reset_state Hexagon_alls initial_position) =
    (fun _ => [None; None]) <$> Hexagon_alls /\
  cubes_of (snd (reset_state Hexagon_alls initial_position)) = [] /\
  reset_state Hexagon_alls (snd (reset_state Hexagon_alls initial_position)) =
    reset_state Hexagon_alls initial_position.
Proof.
  assert (Hkeys : dom initial_position ⊆ dom Hexagon_alls).
  { apply (bool_decide_unpack _). vm_compute. reflexivity. }
  split; [exact Hexagon_alls_consistent|]. split; [exact Hkeys|].
  exact (reset_state_forgets Hexagon_alls initial_position Hexagon_alls_consistent Hkeys).
Defined.

(** ** The states of the program *)

Lemma reset_state_dom alls STATE0 :
  labels_consistent alls ->
  dom (snd (reset_state alls STATE0)) = dom STATE0 ∪ dom alls.
Proof.
  intros Hc. apply set_eq. intros key.
  rewrite elem_of_union, !elem_of_dom, reset_state_lookup by exact Hc.
  unfold contains. destruct (alls !! key) as [hexagon|]; simpl.
  - split; [right|]; eauto.
  - split; [left; assumption|]. intros [H|[x H]]; [exact H | discriminate H].
Qed.

Lemma reset_state_stack_ok alls STATE0 :
  labels_consistent alls ->
  map_Forall (fun _ stack => stack_ok stack) STATE0 ->
  map_Forall (fun _ stack => stack_ok stack) (snd (reset_state alls STATE0)).
Proof.
  intros Hc Hok key stack. rewrite reset_state_lookup by exact Hc.
  destruct (contains alls key).
  - intros H. injection H as <-. exact I.
  - apply Hok.
Qed.

Lemma set_cube_keeps_dom alls STATE position_label cube_label :
  dom (snd (set_cube_at_position alls position_label cube_label STATE)) = dom STATE.
Proof.
  destruct (set_cube_at_position alls position_label cube_label STATE)
    as [[[]|e] STATE'] eqn:E; simpl.
  - apply set_cube_Ok_inv in E as (_ & cube & stack & stack' & _ & Hst & -> & _).
    rewrite dom_insert_L. apply elem_of_dom_2 in Hst.
    apply subseteq_union_1_L, singleton_subseteq_l, Hst.
  - apply set_cube_Raise_unchanged in E. congruence.
Qed.

(** X8.  In every state of the program -- the empty dict of the module,
    then whatever resets and pushes, successful or not, make of it -- the
    keys are registered labels: the state is empty or its keys are exactly
    the registered labels.  Every stack has its two slots and fills bottom
    first, so that the loop of [draw_state] goes through each entry without
    error and finds the hexagon of each key. *)
Theorem program_states_are_well_formed alls STATE
    (Hconsistent : labels_consistent alls)
    (Hstate : program_state alls STATE) :
  (STATE = ∅ \/ dom STATE = dom alls) /\
  forall key stack,
    STATE !! key = Some stack ->
    is_Some (alls !! key) /\
    stack_ok stack /\
    forall canvas, fst (draw_position key stack canvas) = Ok tt.
Proof.
  assert (H : (STATE = ∅ \/ dom STATE = dom alls) /\
              map_Forall (fun _ stack => stack_ok stack) STATE).
  { induction Hstate as [|STATE _ [Hdom Hok]|STATE p c _ [Hdom Hok]].
    - split; [left; reflexivity | apply map_Forall_empty].
    - split; [|apply reset_state_stack_ok; assumption].
      right. rewrite reset_state_dom by exact Hconsistent.
      destruct Hdom as [-> | ->];
        [rewrite dom_empty_L; apply (left_id_L ∅ (∪)) | apply (idemp_L (∪))].
    - split.
      + destruct Hdom as [-> | Hdom].
        * left. apply dom_empty_inv_L. rewrite set_cube_keeps_dom. apply dom_empty_L.
        * right. rewrite set_cube_keeps_dom. exact Hdom.
      + destruct (set_cube_at_position alls p c STATE) as [[[]|e] STATE'] eqn:E; simpl.
        * eapply set_cube_stack_ok; eassumption.
        * apply set_cube_Raise_unchanged in E. subst. exact Hok. }
  destruct H as [Hdom Hok]. split; [exact Hdom|].
  intros key stack Hst. split; [|split].
  - destruct Hdom as [-> | Hdom]; [rewrite lookup_empty in Hst; discriminate|].
    apply elem_of_dom. rewrite <- Hdom. apply elem_of_dom. eauto.
  - exact (Hok _ _ Hst).
  - intros canvas. apply draw_position_Ok. exact (Hok _ _ Hst).
Qed.

Lemma program_states_are_well_formed_witness :
  labels_consistent Hexagon_alls /\
  program_state Hexagon_alls
    (snd (set_cube_at_position Hexagon_alls "c" "W" (snd (reset_state Hexagon_alls ∅)))) /\
  ((snd (set_cube_at_position Hexagon_alls "c" "W" (snd (reset_state Hexagon_alls ∅)))
      = ∅ \/
    dom (snd (set_cube_at_position Hexagon_alls "c" "W"
                (snd (reset_state Hexagon_alls ∅)))) = dom Hexagon_alls) /\
   forall key stack,
     snd (set_cube_at_position Hexagon_alls "c" "W" (snd (reset_state Hexagon_alls ∅)))
       !! key = Some stack ->
     is_Some (Hexagon_alls !! key) /\
     stack_ok stack /\
     forall canvas, fst (draw_position key stack canvas) = Ok tt).
Proof.
  assert (Hstate : program_state Hexagon_alls
    (snd (set_cube_at_position Hexagon_alls "c" "W" (snd (reset_state Hexagon_alls ∅))))).
  { apply program_set, program_reset, program_start. }
  split; [exact Hexagon_alls_consistent|]. split; [exact Hstate|].
  exact (program_states_are_well_formed Hexagon_alls _ Hexagon_alls_consistent Hstate).
Defined.

(** ** A registry built by a sequence of calls *)

Lemma Hexagon_eta hexagon :
  mkHexagon (label hexagon) (position_uv hexagon) (color hexagon)
    (is_extra hexagon) (extra_shift hexagon) = hexagon.
Proof. destruct hexagon. reflexivity. Qed.

Lemma Hexagon_add_all_from hexagons : forall alls0 alls,
  Hexagon_add_all hexagons alls0 = (Ok tt, alls) <->
  NoDup (label <$> hexagons) /\
  Forall (fun hexagon => alls0 !! label hexagon = None) hexagons /\
  Forall (fun hexagon => is_extra hexagon = is_not_None (extra_shift hexagon)) hexagons /\
  alls = list_to_map ((fun hexagon => (label hexagon, hexagon)) <$> hexagons) ∪ alls0.
Proof.
  unfold Hexagon_add_all.
  induction hexagons as [|hexagon hexagons IH]; intros alls0 alls.
  - simpl. unfold ret. rewrite (left_id_L ∅ (∪)). split.
    + intros H. injection H as <-. repeat split; constructor.
    + intros (_ & _ & _ & ->). reflexivity.
  - rewrite fmap_cons, NoDup_cons, !Forall_cons. cbn [for_each fmap list_fmap list_to_map foldr].
    split.
    + intros H. apply bind_inv_Ok in H as ([] & alls1 & Hadd & Hrest).
      destruct (alls0 !! label hexagon) as [h|] eqn:Hfresh.
      { rewrite Hexagon_add_duplicate in Hadd by eauto. discriminate Hadd. }
      destruct (bool_decide (is_extra hexagon = is_not_None (extra_shift hexagon))) eqn:E.
      2: { apply bool_decide_eq_false in E.
           rewrite Hexagon_add_inconsistent in Hadd by assumption. discriminate Hadd. }
      apply bool_decide_eq_true in E.
      rewrite Hexagon_add_fresh, Hexagon_eta in Hadd by assumption.
      injection Hadd as <-.
      apply IH in Hrest as (Hnodup & Hfreshs & Hcons & ->).
      assert (Hnotin : label hexagon ∉ label <$> hexagons).
      { intros Hin. apply list_elem_of_fmap in Hin as (h' & Hlabel & Hin).
        apply (proj1 (Forall_forall _ _) Hfreshs) in Hin.
        rewrite <- Hlabel, lookup_insert_eq in Hin. discriminate Hin. }
      repeat split; try assumption.
      * eapply Forall_impl; [exact Hfreshs|]. intros h' Hh'. simpl in Hh'.
        destruct (decide (label hexagon = label h')) as [Heq|Hne].
        -- rewrite Heq, lookup_insert_eq in Hh'. discriminate Hh'.
        -- rewrite lookup_insert_ne in Hh' by exact Hne. exact Hh'.
      * simpl. rewrite <- insert_union_l. symmetry. apply insert_union_r.
        apply not_elem_of_list_to_map_1. rewrite <- list_fmap_compose. exact Hnotin.
    + intros ((Hnotin & Hnodup) & (Hfresh & Hfreshs) & (Hcon & Hcons) & ->).
      rewrite (bind_Ok _ _ _ _ _
                 (Hexagon_add_fresh _ _ _ _ _ _ Hfresh Hcon)), Hexagon_eta.
      apply IH. repeat split; try assumption.
      * apply Forall_forall. intros h' Hin.
        rewrite lookup_insert_ne; [exact (proj1 (Forall_forall _ _) Hfreshs _ Hin)|].
        intros Heq. apply Hnotin. rewrite Heq. apply list_elem_of_fmap. eauto.
      * simpl. rewrite <- insert_union_l. apply insert_union_r.
        apply not_elem_of_list_to_map_1. rewrite <- list_fmap_compose. exact Hnotin.
Qed.

(** X9.  A sequence of calls of [Hexagon.add] on the empty registry
    succeeds exactly when the labels are pairwise different and every
    hexagon tells rightly whether it has a shift; the registry then holds
    each hexagon under its label, and as many entries as there were
    calls. *)
Theorem Hexagon_add_all_succeeds_iff hexagons alls :
  Hexagon_add_all hexagons ∅ = (Ok tt, alls) <->
  NoDup (label <$> hexagons) /\
  Forall (fun hexagon => is_extra hexagon = is_not_None (extra_shift hexagon)) hexagons /\
  alls = list_to_map ((fun hexagon => (label hexagon, hexagon)) <$> hexagons) /\
  size alls = length hexagons /\
  labels_consistent alls.
Proof.
  rewrite Hexagon_add_all_from, (right_id_L ∅ (∪)). split.
  - intros (Hnodup & _ & Hcons & ->). repeat split; try assumption.
    + rewrite map_size_list_to_map, length_fmap; [reflexivity|].
      rewrite <- list_fmap_compose. exact Hnodup.
    + intros key hexagon Hlookup. apply elem_of_list_to_map in Hlookup.
      * apply list_elem_of_fmap in Hlookup as (h & Heq & _). injection Heq as -> ->.
        reflexivity.
      * rewrite <- list_fmap_compose. exact Hnodup.
  - intros (Hnodup & Hcons & -> & _). repeat split; try assumption.
    apply Forall_forall. intros h _. apply lookup_empty.
Qed.

(** ** The labels of the layout and the positions of the tokens *)

Lemma matches_POSITION s :
  matches POSITION s = true <->
  exists row column,
    s = String row column /\
    In row (list_ascii_of_string "abcdefghi") /\
    (column = "" \/
     exists digit, column = String digit "" /\
                   In digit (list_ascii_of_string "123456789")).
Proof.
  unfold POSITION, Opt. rewrite matches_Class_Seq. split.
  - intros (row & column & -> & Hrow & Hcolumn). exists row, column.
    split; [reflexivity|]. split; [apply row_letter_cases; exact Hrow|].
    rewrite matches_Alt, orb_true_iff, matches_Class, matches_Eps in Hcolumn.
    destruct Hcolumn as [(digit & -> & Hdigit) | ->]; [right | left; reflexivity].
    exists digit. split; [reflexivity | apply column_digit_cases; exact Hdigit].
  - intros (row & column & -> & Hrow & Hcolumn). exists row, column.
    split; [reflexivity|]. split; [apply row_letter_cases; exact Hrow|].
    rewrite matches_Alt, orb_true_iff, matches_Class, matches_Eps.
    destruct Hcolumn as [-> | (digit & -> & Hdigit)]; [right; reflexivity | left].
    exists digit. split; [reflexivity | apply column_digit_cases; exact Hdigit].
Qed.

(** The labels of the layout of the program *)
Lemma Hexagon_alls_labels position_label :
  contains Hexagon_alls position_label = true <->
  position_label ∈
    ["a1"; "a2"; "a3"; "a4"; "a5"; "a6"; "a7"; "a";
     "b1"; "b2"; "b3"; "b4"; "b5"; "b6"; "b7"; "b8"; "b";
     "c1"; "c2"; "c3"; "c4"; "c5"; "c6"; "c7"; "c";
     "d1"; "d2"; "d3"; "d4"; "d5"; "d6"; "d7"; "d8";
     "e1"; "e2"; "e3"; "e4"; "e5"; "e6"; "e7"; "e8"; "e9";
     "f1"; "f2"; "f3"; "f4"; "f5"; "f6"; "f7"; "f8";
     "g"; "g1"; "g2"; "g3"; "g4"; "g5"; "g6"; "g7";
     "h"; "h1"; "h2"; "h3"; "h4"; "h5"; "h6"; "h7"; "h8";
     "i"; "i1"; "i2"; "i3"; "i4"; "i5"; "i6"; "i7"].
Proof.
  assert (Hdom : dom Hexagon_alls = list_to_set
    ["a1"; "a2"; "a3"; "a4"; "a5"; "a6"; "a7"; "a";
     "b1"; "b2"; "b3"; "b4"; "b5"; "b6"; "b7"; "b8"; "b";
     "c1"; "c2"; "c3"; "c4"; "c5"; "c6"; "c7"; "c";
     "d1"; "d2"; "d3"; "d4"; "d5"; "d6"; "d7"; "d8";
     "e1"; "e2"; "e3"; "e4"; "e5"; "e6"; "e7"; "e8"; "e9";
     "f1"; "f2"; "f3"; "f4"; "f5"; "f6"; "f7"; "f8";
     "g"; "g1"; "g2"; "g3"; "g4"; "g5"; "g6"; "g7";
     "h"; "h1"; "h2"; "h3"; "h4"; "h5"; "h6"; "h7"; "h8";
     "i"; "i1"; "i2"; "i3"; "i4"; "i5"; "i6"; "i7"]) by (vm_compute; reflexivity).
  rewrite contains_true, <- elem_of_dom, Hdom. apply elem_of_list_to_set.
Qed.

(** X10.  The tokens are the strings made of a cube code, a colon and a
    position that is either a label of the layout or one of fifteen
    positions that the layout does not have: every hexagon of the board,
    reserves included, can be named in a file, and the pattern lets through
    fifteen positions that only the lookup of the label rejects. *)
Theorem tokens_name_the_labels_and_fifteen_more code position_label :
  is_token (String code (String ":" position_label)) <->
  In code (list_ascii_of_string "KFRPSMWkfrpsmw") /\
  ((contains Hexagon_alls position_label = true /\
    position_label ∉ positions_off_board) \/
   (contains Hexagon_alls position_label = false /\
    position_label ∈ positions_off_board)).
Proof.
  assert (Htoken : is_token (String code (String ":" position_label)) <->
            In code (list_ascii_of_string "KFRPSMWkfrpsmw") /\
            matches POSITION position_label = true).
  { rewrite matches_POSITION. unfold is_token. split.
    - intros (c & row & column & H & Hc & Hrow & Hcolumn).
      injection H as -> ->. eauto 10.
    - intros (Hc & row & column & -> & Hrow & Hcolumn).
      exists code, row, column. auto. }
  rewrite Htoken. clear Htoken.
  assert (Hoff : position_label ∈ positions_off_board ->
                 contains Hexagon_alls position_label = false /\
                 matches POSITION position_label = true).
  { intros H. unfold positions_off_board in H.
    assert (Hnot : ~ (contains Hexagon_alls position_label = true)).
    { rewrite Hexagon_alls_labels. intros Hin. revert H.
      repeat (apply elem_of_cons in Hin as [-> | Hin];
              [apply (bool_decide_unpack _); vm_compute; reflexivity|]).
      inversion Hin. }
    split; [destruct (contains Hexagon_alls position_label); congruence|].
    repeat (apply elem_of_cons in H as [-> | H]; [reflexivity|]). inversion H. }
  assert (Hon : contains Hexagon_alls position_label = true ->
                (position_label ∉ positions_off_board) /\
                matches POSITION position_label = true).
  { intros H. split.
    - intros Hin. apply Hoff in Hin as [Hin _]. congruence.
    - apply Hexagon_alls_labels in H.
      repeat (apply elem_of_cons in H as [-> | H]; [reflexivity|]). inversion H. }
  split.
  - intros [Hc Hpos]. split; [exact Hc|].
    destruct (contains Hexagon_alls position_label) eqn:Hin.
    + left. split; [reflexivity | apply Hon; reflexivity].
    + right. split; [reflexivity|].
      apply matches_POSITION in Hpos as (row & column & -> & Hrow & Hcolumn).
      assert (Hnot : ~ (contains Hexagon_alls (String row column) = true)) by congruence.
      rewrite Hexagon_alls_labels in Hnot. clear Hin Hon Hoff.
      simpl in Hrow.
      destruct Hcolumn as [-> | (digit & -> & Hdigit)].
      * repeat (destruct Hrow as [<- | Hrow];
                [first [exfalso; apply Hnot; apply (bool_decide_unpack _);
                        vm_compute; reflexivity
                       |apply (bool_decide_unpack _); vm_compute; reflexivity]|]).
        contradiction.
      * simpl in Hdigit.
        repeat (destruct Hrow as [<- | Hrow];
          [repeat (destruct Hdigit as [<- | Hdigit];
                   [first [exfalso; apply Hnot; apply (bool_decide_unpack _);
                           vm_compute; reflexivity
                          |apply (bool_decide_unpack _); vm_compute; reflexivity]|]);
           contradiction|]).
        contradiction.
  - intros [Hc [[Hin _] | [_ Hin]]]; split; try exact Hc.
    + apply Hon, Hin.
    + apply Hoff, Hin.
Qed.

(** ** Drawing a state *)








(** ** A load that succeeds, seen from the window *)





(** ** The hexagons of the board *)

Section Hexagons.
Local Open Scope R_scope.

Lemma Rabs_cases x : (0 <= x /\ Rabs x = x) \/ (x < 0 /\ Rabs x = - x).
Proof.
  unfold Rabs. destruct (Rcase_abs x); [right | left]; lra.
Qed.

Lemma sqrt2_pos : 0 < sqrt 2.
Proof. apply sqrt_lt_R0. lra. Qed.

Lemma sqrt3_sq : sqrt 3 * sqrt 3 = 3.
Proof. apply sqrt_sqrt. lra. Qed.

Lemma sqrt2_sq : sqrt 2 * sqrt 2 = 2.
Proof. apply sqrt_sqrt. lra. Qed.

Lemma sqrt3_bounds : 1.732 < sqrt 3 < 1.733.
Proof.
  pose proof sqrt3_pos. pose proof sqrt3_sq. nra.
Qed.

Lemma sqrt2_bounds : 1.414 < sqrt 2 < 1.415.
Proof.
  pose proof sqrt2_pos. pose proof sqrt2_sq. nra.
Qed.

Lemma HEXA_WIDTH_pos : 0 < HEXA_WIDTH.
Proof. rewrite HEXA_WIDTH_value. lra. Qed.

Lemma tan_PI6_value : tan (PI / 6) = 1 / sqrt 3.
Proof. exact tan_PI6. Qed.

Lemma HEXA_SIDE_value : HEXA_SIDE = HEXA_WIDTH / sqrt 3.
Proof.
  unfold HEXA_SIDE. rewrite HEXA_SIDE_ANGLE_PI3.
  replace (PI / 3 / 2) with (PI / 6) by field.
  rewrite tan_PI6. field. pose proof sqrt3_pos. lra.
Qed.

Lemma HEXA_WIDTH_from_side : HEXA_WIDTH = HEXA_SIDE * sqrt 3.
Proof.
  rewrite HEXA_SIDE_value. field. pose proof sqrt3_pos. lra.
Qed.

Lemma HEXA_SIDE_pos : 0 < HEXA_SIDE.
Proof.
  rewrite HEXA_SIDE_value. apply Rdiv_lt_0_compat; [apply HEXA_WIDTH_pos | apply sqrt3_pos].
Qed.

Lemma HEXA_DELTA_Y_value : HEXA_DELTA_Y = HEXA_SIDE / 2.
Proof.
  unfold HEXA_DELTA_Y. apply sqrt_lem_1.
  - rewrite HEXA_WIDTH_from_side. pose proof HEXA_SIDE_pos. pose proof sqrt3_sq. nra.
  - pose proof HEXA_SIDE_pos. lra.
  - rewrite HEXA_WIDTH_from_side. pose proof sqrt3_sq. nra.
Qed.

(** The angles of the six vertices *)
Lemma hexagon_angle k :
  (1 / 2 + IZR k) * HEXA_SIDE_ANGLE = PI / 6 + IZR k * (PI / 3).
Proof. rewrite HEXA_SIDE_ANGLE_PI3. field. Qed.

Lemma cos_sin_PI6 : cos (PI / 6) = sqrt 3 / 2 /\ sin (PI / 6) = 1 / 2.
Proof. split; [apply cos_PI6 | apply sin_PI6]. Qed.

Lemma cos_sin_5PI6 : cos (5 * (PI / 6)) = - (sqrt 3 / 2) /\ sin (5 * (PI / 6)) = 1 / 2.
Proof.
  replace (5 * (PI / 6)) with (PI - PI / 6) by field.
  rewrite cos_minus, sin_minus, cos_PI, sin_PI, cos_PI6, sin_PI6. split; lra.
Qed.

Lemma hexagon_vertex_offsets hexagon_center :
  hexagon_vertex hexagon_center 0 =
    (hexagon_center + mkTinyVector (HEXA_WIDTH / 2) (- (HEXA_SIDE / 2)))%vec /\
  hexagon_vertex hexagon_center 1 =
    (hexagon_center + mkTinyVector 0 (- HEXA_SIDE))%vec /\
  hexagon_vertex hexagon_center 2 =
    (hexagon_center + mkTinyVector (- (HEXA_WIDTH / 2)) (- (HEXA_SIDE / 2)))%vec /\
  hexagon_vertex hexagon_center 3 =
    (hexagon_center + mkTinyVector (- (HEXA_WIDTH / 2)) (HEXA_SIDE / 2))%vec /\
  hexagon_vertex hexagon_center 4 =
    (hexagon_center + mkTinyVector 0 HEXA_SIDE)%vec /\
  hexagon_vertex hexagon_center 5 =
    (hexagon_center + mkTinyVector (HEXA_WIDTH / 2) (HEXA_SIDE / 2))%vec.
Proof.
  destruct cos_sin_PI6 as [Hc0 Hs0]. destruct cos_sin_5PI6 as [Hc2 Hs2].
  assert (H0 : (1 / 2 + 0) * HEXA_SIDE_ANGLE = PI / 6)
    by (rewrite HEXA_SIDE_ANGLE_PI3; field).
  assert (H1 : (1 / 2 + 1) * HEXA_SIDE_ANGLE = PI / 2)
    by (rewrite HEXA_SIDE_ANGLE_PI3; field).
  assert (H2 : (1 / 2 + 2) * HEXA_SIDE_ANGLE = 5 * (PI / 6))
    by (rewrite HEXA_SIDE_ANGLE_PI3; field).
  assert (H3 : (1 / 2 + 3) * HEXA_SIDE_ANGLE = PI / 6 + PI)
    by (rewrite HEXA_SIDE_ANGLE_PI3; field).
  assert (H4 : (1 / 2 + 4) * HEXA_SIDE_ANGLE = PI / 2 + PI)
    by (rewrite HEXA_SIDE_ANGLE_PI3; field).
  assert (H5 : (1 / 2 + 5) * HEXA_SIDE_ANGLE = 5 * (PI / 6) + PI)
    by (rewrite HEXA_SIDE_ANGLE_PI3; field).
  pose proof HEXA_WIDTH_from_side as HW.
  unfold hexagon_vertex, UNIT_X, UNIT_Y, TinyVector.add, TinyVector.rmul, TinyVector.mul.
  cbn [vx vy].
  rewrite H0, H1, H2, H3, H4, H5, !neg_cos, !neg_sin, cos_PI2, sin_PI2,
    Hc0, Hs0, Hc2, Hs2, HW.
  repeat split; apply TinyVector_eq; cbn [vx vy]; lra.
Qed.

End Hexagons.

Section HexagonProperties.
Local Open Scope R_scope.

(** X13.  The polygon of a hexagon is a regular hexagon with two upright
    sides: its six vertices are at the distance [HEXA_SIDE] from the
    centre, the two upright sides are at the distance [HEXA_WIDTH / 2], and
    the vertices are the corners of the region [inside_hexagon] leaves
    out; [HEXA_SIDE] is [HEXA_WIDTH / sqrt 3] and [HEXA_DELTA_Y] is half of
    it. *)
Theorem hexagon_vertices_are_regular hexagon_center vertex_index :
  TinyVector_norm (hexagon_vertex hexagon_center vertex_index - hexagon_center)%vec
    = HEXA_SIDE /\
  HEXA_SIDE = HEXA_WIDTH / sqrt 3 /\
  HEXA_DELTA_Y = HEXA_SIDE / 2 /\
  hexagon_vertex hexagon_center 0 =
    (hexagon_center + mkTinyVector (HEXA_WIDTH / 2) (- (HEXA_SIDE / 2)))%vec /\
  hexagon_vertex hexagon_center 1 =
    (hexagon_center + mkTinyVector 0 (- HEXA_SIDE))%vec /\
  hexagon_vertex hexagon_center 2 =
    (hexagon_center + mkTinyVector (- (HEXA_WIDTH / 2)) (- (HEXA_SIDE / 2)))%vec /\
  hexagon_vertex hexagon_center 3 =
    (hexagon_center + mkTinyVector (- (HEXA_WIDTH / 2)) (HEXA_SIDE / 2))%vec /\
  hexagon_vertex hexagon_center 4 =
    (hexagon_center + mkTinyVector 0 HEXA_SIDE)%vec /\
  hexagon_vertex hexagon_center 5 =
    (hexagon_center + mkTinyVector (HEXA_WIDTH / 2) (HEXA_SIDE / 2))%vec /\
  Forall (fun k =>
            Rabs (vx (hexagon_vertex hexagon_center k) - vx hexagon_center)
              <= HEXA_WIDTH / 2 /\
            Rabs (vy (hexagon_vertex hexagon_center k) - vy hexagon_center) +
            Rabs (vx (hexagon_vertex hexagon_center k) - vx hexagon_center) / sqrt 3
              = HEXA_SIDE)
    [0; 1; 2; 3; 4; 5]%Z.
Proof.
  split; [|split; [exact HEXA_SIDE_value | split; [exact HEXA_DELTA_Y_value|]]].
  - unfold TinyVector_norm, hexagon_vertex, UNIT_X, UNIT_Y, TinyVector.add,
      TinyVector.sub, TinyVector.rmul, TinyVector.mul. cbn [vx vy].
    set (a := (1 / 2 + IZR vertex_index) * HEXA_SIDE_ANGLE).
    apply sqrt_lem_1.
    + nra.
    + pose proof HEXA_SIDE_pos. lra.
    + pose proof (sin2_cos2 a) as H. unfold Rsqr in H. nra.
  - pose proof (hexagon_vertex_offsets hexagon_center)
      as (H0 & H1 & H2 & H3 & H4 & H5).
    repeat (split; [assumption|]).
    pose proof HEXA_SIDE_pos as HS. pose proof sqrt3_pos as H3pos.
    pose proof HEXA_WIDTH_from_side as HW.
    assert (Hhalf : HEXA_WIDTH / 2 / sqrt 3 = HEXA_SIDE / 2)
      by (rewrite HW; field; lra).
    assert (HWpos : 0 < HEXA_WIDTH) by apply HEXA_WIDTH_pos.
    repeat (apply Forall_cons_2; [split|]); try apply Forall_nil_2;
      rewrite ?H0, ?H1, ?H2, ?H3, ?H4, ?H5; unfold TinyVector.add; cbn [vx vy];
      repeat match goal with
      | |- context [?a + ?d - ?a] => replace (a + d - a) with d by ring
      end;
      rewrite ?Rabs_Ropp, ?Rabs_R0, ?(Rabs_pos_eq (HEXA_WIDTH / 2)),
        ?(Rabs_pos_eq (HEXA_SIDE / 2)), ?(Rabs_pos_eq HEXA_SIDE) by lra;
      rewrite ?Hhalf; try lra; unfold Rdiv; rewrite ?Rmult_0_l; lra.
Qed.

(** X14.  The hexagons of neighbouring cells of the lattice share an edge:
    the hexagon one step along [u] has as its vertices 2 and 3 the vertices
    0 and 5 of the first, the one a step along [v] has as its vertices 3
    and 4 the vertices 1 and 0, and the one a step along [v] and a step
    back along [u] has as its vertices 4 and 5 the vertices 2 and 1. *)
Theorem neighbouring_hexagons_share_an_edge (u v : Z) :
  hexagon_vertex (draw_hexagon_center ((u + 1)%Z, v) None) 2 =
    hexagon_vertex (draw_hexagon_center (u, v) None) 0 /\
  hexagon_vertex (draw_hexagon_center ((u + 1)%Z, v) None) 3 =
    hexagon_vertex (draw_hexagon_center (u, v) None) 5 /\
  hexagon_vertex (draw_hexagon_center (u, (v + 1)%Z) None) 3 =
    hexagon_vertex (draw_hexagon_center (u, v) None) 1 /\
  hexagon_vertex (draw_hexagon_center (u, (v + 1)%Z) None) 4 =
    hexagon_vertex (draw_hexagon_center (u, v) None) 0 /\
  hexagon_vertex (draw_hexagon_center ((u - 1)%Z, (v + 1)%Z) None) 4 =
    hexagon_vertex (draw_hexagon_center (u, v) None) 2 /\
  hexagon_vertex (draw_hexagon_center ((u - 1)%Z, (v + 1)%Z) None) 5 =
    hexagon_vertex (draw_hexagon_center (u, v) None) 1.
Proof.
  pose proof sqrt3_pos as H3pos. pose proof sqrt3_sq as H3sq.
  assert (HS : HEXA_SIDE = 600 / 11 / sqrt 3)
    by (rewrite HEXA_SIDE_value, HEXA_WIDTH_value; reflexivity).
  assert (HS' : HEXA_SIDE * sqrt 3 = 600 / 11) by (rewrite HS; field; lra).
  assert (HS'' : 600 / 11 * (sqrt 3 / 2) = 3 * (HEXA_SIDE / 2)).
  { rewrite <- HS'.
    transitivity (HEXA_SIDE * (sqrt 3 * sqrt 3) / 2); [field|].
    rewrite sqrt3_sq. field. }
  rewrite !draw_hexagon_center_value.
  repeat split;
    match goal with
    | |- hexagon_vertex ?c1 ?k1 = hexagon_vertex ?c2 ?k2 =>
        pose proof (hexagon_vertex_offsets c1) as (A0 & A1 & A2 & A3 & A4 & A5);
        pose proof (hexagon_vertex_offsets c2) as (B0 & B1 & B2 & B3 & B4 & B5)
    end;
    rewrite ?A2, ?A3, ?A4, ?A5, ?B0, ?B1, ?B2, ?B5;
    rewrite HEXA_WIDTH_value; unfold TinyVector.add;
    apply TinyVector_eq; cbn [vx vy]; rewrite ?plus_IZR, ?minus_IZR; lra.
Qed.

End HexagonProperties.

Section CubeProperties.
Local Open Scope R_scope.

Lemma cube_half_side_pos : 0 < cube_half_side.
Proof.
  unfold cube_half_side. pose proof HEXA_SIDE_pos. pose proof sqrt2_pos.
  apply Rmult_lt_0_compat; [lra|]. apply Rdiv_lt_0_compat; lra.
Qed.

(** Half the side of a cube is between 0.35 and 0.36 of the side of a
    hexagon. *)
Lemma cube_half_side_bounds :
  0.35 * HEXA_SIDE < cube_half_side < 0.36 * HEXA_SIDE.
Proof.
  unfold cube_half_side. pose proof HEXA_SIDE_pos as HS.
  pose proof sqrt2_bounds as [Hlo Hhi]. pose proof sqrt2_sq as Hsq.
  assert (Hinv : 1 / sqrt 2 = sqrt 2 / 2) by (field_simplify_eq; lra).
  rewrite Hinv. split; nra.
Qed.

Lemma cos_sin_7PI4 :
  cos (7 * (PI / 4)) = 1 / sqrt 2 /\ sin (7 * (PI / 4)) = - (1 / sqrt 2).
Proof.
  replace (7 * (PI / 4)) with (2 * PI - PI / 4) by field.
  rewrite cos_minus, sin_minus, cos_2PI, sin_2PI, cos_PI4, sin_PI4. split; lra.
Qed.

Lemma cube_vertex_offsets cube_center :
  cube_vertex cube_center 0 =
    (cube_center + mkTinyVector cube_half_side (- cube_half_side))%vec /\
  cube_vertex cube_center 1 =
    (cube_center + mkTinyVector (- cube_half_side) (- cube_half_side))%vec /\
  cube_vertex cube_center 2 =
    (cube_center + mkTinyVector (- cube_half_side) cube_half_side)%vec /\
  cube_vertex cube_center 3 =
    (cube_center + mkTinyVector cube_half_side cube_half_side)%vec.
Proof.
  pose proof sqrt2_pos as H2.
  destruct cos_sin_7PI4 as [Hc7 Hs7].
  unfold cube_vertex, CUBE_SIDE_ANGLE, cube_half_side.
  replace ((1 / 2 + 0) * (PI / 2)) with (PI / 4) by field.
  replace ((1 / 2 + 1) * (PI / 2)) with (3 * (PI / 4)) by field.
  replace ((1 / 2 + 2) * (PI / 2)) with (5 * (PI / 4)) by field.
  replace ((1 / 2 + 3) * (PI / 2)) with (7 * (PI / 4)) by field.
  rewrite cos_PI4, sin_PI4, cos_3PI4, sin_3PI4, cos_5PI4, sin_5PI4, Hc7, Hs7.
  unfold TinyVector.add, TinyVector.rmul, TinyVector.mul, UNIT_X, UNIT_Y.
  repeat split; apply TinyVector_eq; cbn [vx vy]; field; lra.
Qed.

(** X15.  The rectangle that [draw_cube] draws, from the vertex of index 1
    to the one of index 3, is the square around the centre of the cube
    with its sides along the axes, of half side
    [HEXA_SIDE / (2 * sqrt 2)], with vertex 1 as its upper left corner on
    the canvas and vertex 3 as its lower right one; and of the two cubes
    of a stack the top one is drawn above the bottom one, the two squares
    apart. *)
Theorem cube_squares_of_a_stack_are_apart hexagon_center config :
  cube_vertex (cube_center config hexagon_center) 1 =
    (cube_center config hexagon_center
     + mkTinyVector (- cube_half_side) (- cube_half_side))%vec /\
  cube_vertex (cube_center config hexagon_center) 3 =
    (cube_center config hexagon_center
     + mkTinyVector cube_half_side cube_half_side)%vec /\
  0 < cube_half_side /\
  vx (cube_center config hexagon_center) = vx hexagon_center /\
  vy (cube_vertex (cube_center TOP hexagon_center) 3)
    < vy (cube_vertex (cube_center BOTTOM hexagon_center) 1).
Proof.
  pose proof (cube_vertex_offsets (cube_center config hexagon_center))
    as (_ & H1 & _ & H3).
  pose proof (cube_vertex_offsets (cube_center TOP hexagon_center))
    as (_ & _ & _ & HT).
  pose proof (cube_vertex_offsets (cube_center BOTTOM hexagon_center))
    as (_ & HB & _ & _).
  pose proof cube_half_side_bounds as [Hlo Hhi]. pose proof HEXA_SIDE_pos as HS.
  split; [exact H1|]. split; [exact H3|]. split; [apply cube_half_side_pos|].
  split.
  - destruct config; unfold cube_center, TinyVector.add, TinyVector.sub,
      TinyVector.rmul, TinyVector.mul, UNIT_Y; cbn [vx vy]; lra.
  - rewrite HT, HB.
    unfold cube_center, TinyVector.add, TinyVector.sub,
      TinyVector.rmul, TinyVector.mul, UNIT_Y; cbn [vx vy]. lra.
Qed.

(** X16.  Whatever the place of a cube in its stack, the four corners of
    its square lie inside the hexagon of the stack; so does the point where
    the label of the hexagon is written, which is also to the left of the
    squares of the cubes. *)
Theorem cubes_and_label_are_inside_the_hexagon hexagon_center config :
  Forall (inside_hexagon hexagon_center)
    (cube_vertices (cube_center config hexagon_center)) /\
  inside_hexagon hexagon_center (label_position hexagon_center) /\
  vx (label_position hexagon_center)
    < vx (cube_vertex (cube_center config hexagon_center) 1).
Proof.
  pose proof (cube_vertex_offsets (cube_center config hexagon_center))
    as (H0 & H1 & H2 & H3).
  pose proof (hexagon_vertex_offsets hexagon_center) as (_ & _ & _ & Hv3 & _).
  pose proof cube_half_side_bounds as [Hlo Hhi]. pose proof HEXA_SIDE_pos as HS.
  pose proof sqrt3_bounds as [H3lo H3hi]. pose proof sqrt3_sq as H3sq.
  pose proof HEXA_WIDTH_from_side as HW.
  assert (Hinv : forall x, x / sqrt 3 = x * (sqrt 3 / 3)).
  { intros x. unfold Rdiv at 1. f_equal.
    apply Rmult_eq_reg_l with (sqrt 3); [|lra]. rewrite Rinv_r by lra. nra. }
  assert (Hcx : vx (cube_center config hexagon_center) = vx hexagon_center)
    by (destruct config; unfold cube_center, TinyVector.add, TinyVector.sub,
          TinyVector.rmul, TinyVector.mul, UNIT_Y; cbn [vx vy]; lra).
  assert (Hcy : - (0.4 * HEXA_SIDE)
                <= vy (cube_center config hexagon_center) - vy hexagon_center
                <= 0.4 * HEXA_SIDE)
    by (destruct config; unfold cube_center, TinyVector.add, TinyVector.sub,
          TinyVector.rmul, TinyVector.mul, UNIT_Y; cbn [vx vy]; lra).
  split; [|split].
  - unfold cube_vertices. rewrite !fmap_cons, fmap_nil, H0, H1, H2, H3.
    repeat (apply Forall_cons_2; [|]); try apply Forall_nil_2;
      unfold inside_hexagon, TinyVector.add; cbn [vx vy]; rewrite Hcx, Hinv;
      set (dy := vy (cube_center config hexagon_center)) in *;
      match goal with
      | |- context [Rabs (?a + ?d - ?a)] =>
          replace (a + d - a) with d by ring
      end;
      rewrite ?Rabs_Ropp, (Rabs_pos_eq cube_half_side) by lra;
      (split; [nra|]);
      match goal with
      | |- context [Rabs ?x] =>
          destruct (Rabs_cases x) as [[? ->] | [? ->]]
      end; nra.
  - unfold label_position. rewrite Hv3.
    unfold inside_hexagon, TinyVector.add, TinyVector.rmul, TinyVector.mul,
      UNIT_X, UNIT_Y; cbn [vx vy]. rewrite Hinv.
    repeat match goal with
    | |- context [Rabs ?x] =>
        destruct (Rabs_cases x) as [[? ->] | [? ->]]
    end; split; nra.
  - rewrite H1. unfold label_position. rewrite Hv3.
    unfold TinyVector.add, TinyVector.rmul, TinyVector.mul,
      UNIT_X, UNIT_Y; cbn [vx vy]. rewrite Hcx. nra.
Qed.

End CubeProperties.

Section FaceProperties.
Local Open Scope R_scope.

Lemma rotate_90_degrees_value vector :
  rotate_90_degrees vector = mkTinyVector (vy vector) (- vx vector).
Proof.
  unfold rotate_90_degrees, TinyVector.inner, TinyVector.add, TinyVector.rmul,
    TinyVector.mul, TinyVector.neg, UNIT_X, UNIT_Y.
  apply TinyVector_eq; cbn [vx vy]; ring.
Qed.

(** X17.  [rotate_90_degrees] is a quarter turn: the result is orthogonal
    to the vector and has its norm, two turns give the opposite vector,
    and [UNIT_X] is turned onto [UNIT_Y], which on the canvas points
    upwards. *)
Theorem rotate_90_degrees_is_a_quarter_turn vector :
  TinyVector.inner (rotate_90_degrees vector) vector = 0 /\
  TinyVector_norm (rotate_90_degrees vector) = TinyVector_norm vector /\
  rotate_90_degrees (rotate_90_degrees vector) = TinyVector.neg vector /\
  rotate_90_degrees UNIT_X = UNIT_Y /\
  rotate_90_degrees UNIT_Y = TinyVector.neg UNIT_X.
Proof.
  rewrite !rotate_90_degrees_value.
  unfold TinyVector.inner, TinyVector_norm, TinyVector.neg, UNIT_X, UNIT_Y.
  cbn [vx vy]. split; [ring|]. split; [f_equal; ring|].
  repeat split; apply TinyVector_eq; cbn [vx vy]; ring.
Qed.

(** X18.  The two points of [square_for_circle_by_two_points] are
    opposite corners of a box around the middle of the two given points;
    the box is the square that encloses the circle through the two points
    -- both its width and its height are the distance of the points --
    exactly when the two points are on one upright or on one level line. *)
Theorem square_for_circle_needs_an_upright_or_level_diameter point_1 point_2 :
  (fst (square_for_circle_by_two_points point_1 point_2)
   + snd (square_for_circle_by_two_points point_1 point_2))%vec
    = (point_1 + point_2)%vec /\
  (((vx (fst (square_for_circle_by_two_points point_1 point_2))
     - vx (snd (square_for_circle_by_two_points point_1 point_2))) ^ 2
      = TinyVector.inner (point_1 - point_2)%vec (point_1 - point_2)%vec /\
    (vy (fst (square_for_circle_by_two_points point_1 point_2))
     - vy (snd (square_for_circle_by_two_points point_1 point_2))) ^ 2
      = TinyVector.inner (point_1 - point_2)%vec (point_1 - point_2)%vec)
   <-> vx point_1 = vx point_2 \/ vy point_1 = vy point_2).
Proof.
  unfold square_for_circle_by_two_points. cbn [fst snd].
  rewrite !rotate_90_degrees_value.
  unfold TinyVector.inner, TinyVector.add, TinyVector.sub, TinyVector.rmul,
    TinyVector.mul. cbn [vx vy].
  destruct point_1 as [x1 y1], point_2 as [x2 y2]. cbn [vx vy].
  replace 0.5 with (1 / 2) by lra.
  split; [apply TinyVector_eq; cbn [vx vy]; field|].
  split.
  - intros [H _].
    assert (H0 : (x1 - x2) * (y1 - y2) = 0) by nra.
    apply Rmult_integral in H0 as [H0|H0]; [left | right]; lra.
  - intros [H|H]; subst; split; field.
Qed.

End FaceProperties.

Section FaceLayout.
Local Open Scope R_scope.

Lemma cube_vertices_value cube_center :
  cube_vertices cube_center =
    [ (cube_center + mkTinyVector cube_half_side (- cube_half_side))%vec;
      (cube_center + mkTinyVector (- cube_half_side) (- cube_half_side))%vec;
      (cube_center + mkTinyVector (- cube_half_side) cube_half_side)%vec;
      (cube_center + mkTinyVector cube_half_side cube_half_side)%vec ].
Proof.
  pose proof (cube_vertex_offsets cube_center) as (H0 & H1 & H2 & H3).
  unfold cube_vertices. rewrite !fmap_cons, fmap_nil, H0, H1, H2, H3. reflexivity.
Qed.

Lemma face_vertex_offsets cube_center :
  face_vertex cube_center (cube_vertices cube_center) 0 =
    Some (cube_center
          + mkTinyVector (cube_half_side / 2) (- (cube_half_side / 2)))%vec /\
  face_vertex cube_center (cube_vertices cube_center) 1 =
    Some (cube_center
          + mkTinyVector (- (cube_half_side / 2)) (- (cube_half_side / 2)))%vec /\
  face_vertex cube_center (cube_vertices cube_center) 2 =
    Some (cube_center
          + mkTinyVector (- (cube_half_side / 2)) (cube_half_side / 2))%vec /\
  face_vertex cube_center (cube_vertices cube_center) 3 =
    Some (cube_center
          + mkTinyVector (cube_half_side / 2) (cube_half_side / 2))%vec.
Proof.
  unfold face_vertex. rewrite cube_vertices_value.
  cbn [lookup list_lookup fmap option_fmap option_map].
  unfold TinyVector.add, TinyVector.rmul, TinyVector.mul. cbn [vx vy].
  repeat split; f_equal; apply TinyVector_eq; cbn [vx vy]; lra.
Qed.

(** X19.  On the square of a cube as [draw_cube] builds it, the four face
    vertices are the corners of the square of half the size around the
    same centre, and the two triangles of [draw_pure_mountain_face] have
    the middles of its sides as their vertices: apexes above and below the
    centre, and a common base from the middle of the left side to the
    middle of the right side. *)
Theorem face_vertices_are_the_corners_of_the_half_square cube_center :
  face_vertex cube_center (cube_vertices cube_center) <$> [0; 1; 2; 3]%nat =
    [ Some (cube_center
            + mkTinyVector (cube_half_side / 2) (- (cube_half_side / 2)))%vec;
      Some (cube_center
            + mkTinyVector (- (cube_half_side / 2)) (- (cube_half_side / 2)))%vec;
      Some (cube_center
            + mkTinyVector (- (cube_half_side / 2)) (cube_half_side / 2))%vec;
      Some (cube_center
            + mkTinyVector (cube_half_side / 2) (cube_half_side / 2))%vec ] /\
  pure_mountain_face_polygons cube_center (cube_vertices cube_center) =
    Some [ [ (cube_center + mkTinyVector 0 (- (cube_half_side / 2)))%vec;
             (cube_center + mkTinyVector (- (cube_half_side / 2)) 0)%vec;
             (cube_center + mkTinyVector (cube_half_side / 2) 0)%vec ];
           [ (cube_center + mkTinyVector 0 (cube_half_side / 2))%vec;
             (cube_center + mkTinyVector (- (cube_half_side / 2)) 0)%vec;
             (cube_center + mkTinyVector (cube_half_side / 2) 0)%vec ] ].
Proof.
  pose proof (face_vertex_offsets cube_center) as (H0 & H1 & H2 & H3).
  split.
  - rewrite !fmap_cons, fmap_nil, H0, H1, H2, H3. reflexivity.
  - unfold pure_mountain_face_polygons. rewrite H0, H1, H2, H3.
    cbn [mbind option_bind].
    unfold TinyVector.add, TinyVector.rmul, TinyVector.mul. cbn [vx vy].
    repeat f_equal; lra.
Qed.

Lemma fool_cube_side cube_center :
  TinyVector_norm
    ((cube_center
      + mkTinyVector (- (cube_half_side / 2)) (- (cube_half_side / 2)))
     - (cube_center
        + mkTinyVector (cube_half_side / 2) (- (cube_half_side / 2))))%vec
  = cube_half_side.
Proof.
  pose proof cube_half_side_pos as Hpos.
  unfold TinyVector_norm, TinyVector.add, TinyVector.sub. cbn [vx vy].
  apply sqrt_lem_1; [nra | lra | nra].
Qed.

(** X20.  On the square of a cube as [draw_cube] builds it, the six
    circles of [draw_fool_face] all have an upright diameter: the two
    points handed over to [square_for_circle_by_two_points] are one above
    the other.  The four arcs of the spiral have their diameters on the
    upright line through the centre of the cube, each arc ending where the
    next one starts, and the last disc sits where the outer arc ends, at
    half the side of the face from the centre, up and to the left. *)
Theorem fool_face_circles_have_upright_diameters cube_center :
  exists circles,
    fool_face_circles cube_center (cube_vertices cube_center) = Some circles /\
    Forall (fun circle => vx (fst circle) = vx (snd circle)) circles /\
    circles =
      [ (cube_center,
         (cube_center + mkTinyVector 0 (cube_half_side / 4))%vec);
        ((cube_center + mkTinyVector 0 (- (cube_half_side / 4)))%vec,
         (cube_center + mkTinyVector 0 (cube_half_side / 4))%vec);
        ((cube_center + mkTinyVector 0 (- (cube_half_side / 4)))%vec,
         (cube_center + mkTinyVector 0 (cube_half_side / 2))%vec);
        ((cube_center + mkTinyVector 0 (- (cube_half_side / 2)))%vec,
         (cube_center + mkTinyVector 0 (cube_half_side / 2))%vec);
        ((cube_center + mkTinyVector 0 (- (IZR CUBE_LINE_WIDTH / 2)))%vec,
         (cube_center + mkTinyVector 0 (IZR CUBE_LINE_WIDTH / 2))%vec);
        ((cube_center
          + mkTinyVector (- (cube_half_side / 2 / sqrt 2))
                         (- (cube_half_side / 2 / sqrt 2)
                          - IZR CUBE_LINE_WIDTH / 2))%vec,
         (cube_center
          + mkTinyVector (- (cube_half_side / 2 / sqrt 2))
                         (- (cube_half_side / 2 / sqrt 2)
                          + IZR CUBE_LINE_WIDTH / 2))%vec) ].
Proof.
  pose proof (face_vertex_offsets cube_center) as (H0 & H1 & H2 & H3).
  pose proof sqrt2_pos as Hsqrt2.
  eexists. split; [|split; [|reflexivity]].
  - unfold fool_face_circles. rewrite H0, H1, H2, H3.
    cbn [mbind option_bind]. rewrite fool_cube_side.
    unfold TinyVector.add, TinyVector.sub, TinyVector.rmul, TinyVector.mul,
      TinyVector_truediv, UNIT_X, UNIT_Y. cbn [vx vy].
    destruct cube_center as [x y]. cbn [vx vy].
    repeat (f_equal; try lra); field; lra.
  - repeat (apply Forall_cons_2;
            [unfold TinyVector.add; cbn [fst snd vx vy]; lra|]).
    apply Forall_nil_2.
Qed.

(** X21.  The points that [draw_wise_face] hands over to the polygon lie
    on a lemniscate of Bernoulli around the centre of the cube: with [X]
    and [Y] the offsets of a point from the centre and [delta] the
    distance from the centre to [face_vertex_W] along the level line,
    [(X^2 + Y^2)^2 = delta^2 (X^2 - Y^2)]; on the square of a cube as
    [draw_cube] builds it [delta] is a quarter of the side of the cube, and
    the point of index 0 is the middle of the right side of the face. *)
Theorem wise_points_are_on_a_lemniscate cube_center face_vertex_W angle_index :
  ((fst (wise_point cube_center face_vertex_W angle_index) - vx cube_center) ^ 2
   + (snd (wise_point cube_center face_vertex_W angle_index) - vy cube_center) ^ 2) ^ 2
  = (vx cube_center - vx face_vertex_W) ^ 2
    * ((fst (wise_point cube_center face_vertex_W angle_index) - vx cube_center) ^ 2
       - (snd (wise_point cube_center face_vertex_W angle_index) - vy cube_center) ^ 2) /\
  exists W,
    wise_face_vertex_W cube_center (cube_vertices cube_center) = Some W /\
    vx cube_center - vx W = cube_half_side / 2 /\
    wise_point cube_center W 0 =
      (vx cube_center + cube_half_side / 2, vy cube_center).
Proof.
  pose proof (face_vertex_offsets cube_center) as (H0 & H1 & H2 & H3).
  split.
  - unfold wise_point. cbn [fst snd].
    set (delta := vx cube_center - vx face_vertex_W).
    set (t := IZR angle_index * 2 * PI / 20).
    pose proof (sin2_cos2 t) as Hsc. unfold Rsqr in Hsc.
    set (s := sin t) in *. set (c := cos t) in *.
    assert (HD : 1 + s ^ 2 <> 0) by nra.
    replace (vx cube_center + delta * c / (1 + s ^ 2) - vx cube_center)
      with (delta * c / (1 + s ^ 2)) by ring.
    replace (vy cube_center + delta * c * s / (1 + s ^ 2) - vy cube_center)
      with (delta * c * s / (1 + s ^ 2)) by ring.
    replace ((delta * c / (1 + s ^ 2)) ^ 2 + (delta * c * s / (1 + s ^ 2)) ^ 2)
      with (delta ^ 2 * c ^ 2 / (1 + s ^ 2)) by (field; exact HD).
    replace ((delta * c / (1 + s ^ 2)) ^ 2 - (delta * c * s / (1 + s ^ 2)) ^ 2)
      with (delta ^ 2 * c ^ 2 * (1 - s * s) / (1 + s ^ 2) ^ 2) by (field; exact HD).
    replace (1 - s * s) with (c * c) by lra.
    field. exact HD.
  - exists (cube_center + mkTinyVector (- (cube_half_side / 2)) 0)%vec.
    split; [|split].
    + unfold wise_face_vertex_W. rewrite H0, H1, H2, H3. cbn [mbind option_bind].
      unfold TinyVector.add, TinyVector.rmul, TinyVector.mul. cbn [vx vy].
      repeat f_equal; lra.
    + unfold TinyVector.add. cbn [vx vy]. lra.
    + unfold wise_point, TinyVector.add. cbn [vx vy].
      replace (0 * 2 * PI / 20) with 0 by field.
      rewrite sin_0, cos_0. f_equal; field.
Qed.

Lemma int_of_float_value x z :
  (0 <= z)%Z -> IZR z <= x < IZR z + 1 -> int_of_float x = z.
Proof.
  intros Hz [Hlo Hhi]. unfold int_of_float.
  assert (0 <= IZR z) by (apply IZR_le; exact Hz).
  destruct (Rle_dec 0 x) as [_|Hneg]; [|lra].
  symmetry. apply Int_part_spec. lra.
Qed.

(** X22.  The sizes in pixels that the module derives from the side of a
    hexagon, each cut down to an integer: the lines of the faces are one
    pixel wide, the width asked for the outline of the hexagons is zero,
    and the fonts of the labels and of the letters have the sizes 9 and
    15. *)
Theorem line_widths_and_font_sizes :
  CUBE_LINE_WIDTH = 1%Z /\ HEXA_LINE_WIDTH = 0%Z /\
  FONT_LABEL_SIZE = 9%Z /\ FONT_FACE_SIZE = 15%Z.
Proof.
  pose proof sqrt3_bounds as [Hlo Hhi]. pose proof sqrt3_sq as Hsq.
  pose proof HEXA_WIDTH_from_side as HW. rewrite HEXA_WIDTH_value in HW.
  assert (HS : 31.47 < HEXA_SIDE < 31.50) by (split; nra).
  unfold CUBE_LINE_WIDTH, HEXA_LINE_WIDTH, FONT_LABEL_SIZE, FONT_FACE_SIZE.
  repeat split; apply int_of_float_value; try lia; lra.
Qed.

End FaceLayout.

(** ** The requirements of the conda environment *)

Lemma matches_Seq_Opt r1 r2 s :
  matches (Seq r1 (Opt r2)) s = matches (Seq r1 r2) s || matches r1 s.
Proof.
  apply eq_true_iff_eq. rewrite orb_true_iff, !matches_Seq. unfold Opt. split.
  - intros (s1 & s2 & -> & H1 & H2). rewrite matches_Alt, orb_true_iff in H2.
    destruct H2 as [H2|H2].
    + left. eauto.
    + apply matches_Eps in H2. subst s2. right.
      replace (s1 ++ "") with s1; [exact H1|].
      clear. induction s1 as [|c s1 IH]; [reflexivity|]. str_simpl. congruence.
  - intros [(s1 & s2 & -> & H1 & H2)|H].
    + exists s1, s2. rewrite matches_Alt, H2. auto.
    + exists s, "". rewrite matches_Alt, H.
      split; [|split; [reflexivity | apply orb_true_r]].
      clear. induction s as [|c s IH]; [reflexivity|]. str_simpl. congruence.
Qed.

Lemma skipped_line_cases line :
  re_match SKIPPED_LINE line = re_match COMMENT_LINE line || re_match BLANK_LINE line.
Proof.
  unfold re_match, SKIPPED_LINE, COMMENT_LINE, BLANK_LINE.
  rewrite matches_Seq_Opt.
  destruct (chop_newline line) as [line'|]; [rewrite matches_Seq_Opt|];
    repeat match goal with |- context [matches ?r ?s] =>
      destruct (matches r s) end; reflexivity.
Qed.

Lemma first_non_space_spaces spaces rest :
  forallb is_space (list_ascii_of_string spaces) = true ->
  first_non_space (spaces ++ rest) = first_non_space rest.
Proof.
  induction spaces as [|c spaces IH]; intros H; str_simpl; [reflexivity|].
  simpl in H. apply andb_true_iff in H as [Hc H]. simpl. rewrite Hc. auto.
Qed.

(** A line is passed over exactly when its first character that is not a
    space, if it has one, is a hash sign. *)
Lemma skipped_line_iff line :
  one_line line ->
  re_match SKIPPED_LINE line = true <->
  first_non_space line = None \/ first_non_space line = Some "#"%char.
Proof.
  intros Hone. rewrite skipped_line_cases, orb_true_iff. split.
  - intros [H|H].
    + right. apply comment_line_spec in H as (spaces & rest & tail & -> & Hs & _).
      rewrite (first_non_space_spaces _ _ Hs). str_simpl. reflexivity.
    + left. apply blank_line_spec in H. clear Hone.
      induction line as [|c line IH]; [reflexivity|].
      simpl in H. apply andb_true_iff in H as [Hc H]. simpl. rewrite Hc. auto.
  - intros [H|H].
    + right. apply blank_line_spec, first_non_space_None, H.
    + left. apply first_non_space_hash; assumption.
Qed.

Lemma read_package_specs_app lines package_spec_list :
  read_package_specs lines package_spec_list =
    (package_spec_list ++
     (strip <$> filter (fun line => re_match SKIPPED_LINE line = false) lines))%list.
Proof.
  revert package_spec_list. induction lines as [|line lines IH];
    intros package_spec_list; simpl.
  - rewrite app_nil_r. reflexivity.
  - destruct (re_match SKIPPED_LINE line) eqn:Hskip.
    + rewrite filter_cons_False by (rewrite Hskip; discriminate). apply IH.
    + rewrite filter_cons_True by exact Hskip.
      rewrite IH, <- app_assoc. reflexivity.
Qed.

Lemma lstrip_first line :
  match first_non_space line with
  | None => lstrip line = ""
  | Some c => exists rest, lstrip line = String c rest /\ is_space c = false
  end.
Proof.
  induction line as [|c line IH]; [reflexivity|]. simpl.
  destruct (is_space c) eqn:Hc; [exact IH|]. eauto.
Qed.

Lemma rstrip_first c s :
  is_space c = false -> exists rest, rstrip (String c s) = String c rest.
Proof.
  intros Hc. simpl. destruct (rstrip s); [rewrite Hc|]; eauto.
Qed.

Lemma rstrip_last s :
  match last_character (rstrip s) with
  | None => rstrip s = ""
  | Some c => is_space c = false
  end.
Proof.
  induction s as [|c s IH]; [reflexivity|]. simpl.
  destruct (rstrip s) as [|c' s'] eqn:Hr.
  - destruct (is_space c) eqn:Hc; [reflexivity | exact Hc].
  - change (last_character (String c (String c' s')))
      with (last_character (String c' s')).
    destruct (last_character (String c' s')); [exact IH | discriminate IH].
Qed.

(** X23.  The packages that [create_conda_environment] asks conda to
    install are the lines of the requirements file whose first character
    that is not a space is not a hash sign, stripped, in the order of the
    file; so every package specification is not empty, starts with a
    character that is neither a space nor a hash sign, and ends with a
    character that is not a space. *)
Theorem package_specs_are_the_stripped_significant_lines text :
  package_spec_list text =
    strip <$> filter (fun line => names_a_package line = true) (readlines text) /\
  Forall (fun package_spec =>
            exists c rest,
              package_spec = String c rest /\
              is_space c = false /\ c <> "#"%char /\
              exists c', last_character package_spec = Some c' /\
                         is_space c' = false)
    (package_spec_list text).
Proof.
  assert (Hfilter : forall lines, Forall one_line lines ->
    filter (fun line => re_match SKIPPED_LINE line = false) lines =
    filter (fun line => names_a_package line = true) lines).
  { induction 1 as [|line lines Hone _ IH]; [reflexivity|].
    pose proof (skipped_line_iff line Hone) as Hiff. unfold names_a_package in *.
    destruct (re_match SKIPPED_LINE line) eqn:Hskip.
    - rewrite filter_cons_False by (rewrite Hskip; discriminate).
      rewrite filter_cons_False; [exact IH|].
      destruct (proj1 Hiff eq_refl) as [-> | ->]; discriminate.
    - rewrite filter_cons_True by exact Hskip.
      rewrite filter_cons_True; [rewrite IH; reflexivity|].
      destruct (first_non_space line) as [c|].
      + destruct (Ascii.eqb_spec c "#") as [->|Hne]; [|reflexivity].
        assert (false = true) by (apply Hiff; auto). discriminate.
      + assert (false = true) by (apply Hiff; auto). discriminate. }
  assert (Hlist : package_spec_list text =
    strip <$> filter (fun line => names_a_package line = true) (readlines text)).
  { unfold package_spec_list. rewrite read_package_specs_app.
    rewrite Hfilter by apply readlines_one_line. reflexivity. }
  split; [exact Hlist|]. rewrite Hlist.
  apply Forall_fmap, Forall_forall. intros line Hline.
  apply list_elem_of_filter in Hline as [Hfirst _]. simpl.
  unfold names_a_package in Hfirst.
  pose proof (lstrip_first line) as Hl.
  destruct (first_non_space line) as [c|]; [|discriminate].
  destruct Hl as (rest & Hl & Hc). unfold strip. rewrite Hl.
  destruct (rstrip_first c rest Hc) as (rest' & Hr).
  exists c, rest'. split; [exact Hr|]. split; [exact Hc|].
  split; [intros ->; discriminate Hfirst|].
  pose proof (rstrip_last (String c rest)) as Hlast. rewrite Hr in Hlast |- *.
  destruct (last_character (String c rest')) as [c'|]; [eauto | discriminate].
Qed.

(** ** The layout on the canvas *)

Lemma keeps_all_add (P : Hexagon -> Prop) label position_uv color is_extra extra_shift :
  P (mkHexagon label position_uv color is_extra extra_shift) ->
  keeps_all P (Hexagon_add label position_uv color is_extra extra_shift).
Proof.
  intros HP alls Halls.
  destruct (alls !! label) as [hexagon|] eqn:Hlookup.
  - rewrite Hexagon_add_duplicate by (rewrite Hlookup; eauto). exact Halls.
  - destruct (decide (is_extra = is_not_None extra_shift)) as [Hcons|Hcons].
    + rewrite Hexagon_add_fresh by assumption. simpl.
      apply map_Forall_insert_2; assumption.
    + rewrite Hexagon_add_inconsistent by assumption. exact Halls.
Qed.

Lemma keeps_all_bind (P : Hexagon -> Prop) {A B}
    (c : M (gmap string Hexagon) A) (k : A -> M (gmap string Hexagon) B) :
  keeps_all P c -> (forall a, keeps_all P (k a)) -> keeps_all P (bind c k).
Proof.
  intros Hc Hk alls Halls. specialize (Hc alls Halls). unfold bind.
  destruct (c alls) as [[a|e] alls1]; simpl in *; [apply Hk; exact Hc | exact Hc].
Qed.

(** A property of every hexagon that the script registers holds of every
    hexagon of the layout. *)
Ltac walk_script :=
  repeat (apply keeps_all_bind; [apply keeps_all_add | intros _]);
  try apply keeps_all_add.

Section Canvas.
Local Open Scope R_scope.

Lemma draw_cube_center_board label u v color is_extra :
  draw_cube_center (mkHexagon label (u, v) color is_extra None) =
    mkTinyVector (300 + 600 / 11 * (IZR u + IZR v / 2))
                 (300 - 600 / 11 * (IZR v * (sqrt 3 / 2))).
Proof. apply draw_hexagon_center_value. Qed.

Lemma draw_cube_center_extra label u v color is_extra shift :
  draw_cube_center (mkHexagon label (u, v) color is_extra (Some shift)) =
    (mkTinyVector (300 + 600 / 11 * (IZR u + IZR v / 2))
                  (300 - 600 / 11 * (IZR v * (sqrt 3 / 2))) + shift)%vec.
Proof.
  rewrite <- draw_hexagon_center_value. reflexivity.
Qed.

Lemma HEXA_SIDE_sqrt3 : HEXA_SIDE = 600 / 11 * (sqrt 3 / 3).
Proof.
  rewrite HEXA_SIDE_value, HEXA_WIDTH_value.
  pose proof sqrt3_pos. pose proof sqrt3_sq.
  apply Rmult_eq_reg_r with (sqrt 3); [|lra].
  unfold Rdiv at 1. rewrite Rmult_assoc, Rinv_l by lra. nra.
Qed.

Lemma hexagon_vertices_inside hexagon :
  HEXA_WIDTH / 2 <= vx (draw_cube_center hexagon) <= 600 - HEXA_WIDTH / 2 ->
  HEXA_SIDE <= vy (draw_cube_center hexagon) <= 600 - HEXA_SIDE ->
  Forall inside_canvas (hexagon_vertices hexagon).
Proof.
  intros Hx Hy. unfold hexagon_vertices.
  pose proof (hexagon_vertex_offsets (draw_cube_center hexagon))
    as (H0 & H1 & H2 & H3 & H4 & H5).
  pose proof HEXA_SIDE_pos. pose proof HEXA_WIDTH_pos.
  rewrite !fmap_cons, fmap_nil, H0, H1, H2, H3, H4, H5.
  repeat (apply Forall_cons_2; [|]); try apply Forall_nil_2;
    unfold inside_canvas, TinyVector.add; cbn [vx vy];
    change (IZR CANVAS_WIDTH) with 600; change (IZR CANVAS_HEIGHT) with 600; lra.
Qed.

(** X24.  The whole layout is inside the canvas: the six vertices of every
    hexagon that the module registers, the six hexagons of the reserve
    included, are points of the canvas. *)
Theorem every_hexagon_is_inside_the_canvas :
  map_Forall (fun _ hexagon => Forall inside_canvas (hexagon_vertices hexagon))
    Hexagon_alls.
Proof.
  pose proof sqrt3_bounds as [Hlo Hhi].
  pose proof HEXA_SIDE_sqrt3 as HS. pose proof HEXA_WIDTH_value as HW.
  pose proof HEXA_DELTA_Y_value as HD.
  assert (Hkeeps : keeps_all
            (fun hexagon => Forall inside_canvas (hexagon_vertices hexagon))
            Hexagon_alls_script).
  { unfold Hexagon_alls_script. walk_script;
      apply hexagon_vertices_inside;
      rewrite ?draw_cube_center_board, ?draw_cube_center_extra;
      unfold TinyVector.add, TinyVector.sub, TinyVector.rmul, TinyVector.mul,
        UNIT_X, UNIT_Y; cbn [vx vy]; rewrite ?HD, ?HS, ?HW; lra. }
  apply Hkeeps. apply map_Forall_empty.
Qed.

Lemma lattice_distance (u1 v1 u2 v2 : Z) :
  (u1, v1) <> (u2, v2) ->
  HEXA_WIDTH <=
    TinyVector_norm (draw_hexagon_center (u1, v1) None
                     - draw_hexagon_center (u2, v2) None)%vec.
Proof.
  intros Hne. rewrite !draw_hexagon_center_value, HEXA_WIDTH_value.
  unfold TinyVector_norm, TinyVector.sub. cbn [vx vy].
  pose proof sqrt3_sq as H3.
  set (a := (u1 - u2)%Z). set (b := (v1 - v2)%Z).
  assert (Hab : (1 <= a * a + a * b + b * b)%Z).
  { assert (a <> 0 \/ b <> 0)%Z as Hnz.
    { destruct (Z.eq_dec a 0%Z) as [Ha|Ha]; [|auto].
      destruct (Z.eq_dec b 0%Z) as [Hb|Hb]; [|auto].
      exfalso. apply Hne. f_equal; lia. }
    nia. }
  apply IZR_le in Hab. rewrite !plus_IZR, !mult_IZR in Hab.
  unfold a, b in Hab. rewrite !minus_IZR in Hab.
  rewrite <- (sqrt_square (600 / 11)) at 1 by lra.
  apply sqrt_le_1_alt.
  set (A := IZR u1 - IZR u2) in *. set (B := IZR v1 - IZR v2) in *.
  match goal with
  | |- _ <= ?X =>
      replace X with (600 / 11 * (600 / 11) *
                      ((A + B / 2) * (A + B / 2) + B * B / 4 * (sqrt 3 * sqrt 3)))
        by (unfold A, B; field)
  end.
  rewrite H3.
  replace ((A + B / 2) * (A + B / 2) + B * B / 4 * 3)
    with (A * A + A * B + B * B) by field.
  nra.
Qed.

(** X25.  Two different hexagons of the board proper are at least the
    width of a hexagon apart, from centre to centre: they have different
    positions on the lattice, and two points of the lattice are never
    closer than that. *)
Theorem board_hexagons_are_a_width_apart label_1 label_2 hexagon_1 hexagon_2 :
  Hexagon_alls !! label_1 = Some hexagon_1 ->
  Hexagon_alls !! label_2 = Some hexagon_2 ->
  label_1 <> label_2 ->
  is_extra hexagon_1 = false ->
  is_extra hexagon_2 = false ->
  HEXA_WIDTH <=
    TinyVector_norm (draw_cube_center hexagon_1 - draw_cube_center hexagon_2)%vec.
Proof.
  intros H1 H2 Hne He1 He2.
  assert (Hdiffer : board_positions_differ Hexagon_alls = true)
    by (vm_compute; reflexivity).
  apply bool_decide_eq_true in Hdiffer.
  destruct (Hdiffer _ _ H1 _ _ H2) as [Heq | [He | [He | Hpos]]];
    [contradiction | congruence | congruence |].
  assert (Hnone : forall label hexagon,
            Hexagon_alls !! label = Some hexagon -> is_extra hexagon = false ->
            extra_shift hexagon = None).
  { assert (Hkeeps : keeps_all
              (fun hexagon => is_extra hexagon = is_not_None (extra_shift hexagon))
              Hexagon_alls_script)
      by (unfold Hexagon_alls_script; walk_script; reflexivity).
    intros label hexagon Hlookup Hextra.
    specialize (Hkeeps ∅ (map_Forall_empty _) label hexagon Hlookup).
    simpl in Hkeeps. rewrite Hextra in Hkeeps.
    destruct (extra_shift hexagon); [discriminate Hkeeps | reflexivity]. }
  apply Hnone in H1; [|exact He1]. apply Hnone in H2; [|exact He2].
  destruct hexagon_1 as [l1 [u1 v1] c1 e1 s1], hexagon_2 as [l2 [u2 v2] c2 e2 s2].
  simpl in *. subst s1 s2.
  apply (lattice_distance u1 v1 u2 v2 Hpos).
Qed.

Lemma board_hexagons_are_a_width_apart_witness :
  (Hexagon_alls !! "a1" = Some (mkHexagon "a1" (-1, -4)%Z OUTER false None) /\
   Hexagon_alls !! "e5" = Some (mkHexagon "e5" (0, 0)%Z INNER false None) /\
   "a1" <> "e5" /\
   is_extra (mkHexagon "a1" (-1, -4)%Z OUTER false None) = false /\
   is_extra (mkHexagon "e5" (0, 0)%Z INNER false None) = false) /\
  HEXA_WIDTH <=
    TinyVector_norm (draw_cube_center (mkHexagon "a1" (-1, -4)%Z OUTER false None)
                     - draw_cube_center (mkHexagon "e5" (0, 0)%Z INNER false None))%vec.
Proof.
  assert (H1 : Hexagon_alls !! "a1" = Some (mkHexagon "a1" (-1, -4)%Z OUTER false None))
    by (vm_compute; reflexivity).
  assert (H2 : Hexagon_alls !! "e5" = Some (mkHexagon "e5" (0, 0)%Z INNER false None))
    by (vm_compute; reflexivity).
  assert (Hne : "a1" <> "e5") by discriminate.
  split; [repeat split; assumption || reflexivity|].
  apply (board_hexagons_are_a_width_apart "a1" "e5" _ _ H1 H2 Hne);
    reflexivity.
Defined.

End Canvas.

(** ** The colors of the hexagons *)

Lemma byte_values_spec n : (0 <= n < 256)%Z -> n ∈ byte_values.
Proof.
  intros Hn. unfold byte_values. apply list_elem_of_fmap.
  exists (Z.to_nat n). split; [lia|]. apply elem_of_seq. lia.
Qed.

Lemma format_02x_byte_length n :
  (0 <= n < 256)%Z -> String.length (format_02x n) = 2%nat.
Proof.
  intros Hn. apply byte_values_spec in Hn.
  assert (Hall : forallb (fun n => Nat.eqb (String.length (format_02x n)) 2)
                   byte_values = true) by (vm_compute; reflexivity).
  rewrite forallb_forall in Hall. apply Nat.eqb_eq, Hall, list_elem_of_In, Hn.
Qed.

Lemma format_02x_byte_inj n m :
  (0 <= n < 256)%Z -> (0 <= m < 256)%Z -> format_02x n = format_02x m -> n = m.
Proof.
  intros Hn Hm Heq. apply byte_values_spec in Hn, Hm.
  assert (Hall : forallb (fun n =>
                   forallb (fun m =>
                     implb (String.eqb (format_02x n) (format_02x m)) (n =? m)%Z)
                     byte_values) byte_values = true) by (vm_compute; reflexivity).
  rewrite forallb_forall in Hall. apply list_elem_of_In, Hall in Hn.
  rewrite forallb_forall in Hn. apply list_elem_of_In, Hn in Hm.
  apply String.eqb_eq in Heq. rewrite Heq in Hm. apply Z.eqb_eq, Hm.
Qed.

Lemma append_inj_length (a a' b b' : string) :
  String.length a = String.length a' -> a ++ b = a' ++ b' -> a = a' /\ b = b'.
Proof.
  revert a'. induction a as [|c a IH]; intros [|c' a'] Hlen Heq; str_simpl;
    try discriminate Hlen; [auto|].
  injection Heq as -> Heq.
  injection Hlen as Hlen. destruct (IH a' Hlen Heq) as [-> ->]. auto.
Qed.

Lemma length_append (a b : string) :
  String.length (a ++ b) = (String.length a + String.length b)%nat.
Proof.
  induction a as [|c a IH]; str_simpl; [reflexivity|].
  simpl. rewrite IH. reflexivity.
Qed.

(** X26.  On three integers from 0 to 255 [rgb_color] gives seven
    characters, and different triples give different colors; beyond 255
    two triples can give the same string. *)
Theorem rgb_color_tells_bytes_apart red green blue red' green' blue' :
  (0 <= red < 256)%Z -> (0 <= green < 256)%Z -> (0 <= blue < 256)%Z ->
  (0 <= red' < 256)%Z -> (0 <= green' < 256)%Z -> (0 <= blue' < 256)%Z ->
  String.length (rgb_color (red, green, blue)) = 7%nat /\
  (rgb_color (red, green, blue) = rgb_color (red', green', blue') <->
   (red, green, blue) = (red', green', blue')) /\
  rgb_color (256, 1, 17)%Z = rgb_color (16, 0, 273)%Z.
Proof.
  intros Hr Hg Hb Hr' Hg' Hb'.
  pose proof (format_02x_byte_length _ Hr) as Lr.
  pose proof (format_02x_byte_length _ Hg) as Lg.
  pose proof (format_02x_byte_length _ Hb) as Lb.
  pose proof (format_02x_byte_length _ Hr') as Lr'.
  pose proof (format_02x_byte_length _ Hg') as Lg'.
  split; [|split].
  - unfold rgb_color. rewrite append_cons, append_nil_l. simpl.
    rewrite !length_append, Lr, Lg, Lb. reflexivity.
  - split; [|intros H; injection H as -> -> ->; reflexivity].
    unfold rgb_color. rewrite !append_cons, !append_nil_l. intros H.
    injection H as H.
    apply append_inj_length in H as [H1 H]; [|congruence].
    apply append_inj_length in H as [H2 H3]; [|congruence].
    apply format_02x_byte_inj in H1, H2, H3; try assumption. congruence.
  - vm_compute. reflexivity.
Qed.

Lemma rgb_color_tells_bytes_apart_witness :
  ((0 <= 166 < 256)%Z /\ (0 <= 109 < 256)%Z /\ (0 <= 60 < 256)%Z /\
   (0 <= 242 < 256)%Z /\ (0 <= 202 < 256)%Z /\ (0 <= 128 < 256)%Z) /\
  String.length (rgb_color (166, 109, 60)%Z) = 7%nat /\
  (rgb_color (166, 109, 60)%Z = rgb_color (242, 202, 128)%Z <->
   (166, 109, 60)%Z = (242, 202, 128)%Z) /\
  rgb_color (256, 1, 17)%Z = rgb_color (16, 0, 273)%Z.
Proof.
  split; [lia|].
  apply (rgb_color_tells_bytes_apart 166 109 60 242 202 128); lia.
Defined.
